(** * avalanche.js: outputs, coin selection and the transaction builders

    A shallow embedding of [src/common/output.ts], of the P-chain
    [UTXOSet] (coin selection and the [build*Tx] family), of
    [ExportTx.toBuffer] and of the two API facades ([AVMAPI],
    [PlatformVMAPI]), followed by the properties established about them.

    Conventions.
    - A [Buffer] is a list of bytes; fixed-width integers stored in a buffer are
      read back with [readUInt32BE] / [fromBufferToBN] (big-endian).
    - [BN] values are unbounded integers ([Z]).
    - A JavaScript [throw] is the [Throw] branch of [Result]; a function that
      returns [undefined] in place of a value returns [None].
    - Methods that mutate their receiver return the new receiver.
    - [UnixNow()] and the answers of the node (RPC) are extra arguments. *)

From Stdlib Require Import ZArith QArith Lia.
From Stdlib Require Import Strings.Byte Strings.Ascii DecimalString.
From stdpp Require Import base option list sorting gmap strings.

Local Open Scope Z_scope.

(* ===================================================================== *)
(** * Part I: definitions                                                  *)
(* ===================================================================== *)

(** ** Errors *)

(** [new Error(msg)]; only the message is kept. *)
Record Error := MkError { message : string }.

Inductive Result (A : Type) : Type :=
| Ok (a : A)
| Throw (e : Error).
Arguments Ok {A} a.
Arguments Throw {A} e.

Definition bind {A B} (m : Result A) (k : A -> Result B) : Result B :=
  match m with
  | Ok a => k a
  | Throw e => Throw e
  end.

Declare Scope result_scope.
Delimit Scope result_scope with result.
Notation "'do' x <- m ; k" := (bind m (fun x => k))
  (at level 10, x name, m at level 100, k at level 200, only parsing) : result_scope.
Notation "'do' ' p <- m ; k" := (bind m (fun x => let 'p := x in k))
  (at level 10, p pattern, m at level 100, k at level 200, only parsing) : result_scope.
Local Open Scope result_scope.

(** [arr.map(f)] where [f] may throw: stops at the first exception. *)
Fixpoint mapM {A B} (f : A -> Result B) (l : list A) : Result (list B) :=
  match l with
  | [] => Ok []
  | x :: l' => do y <- f x; do ys <- mapM f l'; Ok (y :: ys)
  end.

(** ** Buffers *)

Abbreviation Buffer := (list byte).

Definition byte_val (b : byte) : Z := Z.of_N (Byte.to_N b).

Definition byte_of_Z (z : Z) : byte :=
  match Byte.of_N (Z.to_N (z mod 256)) with
  | Some b => b
  | None => x00
  end.

(** [Buffer.compare(a, b)]: byte-wise lexicographic order, a proper prefix
    sorts first; the result is -1, 0 or 1. *)
Fixpoint Buffer_compare (a b : Buffer) : Z :=
  match a, b with
  | [], [] => 0
  | [], _ :: _ => -1
  | _ :: _, [] => 1
  | x :: a', y :: b' =>
      if byte_val x <? byte_val y then -1
      else if byte_val y <? byte_val x then 1
      else Buffer_compare a' b'
  end.

(** [Buffer.alloc(n)] *)
Definition Buffer_alloc (n : nat) : Buffer := replicate n x00.

(** [Buffer.concat(list)] *)
Definition Buffer_concat (l : list Buffer) : Buffer := concat l.

(** [bintools.copyFrom(buff, start, end)] *)
Definition copyFrom (buff : Buffer) (start stop : nat) : Buffer :=
  take (stop - start) (drop start buff).

(** Big-endian value of a byte string ([bintools.fromBufferToBN]). *)
Definition fromBufferToBN (b : Buffer) : Z :=
  fold_left (fun acc x => acc * 256 + byte_val x) b 0.

(** The [n] low-order bytes of [z], most significant first. *)
Fixpoint be_bytes (n : nat) (z : Z) : Buffer :=
  match n with
  | O => []
  | S n' => be_bytes n' (z / 256) ++ [byte_of_Z z]
  end.

(** Modelled from the spec: [bintools.fromBNToBuffer(bn, length)], the
    "canonical big-integer to fixed-width byte conversion" ([utils/bintools.ts]
    is not part of the sources): the big-endian bytes of a non-negative [bn],
    at least one, left-padded with zeros up to [length] bytes. *)
Definition BN_byteLength (bn : Z) : nat := Z.to_nat (Z.log2 bn / 8 + 1).

Definition fromBNToBuffer (bn : Z) (length : nat) : Buffer :=
  be_bytes (Nat.max length (BN_byteLength bn)) bn.

(** [buf.writeUInt32BE(n, 0)] on a 4-byte buffer. *)
Definition writeUInt32BE (n : Z) : Buffer := be_bytes 4 n.

(** [buf.readUInt32BE(0)] *)
Definition readUInt32BE (b : Buffer) : Z := fromBufferToBN (take 4 b).

(** [buf.writeUInt32BE(n, 0)] with the check the [buffer] package makes of
    its argument: a value below 0 or above 0xffffffff throws a [RangeError],
    whose message holds the word value between double quotes. *)
Definition Error_value_out_of_bounds : Error :=
  MkError (String.append "RangeError: "
             (String (ascii_of_nat 34)
                (String.append "value"
                   (String (ascii_of_nat 34) " argument is out of bounds")))).

Definition Buffer_writeUInt32BE (n : Z) : Result Buffer :=
  if (n <? 0) || (4294967295 <? n) then Throw Error_value_out_of_bounds
  else Ok (writeUInt32BE n).

(** What string concatenation makes of a [BN] and of a length: the decimal
    digits ([bn.toString()], [String(n)]). *)
Definition BN_toString (bn : Z) : string := NilZero.string_of_int (Z.to_int bn).

Definition Number_toString (n : nat) : string :=
  NilZero.string_of_uint (N.to_uint (N.of_nat n)).

(** A JavaScript number as far as [>] and [<] see it: a finite value, here
    a rational, one of the two infinities, or [NaN], with which every
    comparison is false. *)
Inductive JSNumber :=
| JS_finite (q : Q)
| JS_Infinity
| JS_NegInfinity
| JS_NaN.

(** [x > y] and [x < y] for a finite [y] *)
Definition JS_gt (x : JSNumber) (y : Q) : bool :=
  match x with
  | JS_finite q => negb (Qle_bool q y)
  | JS_Infinity => true
  | JS_NegInfinity | JS_NaN => false
  end.

Definition JS_lt (x : JSNumber) (y : Q) : bool :=
  match x with
  | JS_finite q => negb (Qle_bool y q)
  | JS_NegInfinity => true
  | JS_Infinity | JS_NaN => false
  end.

(** Hexadecimal digits, as [buf.toString('hex')] prints them. *)
Definition hex_digit (n : Z) : ascii :=
  ascii_of_nat (Z.to_nat (if n <? 10 then 48 + n else 87 + n)).

Fixpoint toString_hex (b : Buffer) : string :=
  match b with
  | [] => EmptyString
  | x :: b' =>
      String (hex_digit (byte_val x / 16))
        (String (hex_digit (byte_val x mod 16)) (toString_hex b'))
  end.

(** Bytes compare by constructor. *)
#[global] Instance byte_eq_dec : EqDecision byte :=
  fun x y =>
    match Byte.eqb x y as b return Byte.eqb x y = b -> {x = y} + {x <> y} with
    | true => fun H => left (Byte.byte_dec_bl x y H)
    | false => fun H => right (Byte.eqb_false H)
    end eq_refl.

(** ** [Array.prototype.sort(comparator)]

    The sort is stable: an element moves in front of another one only when
    the comparator says it is smaller. (Stability only shows on elements that
    compare equal; under the comparators below these serialise to the same
    bytes.) *)
Section Sort.
Context {A : Type} (cmp : A -> A -> Z).

Fixpoint sort_insert (x : A) (l : list A) : list A :=
  match l with
  | [] => [x]
  | y :: l' => if cmp x y <=? 0 then x :: y :: l' else y :: sort_insert x l'
  end.

Definition Array_sort (l : list A) : list A := foldr sort_insert [] l.
End Sort.

(** ** [common/output.ts] *)

(** An [Address] wraps a buffer of [bsize = 20] bytes; it is identified with
    that buffer ([toBuffer] returns it). *)
Abbreviation Address := (list byte).

Definition Address_bsize : nat := 20.

(** [NBytes.fromBuffer(buff)] on a fresh [Address]. *)
Definition Address_fromBuffer (buff : Buffer) : Result Address :=
  if (length buff <? Address_bsize)%nat
  then Throw (MkError "Error - NBytes.fromBuffer: Error: Buffer length must be at least 20 bytes.")
  else Ok (copyFrom buff 0 Address_bsize).

(** [Address.comparator()] *)
Definition Address_comparator (a b : Address) : Z := Buffer_compare a b.

Record OutputOwners := MkOutputOwners {
  locktime : Buffer;
  threshold : Buffer;
  numaddrs : Buffer;
  addresses : list Address
}.

Definition getThreshold (o : OutputOwners) : Z := readUInt32BE (threshold o).

Definition getLocktime (o : OutputOwners) : Z := fromBufferToBN (locktime o).

Definition getAddresses (o : OutputOwners) : list Buffer := addresses o.

(** [getAddressIdx]: position of the first owner equal to [address], -1 when
    there is none. *)
Fixpoint getAddressIdx_from (i : Z) (addrs : list Address) (address : Buffer) : Z :=
  match addrs with
  | [] => -1
  | a :: addrs' =>
      if String.eqb (toString_hex a) (toString_hex address) then i
      else getAddressIdx_from (i + 1) addrs' address
  end.

Definition getAddressIdx (o : OutputOwners) (address : Buffer) : Z :=
  getAddressIdx_from 0 (addresses o) address.

(** The inner loop of [getSpenders]:
    [for (j = 0; j < addresses.length && qualified.length < threshold; j++)]. *)
Fixpoint getSpenders_inner (thr : Z) (owner : Address) (cands : list Buffer)
    (qualified : list Buffer) : list Buffer :=
  match cands with
  | [] => qualified
  | c :: cands' =>
      if Z.of_nat (length qualified) <? thr then
        getSpenders_inner thr owner cands'
          (if String.eqb (toString_hex c) (toString_hex owner)
           then qualified ++ [c] else qualified)
      else qualified
  end.

(** The outer loop:
    [for (i = 0; i < this.addresses.length && qualified.length < threshold; i++)]. *)
Fixpoint getSpenders_outer (thr : Z) (owners : list Address) (cands : list Buffer)
    (qualified : list Buffer) : list Buffer :=
  match owners with
  | [] => qualified
  | o :: owners' =>
      if Z.of_nat (length qualified) <? thr then
        getSpenders_outer thr owners' cands (getSpenders_inner thr o cands qualified)
      else qualified
  end.

(** [getSpenders(addresses, asOf)] with [asOf] given. *)
Definition getSpenders (o : OutputOwners) (cands : list Buffer) (asOf : Z) : list Buffer :=
  if asOf <=? getLocktime o then []   (* not unlocked, not spendable *)
  else getSpenders_outer (getThreshold o) (addresses o) cands [].

(** [meetsThreshold(addresses, asOf)] with [asOf] given. *)
Definition meetsThreshold (o : OutputOwners) (cands : list Buffer) (asOf : Z) : bool :=
  Z.of_nat (length (getSpenders o cands asOf)) >=? getThreshold o.

(** [OutputOwners.toBuffer()]. The method sorts [this.addresses] in place and
    rewrites [numaddrs]; [OutputOwners_normalize] is the receiver afterwards. *)
Definition OutputOwners_normalize (o : OutputOwners) : OutputOwners :=
  let addrs := Array_sort Address_comparator (addresses o) in
  {| locktime := locktime o; threshold := threshold o;
     numaddrs := writeUInt32BE (Z.of_nat (length addrs)); addresses := addrs |}.

Definition OutputOwners_toBuffer (o : OutputOwners) : Buffer :=
  let o' := OutputOwners_normalize o in
  Buffer_concat ([locktime o'; threshold o'; numaddrs o'] ++ addresses o').

(** [new OutputOwners(addresses, locktime, threshold)] with [addresses]
    given; [threshold || 1] and [locktime] defaulting to 0. The addresses are
    read first, then the threshold is written, which throws when it does not
    fit 32 bits. *)
Definition OutputOwners_new (addrs : list Buffer) (lock : option Z) (thr : option Z)
  : Result OutputOwners :=
  do as' <- mapM Address_fromBuffer addrs;
  let sorted := Array_sort Address_comparator as' in
  let thr' := match thr with Some t => if t =? 0 then 1 else t | None => 1 end in
  do threshold <- Buffer_writeUInt32BE thr';
  let lock' := match lock with Some l => l | None => 0 end in
  Ok {| locktime := fromBNToBuffer lock' 8;
        threshold := threshold;
        numaddrs := writeUInt32BE (Z.of_nat (length sorted));
        addresses := sorted |}.

(** [StandardAmountOutput]: an [Output] with an 8-byte [amount] and the
    same value as a [BN]. *)
Record StandardAmountOutput := MkAmountOutput {
  ao_outputID : Z;            (* what [getOutputID()] returns *)
  ao_amount : Buffer;
  ao_amountValue : Z;
  ao_owners : OutputOwners
}.

(** [new AmountOutput(amount, addresses, locktime, threshold)] for the
    subclass whose [getOutputID()] is [id]. *)
Definition StandardAmountOutput_new (id : Z) (amount : Z) (addrs : list Buffer)
    (lock : option Z) (thr : option Z) : Result StandardAmountOutput :=
  do o <- OutputOwners_new addrs lock thr;
  Ok {| ao_outputID := id; ao_amount := fromBNToBuffer amount 8;
        ao_amountValue := amount; ao_owners := o |}.

(** [StandardAmountOutput.toBuffer()] *)
Definition StandardAmountOutput_toBuffer (a : StandardAmountOutput) : Buffer :=
  let superbuff := OutputOwners_toBuffer (ao_owners a) in
  Buffer_concat [ao_amount a; superbuff].

(** An [Output] is either an amount output ([instanceof AmountOutput]) or an
    output of another class, of which only the type id and the bytes its
    [toBuffer()] yields are kept. *)
Inductive Output :=
| AmountOut (a : StandardAmountOutput)
| OtherOut (outputID : Z) (bytes : Buffer).

Definition Output_getOutputID (o : Output) : Z :=
  match o with
  | AmountOut a => ao_outputID a
  | OtherOut id _ => id
  end.

Definition Output_toBuffer (o : Output) : Buffer :=
  match o with
  | AmountOut a => StandardAmountOutput_toBuffer a
  | OtherOut _ bytes => bytes
  end.

(** The receiver after [toBuffer()]: the owners of an amount output are left
    sorted. *)
Definition Output_normalize (o : Output) : Output :=
  match o with
  | AmountOut a =>
      AmountOut {| ao_outputID := ao_outputID a; ao_amount := ao_amount a;
                   ao_amountValue := ao_amountValue a;
                   ao_owners := OutputOwners_normalize (ao_owners a) |}
  | OtherOut id bytes => OtherOut id bytes
  end.

(** [OutputOwners.comparator()], on two [Output]s. *)
Definition Output_comparator (a b : Output) : Z :=
  let aoutid := writeUInt32BE (Output_getOutputID a) in
  let abuff := Output_toBuffer a in
  let boutid := writeUInt32BE (Output_getOutputID b) in
  let bbuff := Output_toBuffer b in
  let asort := Buffer_concat [aoutid; abuff] in
  let bsort := Buffer_concat [boutid; bbuff] in
  Buffer_compare asort bsort.

Record TransferableOutput := MkTransferableOutput {
  to_assetID : Buffer;
  to_output : Output
}.

(** [StandardTransferableOutput.toBuffer()] *)
Definition TransferableOutput_toBuffer (x : TransferableOutput) : Buffer :=
  let outbuff := Output_toBuffer (to_output x) in
  let outid := writeUInt32BE (Output_getOutputID (to_output x)) in
  Buffer_concat [to_assetID x; outid; outbuff].

Definition TransferableOutput_normalize (x : TransferableOutput) : TransferableOutput :=
  {| to_assetID := to_assetID x; to_output := Output_normalize (to_output x) |}.

(** [StandardTransferableOutput.comparator()] *)
Definition TransferableOutput_comparator (a b : TransferableOutput) : Z :=
  let sorta := TransferableOutput_toBuffer a in
  let sortb := TransferableOutput_toBuffer b in
  Buffer_compare sorta sortb.

(** ** Inputs ([platformvm/inputs.ts]) *)

(** A [SecpInput]: its amount and the signature indices added so far, each
    with the address it stands for. *)
Record SecpInput := MkSecpInput {
  in_amount : Z;
  in_sigIdxs : list (Z * Buffer)
}.

(** Modelled from the spec: [Input.addSignatureIdx(idx, address)]
    ([common/input.ts] is not part of the sources), which "records
    (addrIdx, s)" on the input. *)
Definition addSignatureIdx (i : SecpInput) (idx : Z) (address : Buffer) : SecpInput :=
  {| in_amount := in_amount i; in_sigIdxs := in_sigIdxs i ++ [(idx, address)] |}.

Record TransferableInput := MkTransferableInput {
  ti_txid : Buffer;
  ti_outputidx : Buffer;
  ti_assetID : Buffer;
  ti_input : SecpInput
}.

(** ** Transactions *)

(** The arguments a [BaseTx] is constructed from. The order in which a built
    transaction keeps [outs] and [ins] is the business of its constructor
    ([platformvm/basetx.ts] is not part of the sources): the record holds them
    as the builder passes them, and what is proved of the outputs and inputs
    of a built transaction does not depend on their order. *)
Record BaseTx := MkBaseTx {
  btx_networkid : Z;
  btx_blockchainid : Buffer;
  btx_outs : list TransferableOutput;
  btx_ins : list TransferableInput;
  btx_memo : option Buffer
}.

(** [platformvm/exporttx.ts] *)
Record ExportTx := MkExportTx {
  etx_base : BaseTx;
  etx_destinationChain : option Buffer;
  etx_numOuts : Buffer;
  etx_exportOuts : list TransferableOutput
}.

(** [new ExportTx(networkid, blockchainid, destinationChain, outs, ins, memo,
    exportOuts)] *)
Definition ExportTx_new (networkid : Z) (blockchainid : Buffer)
    (destinationChain : option Buffer) (outs : list TransferableOutput)
    (ins : list TransferableInput) (memo : option Buffer)
    (exportOuts : option (list TransferableOutput)) : ExportTx :=
  {| etx_base := MkBaseTx networkid blockchainid outs ins memo;
     etx_destinationChain := destinationChain;
     etx_numOuts := Buffer_alloc 4;
     etx_exportOuts := match exportOuts with Some l => l | None => [] end |}.

(** [ExportTx.getExportOutputs()] *)
Definition getExportOutputs (t : ExportTx) : list TransferableOutput := etx_exportOuts t.

(** [ExportTx.getExportTotal()], over amount outputs. *)
Definition getExportTotal (t : ExportTx) : Z :=
  fold_left (fun val x =>
               match to_output x with
               | AmountOut a => val + ao_amountValue a
               | OtherOut _ _ => val
               end) (etx_exportOuts t) 0.

(** [ExportTx.toBuffer()]. [super_toBuffer] stands for [super.toBuffer()], the
    bytes of the [BaseTx] part ([platformvm/basetx.ts] is not part of the
    sources). The result is the receiver afterwards, whose [exportOuts] have
    been sorted, and the bytes. *)
Definition ExportTx_toBuffer (super_toBuffer : BaseTx -> Buffer) (t : ExportTx)
  : Result (ExportTx * Buffer) :=
  match etx_destinationChain t with
  | None => Throw (MkError "ExportTx.toBuffer -- this.destinationChain is undefined")
  | Some destinationChain =>
      let numOuts := writeUInt32BE (Z.of_nat (length (etx_exportOuts t))) in
      let barr := [super_toBuffer (etx_base t); destinationChain; numOuts] in
      let exportOuts := Array_sort TransferableOutput_comparator (etx_exportOuts t) in
      let barr := barr ++ map TransferableOutput_toBuffer exportOuts in
      Ok ({| etx_base := etx_base t;
             etx_destinationChain := Some destinationChain;
             etx_numOuts := numOuts;
             etx_exportOuts := map TransferableOutput_normalize exportOuts |},
          Buffer_concat barr)
  end.

(** ** UTXOs ([platformvm/utxos.ts]) *)

Record UTXO := MkUTXO {
  u_codecid : Buffer;
  u_txid : Buffer;
  u_outputidx : Buffer;
  u_assetid : Buffer;
  u_output : Output
}.

(** Modelled from the spec: [StandardUTXOSet] ([common/utxos.ts] is not part
    of the sources) as far as the builders use it, "walk UTXOs in the set's
    iteration order": the set is the list of its UTXOs in that order, which is
    what [getAllUTXOs()] returns. *)
Definition UTXOSet := list UTXO.

Definition getAllUTXOs (set : UTXOSet) : list UTXO := set.

(** ** The asset-amount destination *)

(** Modelled from the spec: [AssetAmount] ([common/assetamount.ts] is not
    part of the sources), the "per-asset (amount, burn, change) accumulators"
    "accumulating spent and burned", with "spent=0" and "burned=0" at first. *)
Record AssetAmount := MkAssetAmount {
  aa_assetID : Buffer;
  aa_amount : Z;
  aa_burn : Z;
  aa_spent : Z;
  aa_burned : Z;
  aa_change : Z
}.

Definition AssetAmount_new (assetID : Buffer) (amount burn : Z) : AssetAmount :=
  {| aa_assetID := assetID; aa_amount := amount; aa_burn := burn;
     aa_spent := 0; aa_burned := 0; aa_change := 0 |}.

Definition getAssetIDString (am : AssetAmount) : string := toString_hex (aa_assetID am).

(** Modelled from the spec: an asset is done when it satisfies its targets,
    "spent ≥ amount and burned ≥ burn". *)
Definition isFinished (am : AssetAmount) : bool :=
  (aa_amount am <=? aa_spent am) && (aa_burn am <=? aa_burned am).

(** Modelled from the spec: [spendAmount] "applies a to the amount target
    first, overflow to the burn target"; what exceeds both is the change. *)
Definition spendAmount (am : AssetAmount) (a : Z) : AssetAmount :=
  let to_amount := Z.min a (Z.max 0 (aa_amount am - aa_spent am)) in
  let rest := a - to_amount in
  let to_burn := Z.min rest (Z.max 0 (aa_burn am - aa_burned am)) in
  {| aa_assetID := aa_assetID am; aa_amount := aa_amount am; aa_burn := aa_burn am;
     aa_spent := aa_spent am + to_amount;
     aa_burned := aa_burned am + to_burn;
     aa_change := aa_change am + (rest - to_burn) |}.

(** Modelled from the spec: [StandardAssetAmountDestination], "per-asset
    [AssetAmount]" records, "senders, destinations, changeAddrs, accumulated
    ins/outs/change". *)
Record AssetAmountDestination := MkAAD {
  aad_amounts : list AssetAmount;
  aad_destinations : list Buffer;
  aad_senders : list Buffer;
  aad_changeAddresses : list Buffer;
  aad_inputs : list TransferableInput;
  aad_outputs : list TransferableOutput;
  aad_change : list TransferableOutput
}.

(** [new AssetAmountDestination(destinations, senders, changeAddresses)] *)
Definition AssetAmountDestination_new (destinations senders changeAddresses : list Buffer)
  : AssetAmountDestination :=
  {| aad_amounts := []; aad_destinations := destinations; aad_senders := senders;
     aad_changeAddresses := changeAddresses;
     aad_inputs := []; aad_outputs := []; aad_change := [] |}.

Definition AAD_with_amounts (aad : AssetAmountDestination) (amounts : list AssetAmount)
  : AssetAmountDestination :=
  {| aad_amounts := amounts; aad_destinations := aad_destinations aad;
     aad_senders := aad_senders aad; aad_changeAddresses := aad_changeAddresses aad;
     aad_inputs := aad_inputs aad; aad_outputs := aad_outputs aad;
     aad_change := aad_change aad |}.

(** [aad.addAssetAmount(assetID, amount, burn)] *)
Definition addAssetAmount (aad : AssetAmountDestination) (assetID : Buffer) (amount burn : Z)
  : AssetAmountDestination :=
  AAD_with_amounts aad (aad_amounts aad ++ [AssetAmount_new assetID amount burn]).

Definition addInput (aad : AssetAmountDestination) (input : TransferableInput)
  : AssetAmountDestination :=
  {| aad_amounts := aad_amounts aad; aad_destinations := aad_destinations aad;
     aad_senders := aad_senders aad; aad_changeAddresses := aad_changeAddresses aad;
     aad_inputs := aad_inputs aad ++ [input]; aad_outputs := aad_outputs aad;
     aad_change := aad_change aad |}.

Definition addOutput (aad : AssetAmountDestination) (output : TransferableOutput)
  : AssetAmountDestination :=
  {| aad_amounts := aad_amounts aad; aad_destinations := aad_destinations aad;
     aad_senders := aad_senders aad; aad_changeAddresses := aad_changeAddresses aad;
     aad_inputs := aad_inputs aad; aad_outputs := aad_outputs aad ++ [output];
     aad_change := aad_change aad |}.

Definition addChange (aad : AssetAmountDestination) (output : TransferableOutput)
  : AssetAmountDestination :=
  {| aad_amounts := aad_amounts aad; aad_destinations := aad_destinations aad;
     aad_senders := aad_senders aad; aad_changeAddresses := aad_changeAddresses aad;
     aad_inputs := aad_inputs aad; aad_outputs := aad_outputs aad;
     aad_change := aad_change aad ++ [output] |}.

Definition getAmounts (aad : AssetAmountDestination) : list AssetAmount := aad_amounts aad.
Definition getSenders (aad : AssetAmountDestination) : list Buffer := aad_senders aad.
Definition getDestinations (aad : AssetAmountDestination) : list Buffer := aad_destinations aad.
Definition getChangeAddresses (aad : AssetAmountDestination) : list Buffer :=
  aad_changeAddresses aad.
Definition getInputs (aad : AssetAmountDestination) : list TransferableInput := aad_inputs aad.
Definition getOutputs (aad : AssetAmountDestination) : list TransferableOutput :=
  aad_outputs aad.
Definition getChangeOutputs (aad : AssetAmountDestination) : list TransferableOutput :=
  aad_change aad.
Definition getAllOutputs (aad : AssetAmountDestination) : list TransferableOutput :=
  aad_outputs aad ++ aad_change aad.

(** [aad.getAssetAmount(assetKey)]: the record of the asset whose hex id is
    [assetKey]. *)
Definition getAssetAmount (aad : AssetAmountDestination) (assetKey : string)
  : option AssetAmount :=
  find (fun am => String.eqb (getAssetIDString am) assetKey) (aad_amounts aad).

Definition assetExists (aad : AssetAmountDestination) (assetKey : string) : bool :=
  bool_decide (is_Some (getAssetAmount aad assetKey)).

(** Modelled from the spec: "[canComplete] ⇔ every asset has spent ≥ amount
    and burned ≥ burn". *)
Definition canComplete (aad : AssetAmountDestination) : bool :=
  forallb isFinished (aad_amounts aad).

(** [am = aad.getAssetAmount(assetKey); am.spendAmount(amount)]: the record
    is shared with the destination, which sees the update. *)
Fixpoint spend_in (amounts : list AssetAmount) (assetKey : string) (a : Z)
  : list AssetAmount :=
  match amounts with
  | [] => []
  | am :: rest =>
      if String.eqb (getAssetIDString am) assetKey then spendAmount am a :: rest
      else am :: spend_in rest assetKey a
  end.

Definition AAD_spendAmount (aad : AssetAmountDestination) (assetKey : string) (a : Z)
  : AssetAmountDestination :=
  AAD_with_amounts aad (spend_in (aad_amounts aad) assetKey a).

(** ** Transactions of the P-chain *)

(** The transaction classes, each with the arguments of its constructor
    ([platformvm/importtx.ts], [validationtx.ts] and [basetx.ts] are not part
    of the sources). *)
Inductive Tx :=
| Tx_BaseTx (base : BaseTx)
| Tx_ImportTx (base : BaseTx) (sourceChain : Buffer) (importIns : list TransferableInput)
| Tx_ExportTx (tx : ExportTx)
| Tx_AddSubnetValidatorTx (base : BaseTx) (nodeID : Buffer) (startTime endTime weight : Z)
| Tx_AddDelegatorTx (base : BaseTx) (nodeID : Buffer) (startTime endTime stakeAmount : Z)
    (stakeOuts : list TransferableOutput) (rewardAddress : Buffer)
| Tx_AddValidatorTx (base : BaseTx) (nodeID : Buffer) (startTime endTime stakeAmount : Z)
    (stakeOuts : list TransferableOutput) (rewardAddress : Buffer)
    (delegationFee : JSNumber).

(** [new UnsignedTx(tx)] *)
Inductive UnsignedTx := MkUnsignedTx (transaction : Tx).

Definition getTransaction (utx : UnsignedTx) : Tx :=
  match utx with MkUnsignedTx tx => tx end.

(** One chain's entry of [Defaults.network[netid]]. *)
Record ChainDefaults := MkChainDefaults {
  cd_blockchainID : string;
  cd_alias : string;
  cd_fee : Z
}.

(** ** What the sources leave out

    Constants, tables and helpers of the repository that the modelled code
    uses and whose source files are not available; they are parameters of
    everything below. *)
Class Externals := {
  (** [PlatformVMConstants.MINSTAKE] and [ONEAVAX], [AVMConstants.ONEAVAX] *)
  MINSTAKE : Z;
  PlatformVM_ONEAVAX : Z;
  AVM_ONEAVAX : Z;
  (** [PlatformChainID] of [utils/constants.ts] *)
  PlatformChainID : string;
  (** [bintools.cb58Decode], which throws on a bad checksum *)
  cb58Decode : string -> Result Buffer;
  (** [SelectOutputClass(outputid, amount, addresses, locktime, threshold)] of
      [platformvm/outputs.ts], cast to [AmountOutput] by its callers *)
  SelectOutputClass :
    option Z -> Z -> list Buffer -> option Z -> option Z -> Result Output;
  (** [utx.getOutputTotal(assetID)] and [utx.getBurn(assetID)] of
      [common/tx.ts] *)
  getOutputTotal : UnsignedTx -> Buffer -> Z;
  getBurn : UnsignedTx -> Buffer -> Z;
  (** [Defaults.network] of [utils/constants.ts]: per network id, the
      settings of each chain, under its alias and under its id *)
  Defaults_network : gmap Z (gmap string ChainDefaults);
  (** [bintools.parseAddress(addr, blockchainID, alias, addrlen)],
      [bintools.addressToString(hrp, chainid, bytes)],
      [bintools.stringToAddress(address)] and [NodeIDStringToBuffer(nodeID)] *)
  bintools_parseAddress : string -> string -> option string -> Z -> Result (option Buffer);
  bintools_addressToString : string -> string -> Buffer -> string;
  bintools_stringToAddress : string -> Result Buffer;
  NodeIDStringToBuffer : string -> Result Buffer;
  (** [PrimaryAssetAlias], [AVMConstants.SYMBOLMAXLEN] and [ASSETNAMELEN] *)
  PrimaryAssetAlias : string;
  SYMBOLMAXLEN : nat;
  ASSETNAMELEN : nat
}.

(** The classes of [apis/avm] that the AVM facade hands its arguments to
    ([avm/utxos.ts] and the transaction classes are not part of the sources):
    the UTXO set with its builders, and the unsigned transaction with its
    totals. *)
Class AVMExternals := {
  AVM_UTXOSet : Type;
  AVM_UnsignedTx : Type;
  InitialStates : Type;
  MinterSet : Type;
  AVM_getOutputTotal : AVM_UnsignedTx -> Buffer -> Z;
  AVM_getBurn : AVM_UnsignedTx -> Buffer -> Z;
  (** [utxoset.buildBaseTx(networkid, blockchainid, amount, assetID, to, from,
      change, fee, feeAssetID, memo, asOf, locktime, threshold)] *)
  AVM_UTXOSet_buildBaseTx :
    AVM_UTXOSet -> Z -> Buffer -> Z -> option Buffer -> list Buffer -> list Buffer ->
    list Buffer -> Z -> Buffer -> option Buffer -> Z -> Z -> Z ->
    Result (option AVM_UnsignedTx);
  (** [utxoset.buildNFTTransferTx(networkid, blockchainid, to, from, utxoids,
      fee, feeAssetID, memo, asOf, locktime, threshold)] *)
  AVM_UTXOSet_buildNFTTransferTx :
    AVM_UTXOSet -> Z -> Buffer -> list Buffer -> list Buffer -> list string ->
    Z -> Buffer -> option Buffer -> Z -> Z -> Z -> Result (option AVM_UnsignedTx);
  (** [utxoset.buildImportTx(networkid, blockchainid, owners, importIns,
      sourceChain, fee, feeAssetID, memo, asOf)] *)
  AVM_UTXOSet_buildImportTx :
    AVM_UTXOSet -> Z -> Buffer -> list Buffer -> list TransferableInput ->
    option Buffer -> Z -> Buffer -> option Buffer -> Z -> Result (option AVM_UnsignedTx);
  (** [utxoset.buildExportTx(networkid, blockchainid, amount, avaxAssetID, to,
      from, change, destinationChain, fee, feeAssetID, memo, asOf, locktime,
      threshold)] *)
  AVM_UTXOSet_buildExportTx :
    AVM_UTXOSet -> Z -> Buffer -> Z -> Buffer -> list Buffer -> list Buffer ->
    list Buffer -> option Buffer -> Z -> Buffer -> option Buffer -> Z -> Z -> Z ->
    Result (option AVM_UnsignedTx);
  (** [utxoset.buildCreateAssetTx(networkid, blockchainid, from, initialStates,
      name, symbol, denomination, fee, feeAssetID, memo, asOf)] *)
  AVM_UTXOSet_buildCreateAssetTx :
    AVM_UTXOSet -> Z -> Buffer -> list Buffer -> InitialStates -> string -> string ->
    Z -> Z -> Buffer -> option Buffer -> Z -> Result (option AVM_UnsignedTx);
  (** [utxoset.buildCreateNFTAssetTx(networkid, blockchainid, from, minterSets,
      name, symbol, fee, feeAssetID, memo, asOf, locktime)] *)
  AVM_UTXOSet_buildCreateNFTAssetTx :
    AVM_UTXOSet -> Z -> Buffer -> list Buffer -> list MinterSet -> string -> string ->
    Z -> Buffer -> option Buffer -> Z -> Z -> Result (option AVM_UnsignedTx);
  (** [utxoset.buildCreateNFTMintTx(networkid, blockchainid, to, from, utxoids,
      groupID, payload, fee, feeAssetID, memo, asOf, locktime, threshold)] *)
  AVM_UTXOSet_buildCreateNFTMintTx :
    AVM_UTXOSet -> Z -> Buffer -> list Buffer -> list Buffer -> list string -> Z ->
    option Buffer -> Z -> Buffer -> option Buffer -> Z -> Z -> Z ->
    Result (option AVM_UnsignedTx)
}.

(** ** Coin selection and the builders ([UTXOSet] of [platformvm/utxos.ts]) *)

Definition Error_insufficient_funds : Error :=
  MkError "Error - UTXOSet.getMinimumSpendable: insufficient funds to create the transaction".

(** [_feeCheck(fee, feeAssetID)] *)
Definition _feeCheck (fee : option Z) (feeAssetID : option Buffer) : bool :=
  match fee, feeAssetID with
  | Some fee, Some _ => fee >? 0
  | _, _ => false
  end.

(** The loop over the spenders of one UTXO:
    [xferin.getInput().addSignatureIdx(idx, spenders[j])]. *)
Fixpoint add_spenders (uout : StandardAmountOutput) (spenders : list Buffer)
    (input : SecpInput) : Result SecpInput :=
  match spenders with
  | [] => Ok input
  | sp :: spenders' =>
      let idx := getAddressIdx (ao_owners uout) sp in
      if idx =? -1 then
        Throw (MkError "Error - UTXOSet.buildBaseTx: no such address in output")
      else add_spenders uout spenders' (addSignatureIdx input idx sp)
  end.

(** The body of the walk of [getMinimumSpendable] for one UTXO [u]; the state
    is the destination and [outids]. *)
Definition spend_utxo (u : UTXO) (asOf : Z)
    (st : AssetAmountDestination * gmap string Z)
  : Result (AssetAmountDestination * gmap string Z) :=
  let '(aad, outids) := st in
  let assetKey := toString_hex (u_assetid u) in
  let fromAddresses := getSenders aad in
  match u_output u with
  | AmountOut uout =>
      if assetExists aad assetKey && meetsThreshold (ao_owners uout) fromAddresses asOf then
        match getAssetAmount aad assetKey with
        | Some am =>
            if negb (isFinished am) then
              let outids := <[assetKey := ao_outputID uout]> outids in
              let amount := ao_amountValue uout in
              let aad := AAD_spendAmount aad assetKey amount in
              let txid := u_txid u in
              let outputidx := u_outputidx u in
              let input := MkSecpInput amount [] in
              let spenders := getSpenders (ao_owners uout) fromAddresses asOf in
              do input <- add_spenders uout spenders input;
              let xferin := MkTransferableInput txid outputidx (u_assetid u) input in
              Ok (addInput aad xferin, outids)
            else
              (* [else if (aad.assetExists(assetKey) && !(u.getOutput()
                 instanceof AmountOutput)) continue;] *)
              Ok (aad, outids)
        | None => Throw (MkError "TypeError: Cannot read property 'isFinished' of undefined")
        end
      else Ok (aad, outids)
  | OtherOut _ _ => Ok (aad, outids)
  end.

(** [for (i = 0; i < utxoArray.length && !aad.canComplete(); i++)] *)
Fixpoint spend_walk (utxoArray : list UTXO) (asOf : Z)
    (st : AssetAmountDestination * gmap string Z)
  : Result (AssetAmountDestination * gmap string Z) :=
  match utxoArray with
  | [] => Ok st
  | u :: rest =>
      if canComplete (fst st) then Ok st
      else do st' <- spend_utxo u asOf st; spend_walk rest asOf st'
  end.

Section Builders.
Context {ext : Externals}.

(** The second loop of [getMinimumSpendable], over [aad.getAmounts()]. *)
Fixpoint emit_outputs (amounts : list AssetAmount) (outids : gmap string Z)
    (locktime threshold : Z) (aad : AssetAmountDestination)
  : Result AssetAmountDestination :=
  match amounts with
  | [] => Ok aad
  | am :: rest =>
      let assetKey := getAssetIDString am in
      let amount := aa_amount am in
      do aad <-
        (if amount >? 0 then
           do spendout <- SelectOutputClass (outids !! assetKey) amount
                            (getDestinations aad) (Some locktime) (Some threshold);
           Ok (addOutput aad (MkTransferableOutput (aa_assetID am) spendout))
         else Ok aad);
      let change := aa_change am in
      do aad <-
        (if change >? 0 then
           do changeout <- SelectOutputClass (outids !! assetKey) change
                             (getChangeAddresses aad) None None;
           Ok (addChange aad (MkTransferableOutput (aa_assetID am) changeout))
         else Ok aad);
      emit_outputs rest outids locktime threshold aad
  end.

(** [getMinimumSpendable(aad, asOf, locktime, threshold)]: the destination
    afterwards, and the [Error] returned ([None] for [undefined]). *)
Definition getMinimumSpendable (set : UTXOSet) (aad : AssetAmountDestination)
    (asOf locktime threshold : Z)
  : Result (AssetAmountDestination * option Error) :=
  let utxoArray := getAllUTXOs set in
  do '(aad, outids) <- spend_walk utxoArray asOf (aad, ∅);
  if negb (canComplete aad) then Ok (aad, Some Error_insufficient_funds)
  else
    do aad <- emit_outputs (getAmounts aad) outids locktime threshold aad;
    Ok (aad, None).

(** The destination that [buildBaseTx] and [buildExportTx] fill in before
    the selection; a missing [fee] burns nothing. *)
Definition transfer_aad (toAddresses fromAddresses changeAddresses : list Buffer)
    (assetID : Buffer) (amount : Z) (fee : option Z) (feeAssetID : Buffer)
  : AssetAmountDestination :=
  let zero := 0 in
  let aad := AssetAmountDestination_new toAddresses fromAddresses changeAddresses in
  if String.eqb (toString_hex assetID) (toString_hex feeAssetID) then
    addAssetAmount aad assetID amount (default 0 fee)
  else
    let aad := addAssetAmount aad assetID amount zero in
    if _feeCheck fee (Some feeAssetID) then
      addAssetAmount aad feeAssetID zero (default 0 fee)
    else aad.

(** [buildBaseTx]; [asOf], [locktime] and [threshold] are given (their
    defaults are [UnixNow()], 0 and 1). [None] is [undefined]. *)
Definition buildBaseTx (set : UTXOSet) (networkid : Z) (blockchainid : Buffer)
    (amount : Z) (assetID : Buffer) (toAddresses fromAddresses : list Buffer)
    (changeAddresses : option (list Buffer)) (fee : option Z)
    (feeAssetID : option Buffer) (memo : option Buffer)
    (asOf locktime threshold : Z) : Result (option UnsignedTx) :=
  if threshold >? Z.of_nat (length toAddresses) then
    Throw (MkError "Error - UTXOSet.buildBaseTx: threshold is greater than number of addresses")
  else
    let changeAddresses := default toAddresses changeAddresses in
    let feeAssetID := default assetID feeAssetID in
    let zero := 0 in
    if amount =? zero then Ok None
    else
      let aad := transfer_aad toAddresses fromAddresses changeAddresses
                   assetID amount fee feeAssetID in
      do '(aad, success) <- getMinimumSpendable set aad asOf locktime threshold;
      match success with
      | None =>
          let ins := getInputs aad in
          let outs := getAllOutputs aad in
          let baseTx := MkBaseTx networkid blockchainid outs ins memo in
          Ok (Some (MkUnsignedTx (Tx_BaseTx baseTx)))
      | Some e => Throw e
      end.

(** The selection that pays the fee alone, in [buildImportTx] and
    [buildAddSubnetValidatorTx]. *)
Definition fee_only_selection (set : UTXOSet) (destinations senders change : list Buffer)
    (fee : option Z) (feeAssetID : option Buffer) (asOf : Z)
  : Result (list TransferableInput * list TransferableOutput) :=
  match fee, feeAssetID with
  | Some fee', Some feeAssetID' =>
      if _feeCheck fee feeAssetID then
        let aad := AssetAmountDestination_new destinations senders change in
        let aad := addAssetAmount aad feeAssetID' 0 fee' in
        do '(aad, success) <- getMinimumSpendable set aad asOf 0 1;
        match success with
        | None => Ok (getInputs aad, getAllOutputs aad)
        | Some e => Throw e
        end
      else Ok ([], [])
  | _, _ => Ok ([], [])
  end.

(** [buildImportTx] *)
Definition buildImportTx (set : UTXOSet) (networkid : Z) (blockchainid : Buffer)
    (fromAddresses : list Buffer) (importIns : list TransferableInput)
    (destinationChain : option Buffer) (fee : option Z) (feeAssetID : option Buffer)
    (memo : option Buffer) (asOf : Z) : Result (option UnsignedTx) :=
  (* Not implemented: Fees can be paid from importIns *)
  do '(ins, outs) <-
    fee_only_selection set fromAddresses fromAddresses fromAddresses fee feeAssetID asOf;
  do destinationChain <-
    match destinationChain with
    | None => cb58Decode PlatformChainID
    | Some c => Ok c
    end;
  let importTx :=
    Tx_ImportTx (MkBaseTx networkid blockchainid outs ins memo) destinationChain importIns in
  Ok (Some (MkUnsignedTx importTx)).

(** [buildExportTx] *)
Definition buildExportTx (set : UTXOSet) (networkid : Z) (blockchainid : Buffer)
    (amount : Z) (avaxAssetID : Buffer) (toAddresses fromAddresses : list Buffer)
    (changeAddresses : option (list Buffer)) (destinationChain : option Buffer)
    (fee : option Z) (feeAssetID : option Buffer) (memo : option Buffer)
    (asOf locktime threshold : Z) : Result (option UnsignedTx) :=
  let changeAddresses := default toAddresses changeAddresses in
  let zero := 0 in
  if amount =? zero then Ok None
  else
    do feeAssetID <-
      match feeAssetID with
      | None => Ok avaxAssetID
      | Some f =>
          if negb (String.eqb (toString_hex f) (toString_hex avaxAssetID)) then
            Throw (MkError "Error - UTXOSet.buildExportTx: feeAssetID must match avaxAssetID")
          else Ok f
      end;
    do destinationChain <-
      match destinationChain with
      | None => cb58Decode PlatformChainID
      | Some c => Ok c
      end;
    let aad := transfer_aad toAddresses fromAddresses changeAddresses
                 avaxAssetID amount fee feeAssetID in
    do '(aad, success) <- getMinimumSpendable set aad asOf locktime threshold;
    match success with
    | None =>
        let ins := getInputs aad in
        let outs := getChangeOutputs aad in
        let exportouts := getOutputs aad in
        let exportTx :=
          ExportTx_new networkid blockchainid (Some destinationChain) outs ins memo
            (Some exportouts) in
        Ok (Some (MkUnsignedTx (Tx_ExportTx exportTx)))
    | Some e => Throw e
    end.

(** [startTime.lt(now) || endTime.lte(startTime)] *)
Definition bad_stake_window (now startTime endTime : Z) : bool :=
  (startTime <? now) || (endTime <=? startTime).

(** [buildAddSubnetValidatorTx]; [now] is what [UnixNow()] returns. *)
Definition buildAddSubnetValidatorTx (set : UTXOSet) (now : Z) (networkid : Z)
    (blockchainid : Buffer) (fromAddresses changeAddresses : list Buffer)
    (nodeID : Buffer) (startTime endTime weight : Z)
    (fee : option Z) (feeAssetID : option Buffer) (memo : option Buffer) (asOf : Z)
  : Result (option UnsignedTx) :=
  if bad_stake_window now startTime endTime then
    Throw (MkError "UTXOSet.buildAddSubnetValidatorTx -- startTime must be in the future and endTime must come after startTime")
  else
    (* Not implemented: Fees can be paid from importIns *)
    do '(ins, outs) <-
      fee_only_selection set fromAddresses fromAddresses changeAddresses fee feeAssetID asOf;
    let UTx :=
      Tx_AddSubnetValidatorTx (MkBaseTx networkid blockchainid outs ins memo)
        nodeID startTime endTime weight in
    Ok (Some (MkUnsignedTx UTx)).

(** The selection of the stake and the fee, in [buildAddDelegatorTx] and
    [buildAddValidatorTx]; [feeAssetID.toString("hex")] throws when
    [feeAssetID] is [undefined]. *)
Definition stake_selection (set : UTXOSet) (avaxAssetID : Buffer)
    (fromAddresses changeAddresses : list Buffer) (stakeAmount : Z)
    (fee : option Z) (feeAssetID : option Buffer) (asOf : Z)
  : Result (list TransferableInput * list TransferableOutput * list TransferableOutput) :=
  match feeAssetID with
  | None => Throw (MkError "TypeError: Cannot read property 'toString' of undefined")
  | Some feeAssetID =>
      let aad := transfer_aad fromAddresses fromAddresses changeAddresses
                   avaxAssetID stakeAmount fee feeAssetID in
      do '(aad, success) <- getMinimumSpendable set aad asOf 0 1;
      match success with
      | None => Ok (getInputs aad, getChangeOutputs aad, getOutputs aad)
      | Some e => Throw e
      end
  end.

(** [buildAddDelegatorTx] *)
Definition buildAddDelegatorTx (set : UTXOSet) (now : Z) (networkid : Z)
    (blockchainid avaxAssetID : Buffer) (fromAddresses changeAddresses : list Buffer)
    (nodeID : Buffer) (startTime endTime stakeAmount : Z) (rewardAddress : Buffer)
    (fee : option Z) (feeAssetID : option Buffer) (memo : option Buffer) (asOf : Z)
  : Result (option UnsignedTx) :=
  if bad_stake_window now startTime endTime then
    Throw (MkError "UTXOSet.buildAddDelegatorTx -- startTime must be in the future and endTime must come after startTime")
  else
    do '(ins, outs, stakeOuts) <-
      stake_selection set avaxAssetID fromAddresses changeAddresses stakeAmount
        fee feeAssetID asOf;
    let UTx :=
      Tx_AddDelegatorTx (MkBaseTx networkid blockchainid outs ins memo)
        nodeID startTime endTime stakeAmount stakeOuts rewardAddress in
    Ok (Some (MkUnsignedTx UTx)).

(** [buildAddValidatorTx]; [delegationFee] is a JavaScript number, and the
    message of the second guard ends in the digits of [MINSTAKE]. *)
Definition buildAddValidatorTx (set : UTXOSet) (now : Z) (networkid : Z)
    (blockchainid avaxAssetID : Buffer) (fromAddresses changeAddresses : list Buffer)
    (nodeID : Buffer) (startTime endTime stakeAmount : Z) (rewardAddress : Buffer)
    (delegationFee : JSNumber)
    (fee : option Z) (feeAssetID : option Buffer) (memo : option Buffer) (asOf : Z)
  : Result (option UnsignedTx) :=
  if bad_stake_window now startTime endTime then
    Throw (MkError "UTXOSet.buildAddValidatorTx -- startTime must be in the future and endTime must come after startTime")
  else if stakeAmount <? MINSTAKE then
    Throw (MkError (String.append
                      "UTXOSet.buildAddValidatorTx -- stake amount must be at least "
                      (BN_toString MINSTAKE)))
  else if JS_gt delegationFee 100 || JS_lt delegationFee 0 then
    Throw (MkError "UTXOSet.buildAddValidatorTx -- startTime must be in the range of 0 to 100, inclusively")
  else
    do '(ins, outs, stakeOuts) <-
      stake_selection set avaxAssetID fromAddresses changeAddresses stakeAmount
        fee feeAssetID asOf;
    let UTx :=
      Tx_AddValidatorTx (MkBaseTx networkid blockchainid outs ins memo)
        nodeID startTime endTime stakeAmount stakeOuts rewardAddress delegationFee in
    Ok (Some (MkUnsignedTx UTx)).
End Builders.

(** ** The API facades ([avm/api.ts], [platformvm/api.ts]) *)

(** The two classes extend [JRPCAPI] and declare the same state: the network
    id and the prefix of [this.core], the blockchain id, and the two values
    cached on first use. *)
Record API := MkAPI {
  api_networkID : Z;          (* [this.core.getNetworkID()] *)
  api_hrp : string;           (* [this.core.getHRP()] *)
  api_blockchainID : string;
  api_AVAXAssetID : option Buffer;
  api_fee : option Z
}.

Inductive VM := AVMAPI | PlatformVMAPI.

Definition VM_name (vm : VM) : string :=
  match vm with AVMAPI => "AVMAPI" | PlatformVMAPI => "PlatformVMAPI" end.

(** What the node answers to the calls the facades make. *)
Record Node := MkNode {
  (** [platform.getStakingAssetID]: [result.assetID] *)
  node_getStakingAssetID : Result string;
  (** [avm.getAssetDescription]: [result.assetID] *)
  node_getAssetDescription : string -> Result string;
  (** [platform.getUTXOs] and [avm.getUTXOs]: the UTXOs of the answer, parsed *)
  node_getUTXOs : VM -> list string -> Result (list UTXO)
}.

(** A memo is a [PayloadBase], of which [getPayload()] is kept, or a buffer. *)
Inductive Memo :=
| Memo_PayloadBase (getPayload : Buffer)
| Memo_Buffer (b : Buffer).

(** [if (memo instanceof PayloadBase) { memo = memo.getPayload(); }] *)
Definition memo_bytes (memo : option Memo) : option Buffer :=
  match memo with
  | Some (Memo_PayloadBase payload) => Some payload
  | Some (Memo_Buffer b) => Some b
  | None => None
  end.

(** A chain given as a string, as a buffer, or not at all. *)
Inductive ChainArg :=
| Chain_string (s : string)
| Chain_Buffer (b : Buffer)
| Chain_undefined.

Definition set_AVAXAssetID (api : API) (assetID : Buffer) : API :=
  {| api_networkID := api_networkID api; api_hrp := api_hrp api;
     api_blockchainID := api_blockchainID api;
     api_AVAXAssetID := Some assetID; api_fee := api_fee api |}.

(** [setFee(fee)] *)
Definition setFee (api : API) (fee : Z) : API :=
  {| api_networkID := api_networkID api; api_hrp := api_hrp api;
     api_blockchainID := api_blockchainID api;
     api_AVAXAssetID := api_AVAXAssetID api; api_fee := Some fee |}.

Section Facade.
Context {ext : Externals} {avm : AVMExternals}.

(** [getBlockchainAlias()] *)
Definition getBlockchainAlias (api : API) : option string :=
  match Defaults_network !! api_networkID api with
  | Some net =>
      match net !! api_blockchainID api with
      | Some chain => Some (cd_alias chain)
      | None => None
      end
  | None => None
  end.

Definition getBlockchainID (api : API) : string := api_blockchainID api.

(** [parseAddress(addr)]; both address lengths are 20. *)
Definition parseAddress (api : API) (addr : string) : Result (option Buffer) :=
  let alias := getBlockchainAlias api in
  let blockchainID := getBlockchainID api in
  bintools_parseAddress addr blockchainID alias 20.

(** [getDefaultFee()], the same expression in both classes. *)
Definition getDefaultFee (api : API) : Result Z :=
  match Defaults_network !! api_networkID api with
  | Some net =>
      match net !! "X" with
      | Some chain => Ok (cd_fee chain)
      | None => Throw (MkError "TypeError: Cannot read property 'fee' of undefined")
      end
  | None => Ok 0
  end.

(** [getFee()] *)
Definition getFee (api : API) : Result (API * Z) :=
  match api_fee api with
  | None => do fee <- getDefaultFee api; Ok (setFee api fee, fee)
  | Some fee => Ok (api, fee)
  end.

(** [getAVAXAssetID()] *)
Definition getAVAXAssetID (node : Node) (vm : VM) (api : API) : Result (API * Buffer) :=
  match api_AVAXAssetID api with
  | None =>
      do assetID <-
        match vm with
        | PlatformVMAPI => node_getStakingAssetID node
        | AVMAPI => node_getAssetDescription node PrimaryAssetAlias
        end;
      do bytes <- cb58Decode assetID;
      Ok (set_AVAXAssetID api bytes, bytes)
  | Some assetID => Ok (api, assetID)
  end.

(** The loop of [_cleanAddressArray(addresses, caller)]. *)
Fixpoint clean_addresses (vm : VM) (api : API) (caller chainid : string)
    (addresses : list (string + Buffer)) : Result (list string) :=
  match addresses with
  | [] => Ok []
  | inl addr :: rest =>
      do parsed <- parseAddress api addr;
      match parsed with
      | None =>
          Throw (MkError (String.append "Error - "
                   (String.append (VM_name vm)
                      (String.append "."
                         (String.append caller
                            (String.append ": Invalid address format " addr))))))
      | Some _ => do addrs <- clean_addresses vm api caller chainid rest; Ok (addr :: addrs)
      end
  | inr bytes :: rest =>
      do addrs <- clean_addresses vm api caller chainid rest;
      Ok (bintools_addressToString (api_hrp api) chainid bytes :: addrs)
  end.

(** [_cleanAddressArray(addresses, caller)]; an empty alias counts as none. *)
Definition _cleanAddressArray (vm : VM) (api : API)
    (addresses : option (list (string + Buffer))) (caller : string) : Result (list string) :=
  let chainid :=
    match getBlockchainAlias api with
    | Some alias => if String.eqb alias "" then getBlockchainID api else alias
    | None => getBlockchainID api
    end in
  match addresses with
  | Some l => clean_addresses vm api caller chainid l
  | None => Ok []
  end.

(** [this._cleanAddressArray(addresses, caller).map((a) =>
    bintools.stringToAddress(a))] *)
Definition address_buffers (vm : VM) (api : API)
    (addresses : option (list (string + Buffer))) (caller : string) : Result (list Buffer) :=
  do addrs <- _cleanAddressArray vm api addresses caller;
  mapM bintools_stringToAddress addrs.

(** [getUTXOs(addresses)], with no limit, start index or persistence. *)
Definition getUTXOs (node : Node) (vm : VM) (api : API) (addresses : list Buffer)
  : Result (list UTXO) :=
  do addrs <- _cleanAddressArray vm api (Some (map inr addresses)) "getUTXOs";
  node_getUTXOs node vm addrs.

(** [PlatformVMAPI.checkGooseEgg(utx)] *)
Definition PlatformVM_checkGooseEgg (node : Node) (api : API) (utx : option UnsignedTx)
  : Result (API * bool) :=
  do '(api, avaxAssetID) <- getAVAXAssetID node PlatformVMAPI api;
  match utx with
  | None => Throw (MkError "TypeError: Cannot read property 'getOutputTotal' of undefined")
  | Some utx =>
      let outputTotal := getOutputTotal utx avaxAssetID in
      let fee := getBurn utx avaxAssetID in
      if (fee <=? PlatformVM_ONEAVAX * 10) || (fee <=? outputTotal) then Ok (api, true)
      else Ok (api, false)
  end.

(** [AVMAPI.checkGooseEgg(utx)] *)
Definition AVM_checkGooseEgg (node : Node) (api : API) (utx : option AVM_UnsignedTx)
  : Result (API * bool) :=
  do '(api, avaxAssetID) <- getAVAXAssetID node AVMAPI api;
  match utx with
  | None => Throw (MkError "TypeError: Cannot read property 'getOutputTotal' of undefined")
  | Some utx =>
      let outputTotal := AVM_getOutputTotal utx avaxAssetID in
      let fee := AVM_getBurn utx avaxAssetID in
      if (fee <=? AVM_ONEAVAX * 10) || (fee <=? outputTotal) then Ok (api, true)
      else Ok (api, false)
  end.

(** The end of every build helper:
    [if (!await this.checkGooseEgg(builtUnsignedTx)) throw new Error("Failed
    Goose Egg Check"); return builtUnsignedTx;] *)
Definition PlatformVM_goose_egg_gate (node : Node) (api : API)
    (builtUnsignedTx : option UnsignedTx) : Result (API * option UnsignedTx) :=
  do '(api, ok) <- PlatformVM_checkGooseEgg node api builtUnsignedTx;
  if negb ok then Throw (MkError "Failed Goose Egg Check")
  else Ok (api, builtUnsignedTx).

Definition AVM_goose_egg_gate (node : Node) (api : API)
    (builtUnsignedTx : option AVM_UnsignedTx) : Result (API * option AVM_UnsignedTx) :=
  do '(api, ok) <- AVM_checkGooseEgg node api builtUnsignedTx;
  if negb ok then Throw (MkError "Failed Goose Egg Check")
  else Ok (api, builtUnsignedTx).

(** The chain argument of the import and export helpers: a string stands for
    the platform chain, whatever it says. *)
Definition resolve_chain (vm : VM) (helper : string) (chain : ChainArg) : Result Buffer :=
  match chain with
  | Chain_string _ => cb58Decode PlatformChainID
  | Chain_Buffer b => Ok b
  | Chain_undefined =>
      Throw (MkError (String.append "Error - "
               (String.append (VM_name vm)
                  (String.append "."
                     (String.append helper ": Invalid destinationChain type: undefined")))))
  end.

(** The loop of [buildImportTx] over the atomic UTXOs: one input per UTXO of
    the AVAX asset, signed for by the owners of its output. *)
Fixpoint import_inputs (atomics : list UTXO) (avaxAssetIDStr : string) (asOf : Z)
  : Result (list TransferableInput) :=
  match atomics with
  | [] => Ok []
  | utxo :: rest =>
      let assetID := u_assetid utxo in
      if String.eqb (toString_hex assetID) avaxAssetIDStr then
        match u_output utxo with
        | AmountOut output =>
            let amt := ao_amountValue output in
            let txid := u_txid utxo in
            let outputidx := u_outputidx utxo in
            let input := MkSecpInput amt [] in
            let fromAddresses := getAddresses (ao_owners output) in (* Verify correct approach *)
            let spenders := getSpenders (ao_owners output) fromAddresses asOf in
            match add_spenders output spenders input with
            | Ok input =>
                let xferin := MkTransferableInput txid outputidx assetID input in
                do importIns <- import_inputs rest avaxAssetIDStr asOf;
                Ok (xferin :: importIns)
            | Throw _ =>
                Throw (MkError "Error - UTXOSet.buildImportTx: no such address in output")
            end
        | OtherOut _ _ =>
            Throw (MkError "TypeError: output.getAmount is not a function")
        end
      else import_inputs rest avaxAssetIDStr asOf
  end.

(** [PlatformVMAPI.buildImportTx] *)
Definition PlatformVM_buildImportTx (node : Node) (api : API) (utxoset : UTXOSet)
    (ownerAddresses : list string) (sourceChain : ChainArg) (memo : option Memo) (asOf : Z)
  : Result (API * option UnsignedTx) :=
  do owners <- address_buffers PlatformVMAPI api (Some (map inl ownerAddresses)) "buildImportTx";
  do atomicUTXOs <- getUTXOs node PlatformVMAPI api owners;
  do '(api, avaxAssetID) <- getAVAXAssetID node PlatformVMAPI api;
  let avaxAssetIDStr := toString_hex avaxAssetID in
  let memo := memo_bytes memo in
  do sourceChain <- resolve_chain PlatformVMAPI "buildImportTx" sourceChain;
  let atomics := getAllUTXOs atomicUTXOs in
  do importIns <- import_inputs atomics avaxAssetIDStr asOf;
  do blockchainid <- cb58Decode (api_blockchainID api);
  do '(api, fee) <- getFee api;
  do builtUnsignedTx <-
    buildImportTx utxoset (api_networkID api) blockchainid owners importIns
      (Some sourceChain) (Some fee) (Some avaxAssetID) memo asOf;
  PlatformVM_goose_egg_gate node api builtUnsignedTx.

(** [PlatformVMAPI.buildExportTx] *)
Definition PlatformVM_buildExportTx (node : Node) (api : API) (utxoset : UTXOSet)
    (amount : Z) (toAddresses fromAddresses : list string)
    (changeAddresses : option (list string)) (destinationChain : ChainArg)
    (memo : option Memo) (asOf locktime threshold : Z)
  : Result (API * option UnsignedTx) :=
  do to <- address_buffers PlatformVMAPI api (Some (map inl toAddresses)) "buildBaseTx";
  do from <- address_buffers PlatformVMAPI api (Some (map inl fromAddresses)) "buildBaseTx";
  do change <- address_buffers PlatformVMAPI api (map inl <$> changeAddresses) "buildBaseTx";
  let memo := memo_bytes memo in
  do '(api, avaxAssetID) <- getAVAXAssetID node PlatformVMAPI api;
  do destinationChain <- resolve_chain PlatformVMAPI "buildExportTx" destinationChain;
  do blockchainid <- cb58Decode (api_blockchainID api);
  do '(api, fee) <- getFee api;
  do builtUnsignedTx <-
    buildExportTx utxoset (api_networkID api) blockchainid amount avaxAssetID to from
      (Some change) (Some destinationChain) (Some fee) (Some avaxAssetID) memo
      asOf locktime threshold;
  PlatformVM_goose_egg_gate node api builtUnsignedTx.

Definition Error_facade_window (helper : string) : Error :=
  MkError (String.append "PlatformVMAPI."
             (String.append helper
                " -- startTime must be in the future and endTime must come after startTime")).

(** [PlatformVMAPI.buildAddSubnetValidatorTx]; [now] and [now'] are what
    [UnixNow()] returns in the helper and then in the builder. *)
Definition PlatformVM_buildAddSubnetValidatorTx (node : Node) (now now' : Z) (api : API)
    (utxoset : UTXOSet) (fromAddresses changeAddresses : list string) (nodeID : string)
    (startTime endTime weight : Z) (memo : option Memo) (asOf : Z)
  : Result (API * option UnsignedTx) :=
  do from <- address_buffers PlatformVMAPI api (Some (map inl fromAddresses))
               "buildAddSubnetValidatorTx";
  do change <- address_buffers PlatformVMAPI api (Some (map inl changeAddresses))
                 "buildAddSubnetValidatorTx";
  let memo := memo_bytes memo in
  do '(api, avaxAssetID) <- getAVAXAssetID node PlatformVMAPI api;
  if bad_stake_window now startTime endTime then
    Throw (Error_facade_window "buildAddSubnetValidatorTx")
  else
    do blockchainid <- cb58Decode (api_blockchainID api);
    do nodeID <- NodeIDStringToBuffer nodeID;
    do '(api, fee) <- getFee api;
    do builtUnsignedTx <-
      buildAddSubnetValidatorTx utxoset now' (api_networkID api) blockchainid from change
        nodeID startTime endTime weight (Some fee) (Some avaxAssetID) memo asOf;
    PlatformVM_goose_egg_gate node api builtUnsignedTx.

(** [PlatformVMAPI.buildAddDelegatorTx] *)
Definition PlatformVM_buildAddDelegatorTx (node : Node) (now now' : Z) (api : API)
    (utxoset : UTXOSet) (fromAddresses changeAddresses : list string) (nodeID : string)
    (startTime endTime stakeAmount : Z) (rewardAddress : string)
    (memo : option Memo) (asOf : Z)
  : Result (API * option UnsignedTx) :=
  do from <- address_buffers PlatformVMAPI api (Some (map inl fromAddresses))
               "buildAddDelegatorTx";
  do change <- address_buffers PlatformVMAPI api (Some (map inl changeAddresses))
                 "buildAddDelegatorTx";
  let memo := memo_bytes memo in
  do '(api, avaxAssetID) <- getAVAXAssetID node PlatformVMAPI api;
  if bad_stake_window now startTime endTime then
    Throw (Error_facade_window "buildAddDelegatorTx")
  else
    do blockchainid <- cb58Decode (api_blockchainID api);
    do nodeID <- NodeIDStringToBuffer nodeID;
    do rewardAddress <- bintools_stringToAddress rewardAddress;
    do '(api, fee) <- getFee api;
    do builtUnsignedTx <-
      buildAddDelegatorTx utxoset now' (api_networkID api) blockchainid avaxAssetID from change
        nodeID startTime endTime stakeAmount rewardAddress (Some fee) (Some avaxAssetID)
        memo asOf;
    PlatformVM_goose_egg_gate node api builtUnsignedTx.

(** [PlatformVMAPI.buildAddValidatorTx] *)
Definition PlatformVM_buildAddValidatorTx (node : Node) (now now' : Z) (api : API)
    (utxoset : UTXOSet) (fromAddresses changeAddresses : list string) (nodeID : string)
    (startTime endTime stakeAmount : Z) (rewardAddress : string)
    (delegationFee : JSNumber)
    (memo : option Memo) (asOf : Z)
  : Result (API * option UnsignedTx) :=
  do from <- address_buffers PlatformVMAPI api (Some (map inl fromAddresses))
               "buildAddValidatorTx";
  do change <- address_buffers PlatformVMAPI api (Some (map inl changeAddresses))
                 "buildAddValidatorTx";
  let memo := memo_bytes memo in
  do '(api, avaxAssetID) <- getAVAXAssetID node PlatformVMAPI api;
  if bad_stake_window now startTime endTime then
    Throw (Error_facade_window "buildAddValidatorTx")
  else
    do blockchainid <- cb58Decode (api_blockchainID api);
    do nodeID <- NodeIDStringToBuffer nodeID;
    do rewardAddress <- bintools_stringToAddress rewardAddress;
    do '(api, fee) <- getFee api;
    do builtUnsignedTx <-
      buildAddValidatorTx utxoset now' (api_networkID api) blockchainid avaxAssetID from change
        nodeID startTime endTime stakeAmount rewardAddress delegationFee
        (Some fee) (Some avaxAssetID) memo asOf;
    PlatformVM_goose_egg_gate node api builtUnsignedTx.
End Facade.

Section FacadeAVM.
Context {ext : Externals} {avm : AVMExternals}.

(** [AVMAPI.buildBaseTx]; the asset is a cb58 string, a buffer, or missing. *)
Definition AVM_buildBaseTx (node : Node) (api : API) (utxoset : AVM_UTXOSet)
    (amount : Z) (assetID : option (string + Buffer))
    (toAddresses fromAddresses changeAddresses : list string)
    (memo : option Memo) (asOf locktime threshold : Z)
  : Result (API * option AVM_UnsignedTx) :=
  do to <- address_buffers AVMAPI api (Some (map inl toAddresses)) "buildBaseTx";
  do from <- address_buffers AVMAPI api (Some (map inl fromAddresses)) "buildBaseTx";
  do change <- address_buffers AVMAPI api (Some (map inl changeAddresses)) "buildBaseTx";
  do assetID <-
    match assetID with
    | Some (inl str) => do b <- cb58Decode str; Ok (Some b)
    | Some (inr b) => Ok (Some b)
    | None => Ok None
    end;
  let memo := memo_bytes memo in
  do blockchainid <- cb58Decode (api_blockchainID api);
  do '(api, fee) <- getFee api;
  do '(api, avaxAssetID) <- getAVAXAssetID node AVMAPI api;
  do builtUnsignedTx <-
    AVM_UTXOSet_buildBaseTx utxoset (api_networkID api) blockchainid amount assetID
      to from change fee avaxAssetID memo asOf locktime threshold;
  AVM_goose_egg_gate node api builtUnsignedTx.

(** [AVMAPI.buildNFTTransferTx]; [utxoid] is one id or an array of ids. *)
Definition AVM_buildNFTTransferTx (node : Node) (api : API) (utxoset : AVM_UTXOSet)
    (toAddresses fromAddresses : list string) (utxoid : string + list string)
    (memo : option Memo) (asOf locktime threshold : Z)
  : Result (API * option AVM_UnsignedTx) :=
  do to <- address_buffers AVMAPI api (Some (map inl toAddresses)) "buildNFTTransferTx";
  do from <- address_buffers AVMAPI api (Some (map inl fromAddresses)) "buildNFTTransferTx";
  let memo := memo_bytes memo in
  do '(api, avaxAssetID) <- getAVAXAssetID node AVMAPI api;
  let utxoidArray := match utxoid with inl id => [id] | inr ids => ids end in
  do blockchainid <- cb58Decode (api_blockchainID api);
  do '(api, fee) <- getFee api;
  do builtUnsignedTx <-
    AVM_UTXOSet_buildNFTTransferTx utxoset (api_networkID api) blockchainid to from
      utxoidArray fee avaxAssetID memo asOf locktime threshold;
  AVM_goose_egg_gate node api builtUnsignedTx.

(** [AVMAPI.buildImportTx] *)
Definition AVM_buildImportTx (node : Node) (api : API) (utxoset : AVM_UTXOSet)
    (ownerAddresses : list string) (sourceChain : ChainArg) (memo : option Memo) (asOf : Z)
  : Result (API * option AVM_UnsignedTx) :=
  do owners <- address_buffers AVMAPI api (Some (map inl ownerAddresses)) "buildImportTx";
  do atomicUTXOs <- getUTXOs node AVMAPI api owners;
  do '(api, avaxAssetID) <- getAVAXAssetID node AVMAPI api;
  let avaxAssetIDStr := toString_hex avaxAssetID in
  let memo := memo_bytes memo in
  do sourceChain <- resolve_chain AVMAPI "buildImportTx" sourceChain;
  let atomics := getAllUTXOs atomicUTXOs in
  do importIns <- import_inputs atomics avaxAssetIDStr asOf;
  do blockchainid <- cb58Decode (api_blockchainID api);
  do '(api, fee) <- getFee api;
  do builtUnsignedTx <-
    AVM_UTXOSet_buildImportTx utxoset (api_networkID api) blockchainid owners importIns
      (Some sourceChain) fee avaxAssetID memo asOf;
  AVM_goose_egg_gate node api builtUnsignedTx.

(** [AVMAPI.buildExportTx] *)
Definition AVM_buildExportTx (node : Node) (api : API) (utxoset : AVM_UTXOSet)
    (amount : Z) (toAddresses fromAddresses : list string)
    (changeAddresses : option (list string)) (destinationChain : ChainArg)
    (memo : option Memo) (asOf locktime threshold : Z)
  : Result (API * option AVM_UnsignedTx) :=
  do to <- address_buffers AVMAPI api (Some (map inl toAddresses)) "buildBaseTx";
  do from <- address_buffers AVMAPI api (Some (map inl fromAddresses)) "buildBaseTx";
  do change <- address_buffers AVMAPI api (map inl <$> changeAddresses) "buildBaseTx";
  let memo := memo_bytes memo in
  do '(api, avaxAssetID) <- getAVAXAssetID node AVMAPI api;
  do destinationChain <- resolve_chain AVMAPI "buildExportTx" destinationChain;
  do blockchainid <- cb58Decode (api_blockchainID api);
  do '(api, fee) <- getFee api;
  do builtUnsignedTx <-
    AVM_UTXOSet_buildExportTx utxoset (api_networkID api) blockchainid amount avaxAssetID
      to from change (Some destinationChain) fee avaxAssetID memo asOf locktime threshold;
  AVM_goose_egg_gate node api builtUnsignedTx.

(** [AVMAPI.buildCreateAssetTx] *)
Definition AVM_buildCreateAssetTx (node : Node) (api : API) (utxoset : AVM_UTXOSet)
    (fromAddresses : list (string + Buffer)) (initialStates : InitialStates)
    (name symbol : string) (denomination : Z) (memo : option Memo) (asOf : Z)
  : Result (API * option AVM_UnsignedTx) :=
  do from <- address_buffers AVMAPI api (Some fromAddresses) "buildCreateAssetTx";
  let memo := memo_bytes memo in
  if (SYMBOLMAXLEN <? String.length symbol)%nat then
    Throw (MkError (String.append
                      "Error - AVMAPI.buildCreateAssetTx: Symbols may not exceed length of "
                      (Number_toString SYMBOLMAXLEN)))
  else if (ASSETNAMELEN <? String.length name)%nat then
    Throw (MkError (String.append
                      "Error - AVMAPI.buildCreateAssetTx: Names may not exceed length of "
                      (Number_toString ASSETNAMELEN)))
  else
    do '(api, avaxAssetID) <- getAVAXAssetID node AVMAPI api;
    do blockchainid <- cb58Decode (api_blockchainID api);
    do '(api, fee) <- getFee api;
    do builtUnsignedTx <-
      AVM_UTXOSet_buildCreateAssetTx utxoset (api_networkID api) blockchainid from
        initialStates name symbol denomination fee avaxAssetID memo asOf;
    AVM_goose_egg_gate node api builtUnsignedTx.

(** [AVMAPI.buildCreateNFTAssetTx] *)
Definition AVM_buildCreateNFTAssetTx (node : Node) (api : API) (utxoset : AVM_UTXOSet)
    (fromAddresses : list (string + Buffer)) (minterSets : list MinterSet)
    (name symbol : string) (memo : option Memo) (asOf locktime : Z)
  : Result (API * option AVM_UnsignedTx) :=
  do from <- address_buffers AVMAPI api (Some fromAddresses) "buildCreateNFTAssetTx";
  let memo := memo_bytes memo in
  if (ASSETNAMELEN <? String.length name)%nat then
    Throw (MkError (String.append
                      "Error - AVMAPI.buildCreateNFTAssetTx: Names may not exceed length of "
                      (Number_toString ASSETNAMELEN)))
  else if (SYMBOLMAXLEN <? String.length symbol)%nat then
    Throw (MkError (String.append
                      "Error - AVMAPI.buildCreateNFTAssetTx: Symbols may not exceed length of "
                      (Number_toString SYMBOLMAXLEN)))
  else
    do '(api, avaxAssetID) <- getAVAXAssetID node AVMAPI api;
    do blockchainid <- cb58Decode (api_blockchainID api);
    do '(api, fee) <- getFee api;
    do builtUnsignedTx <-
      AVM_UTXOSet_buildCreateNFTAssetTx utxoset (api_networkID api) blockchainid from
        minterSets name symbol fee avaxAssetID memo asOf locktime;
    AVM_goose_egg_gate node api builtUnsignedTx.

(** [AVMAPI.buildCreateNFTMintTx] *)
Definition AVM_buildCreateNFTMintTx (node : Node) (api : API) (utxoset : AVM_UTXOSet)
    (toAddresses fromAddresses : list (string + Buffer)) (utxoid : string + list string)
    (groupID : Z) (payload memo : option Memo) (asOf locktime threshold : Z)
  : Result (API * option AVM_UnsignedTx) :=
  do to <- address_buffers AVMAPI api (Some toAddresses) "buildCreateNFTMintTx";
  do from <- address_buffers AVMAPI api (Some fromAddresses) "buildCreateNFTMintTx";
  let memo := memo_bytes memo in
  let payload := memo_bytes payload in
  let utxoid := match utxoid with inl id => [id] | inr ids => ids end in
  do '(api, avaxAssetID) <- getAVAXAssetID node AVMAPI api;
  do blockchainid <- cb58Decode (api_blockchainID api);
  do '(api, fee) <- getFee api;
  do builtUnsignedTx <-
    AVM_UTXOSet_buildCreateNFTMintTx utxoset (api_networkID api) blockchainid to from utxoid
      groupID payload fee avaxAssetID memo asOf locktime threshold;
  AVM_goose_egg_gate node api builtUnsignedTx.
End FacadeAVM.

(** ** Vocabulary of the statements about [getSpenders] *)

(** The candidates equal to one owner, in candidate order. *)
Definition matching (owner : Address) (cands : list Buffer) : list Buffer :=
  filter (fun c => c = owner) cands.

(** All matches, owner by owner. *)
Definition all_matches (owners : list Address) (cands : list Buffer) : list Buffer :=
  concat (map (fun o => matching o cands) owners).

(** ** Vocabulary of the statements about the order of outputs *)

(** The key [outputTypeID_be(4) ‖ output bytes] of a transferable output. *)
Definition output_sort_key (x : TransferableOutput) : Buffer :=
  writeUInt32BE (Output_getOutputID (to_output x)) ++ Output_toBuffer (to_output x).

(** Ascending order of a list under a key, for [Buffer.compare]. *)
Definition ascending_by {A} (key : A -> Buffer) (l : list A) : Prop :=
  StronglySorted (fun a b => Buffer_compare (key a) (key b) <= 0) l.

(** ** Vocabulary of the statements about coin selection *)

(** What a UTXO contributes to an asset when the senders can spend it as of
    [asOf]: the amount of an amount output of that asset that meets its
    threshold, and nothing otherwise. *)
Definition spendable_amount (senders : list Buffer) (asOf : Z) (asset : Buffer) (u : UTXO) : Z :=
  match u_output u with
  | AmountOut uout =>
      if bool_decide (u_assetid u = asset) && meetsThreshold (ao_owners uout) senders asOf
      then ao_amountValue uout else 0
  | OtherOut _ _ => 0
  end.

Definition spendable_total (set : UTXOSet) (senders : list Buffer) (asOf : Z) (asset : Buffer) : Z :=
  foldr (fun u acc => spendable_amount senders asOf asset u + acc) 0 set.

(** Amounts are unsigned on the wire. *)
Definition amounts_nonneg (set : UTXOSet) : Prop :=
  Forall (fun u => match u_output u with
                   | AmountOut uout => 0 <= ao_amountValue uout
                   | OtherOut _ _ => True
                   end) set.

(** What an asset still misses of its two targets exceeds [total]. *)
Definition short_of (total : Z) (am : AssetAmount) : Prop :=
  aa_spent am + aa_burned am + total < aa_amount am + aa_burn am.

(** Some target of the destination cannot be covered by what the senders can
    spend of the set. *)
Definition cannot_cover (set : UTXOSet) (aad : AssetAmountDestination) (asOf : Z) : Prop :=
  Exists (fun am => short_of (spendable_total set (aad_senders aad) asOf (aa_assetID am)) am)
         (aad_amounts aad).

(** The walk over every UTXO of the list, with no early exit. *)
Fixpoint spend_all (utxoArray : list UTXO) (asOf : Z)
    (st : AssetAmountDestination * gmap string Z)
  : Result (AssetAmountDestination * gmap string Z) :=
  match utxoArray with
  | [] => Ok st
  | u :: rest => do st' <- spend_utxo u asOf st; spend_all rest asOf st'
  end.

(** ** Vocabulary of the statements about the facades *)

(** A call of one of the build helpers of [PlatformVMAPI], with its
    arguments. *)
Inductive PlatformVM_call :=
| P_buildImportTx (utxoset : UTXOSet) (ownerAddresses : list string)
    (sourceChain : ChainArg) (memo : option Memo) (asOf : Z)
| P_buildExportTx (utxoset : UTXOSet) (amount : Z) (toAddresses fromAddresses : list string)
    (changeAddresses : option (list string)) (destinationChain : ChainArg)
    (memo : option Memo) (asOf locktime threshold : Z)
| P_buildAddSubnetValidatorTx (utxoset : UTXOSet) (fromAddresses changeAddresses : list string)
    (nodeID : string) (startTime endTime weight : Z) (memo : option Memo) (asOf : Z)
| P_buildAddDelegatorTx (utxoset : UTXOSet) (fromAddresses changeAddresses : list string)
    (nodeID : string) (startTime endTime stakeAmount : Z) (rewardAddress : string)
    (memo : option Memo) (asOf : Z)
| P_buildAddValidatorTx (utxoset : UTXOSet) (fromAddresses changeAddresses : list string)
    (nodeID : string) (startTime endTime stakeAmount : Z) (rewardAddress : string)
    (delegationFee : JSNumber) (memo : option Memo) (asOf : Z).

Section Calls.
Context {ext : Externals} {avm : AVMExternals}.

Definition PlatformVM_build (node : Node) (now now' : Z) (api : API) (call : PlatformVM_call)
  : Result (API * option UnsignedTx) :=
  match call with
  | P_buildImportTx utxoset ownerAddresses sourceChain memo asOf =>
      PlatformVM_buildImportTx node api utxoset ownerAddresses sourceChain memo asOf
  | P_buildExportTx utxoset amount toAddresses fromAddresses changeAddresses destinationChain
      memo asOf lock thr =>
      PlatformVM_buildExportTx node api utxoset amount toAddresses fromAddresses
        changeAddresses destinationChain memo asOf lock thr
  | P_buildAddSubnetValidatorTx utxoset fromAddresses changeAddresses nodeID startTime endTime
      weight memo asOf =>
      PlatformVM_buildAddSubnetValidatorTx node now now' api utxoset fromAddresses
        changeAddresses nodeID startTime endTime weight memo asOf
  | P_buildAddDelegatorTx utxoset fromAddresses changeAddresses nodeID startTime endTime
      stakeAmount rewardAddress memo asOf =>
      PlatformVM_buildAddDelegatorTx node now now' api utxoset fromAddresses changeAddresses
        nodeID startTime endTime stakeAmount rewardAddress memo asOf
  | P_buildAddValidatorTx utxoset fromAddresses changeAddresses nodeID startTime endTime
      stakeAmount rewardAddress delegationFee memo asOf =>
      PlatformVM_buildAddValidatorTx node now now' api utxoset fromAddresses changeAddresses
        nodeID startTime endTime stakeAmount rewardAddress delegationFee memo asOf
  end.

(** A call of one of the build helpers of [AVMAPI]. *)
Inductive AVM_call :=
| X_buildBaseTx (utxoset : AVM_UTXOSet) (amount : Z) (assetID : option (string + Buffer))
    (toAddresses fromAddresses changeAddresses : list string)
    (memo : option Memo) (asOf locktime threshold : Z)
| X_buildNFTTransferTx (utxoset : AVM_UTXOSet) (toAddresses fromAddresses : list string)
    (utxoid : string + list string) (memo : option Memo) (asOf locktime threshold : Z)
| X_buildImportTx (utxoset : AVM_UTXOSet) (ownerAddresses : list string)
    (sourceChain : ChainArg) (memo : option Memo) (asOf : Z)
| X_buildExportTx (utxoset : AVM_UTXOSet) (amount : Z) (toAddresses fromAddresses : list string)
    (changeAddresses : option (list string)) (destinationChain : ChainArg)
    (memo : option Memo) (asOf locktime threshold : Z)
| X_buildCreateAssetTx (utxoset : AVM_UTXOSet) (fromAddresses : list (string + Buffer))
    (initialStates : InitialStates) (name symbol : string) (denomination : Z)
    (memo : option Memo) (asOf : Z)
| X_buildCreateNFTAssetTx (utxoset : AVM_UTXOSet) (fromAddresses : list (string + Buffer))
    (minterSets : list MinterSet) (name symbol : string) (memo : option Memo)
    (asOf locktime : Z)
| X_buildCreateNFTMintTx (utxoset : AVM_UTXOSet)
    (toAddresses fromAddresses : list (string + Buffer)) (utxoid : string + list string)
    (groupID : Z) (payload memo : option Memo) (asOf locktime threshold : Z).

Definition AVM_build (node : Node) (api : API) (call : AVM_call)
  : Result (API * option AVM_UnsignedTx) :=
  match call with
  | X_buildBaseTx utxoset amount assetID toAddresses fromAddresses changeAddresses memo asOf
      lock thr =>
      AVM_buildBaseTx node api utxoset amount assetID toAddresses fromAddresses
        changeAddresses memo asOf lock thr
  | X_buildNFTTransferTx utxoset toAddresses fromAddresses utxoid memo asOf lock thr =>
      AVM_buildNFTTransferTx node api utxoset toAddresses fromAddresses utxoid memo asOf
        lock thr
  | X_buildImportTx utxoset ownerAddresses sourceChain memo asOf =>
      AVM_buildImportTx node api utxoset ownerAddresses sourceChain memo asOf
  | X_buildExportTx utxoset amount toAddresses fromAddresses changeAddresses destinationChain
      memo asOf lock thr =>
      AVM_buildExportTx node api utxoset amount toAddresses fromAddresses changeAddresses
        destinationChain memo asOf lock thr
  | X_buildCreateAssetTx utxoset fromAddresses initialStates name symbol denomination memo
      asOf =>
      AVM_buildCreateAssetTx node api utxoset fromAddresses initialStates name symbol
        denomination memo asOf
  | X_buildCreateNFTAssetTx utxoset fromAddresses minterSets name symbol memo asOf lock =>
      AVM_buildCreateNFTAssetTx node api utxoset fromAddresses minterSets name symbol memo
        asOf lock
  | X_buildCreateNFTMintTx utxoset toAddresses fromAddresses utxoid groupID payload memo asOf
      lock thr =>
      AVM_buildCreateNFTMintTx node api utxoset toAddresses fromAddresses utxoid groupID
        payload memo asOf lock thr
  end.
End Calls.

(** ** Concrete values used by the examples *)

(** Two 20-byte addresses, [ex_X] below [ex_Y] in byte order. *)
Definition ex_X : Address := replicate 20 x01.
Definition ex_Y : Address := replicate 20 x02.

(** Owners [ex_X; ex_Y], locktime 0, threshold 1. *)
Definition ex_owners_1of2 : OutputOwners :=
  {| locktime := fromBNToBuffer 0 8; threshold := writeUInt32BE 1;
     numaddrs := writeUInt32BE 2; addresses := [ex_X; ex_Y] |}.

(** Owners [ex_X; ex_Y], locktime 0, threshold 2. *)
Definition ex_owners_2of2 : OutputOwners :=
  {| locktime := fromBNToBuffer 0 8; threshold := writeUInt32BE 2;
     numaddrs := writeUInt32BE 2; addresses := [ex_X; ex_Y] |}.

(** Two amount outputs of type 7 owned by [ex_X], worth 2 and 1, of two
    different assets. *)
Definition ex_asset_1 : Buffer := replicate 32 x01.
Definition ex_asset_2 : Buffer := replicate 32 x02.

Definition ex_owner_X : OutputOwners :=
  {| locktime := fromBNToBuffer 0 8; threshold := writeUInt32BE 1;
     numaddrs := writeUInt32BE 1; addresses := [ex_X] |}.

Definition ex_out_a : TransferableOutput :=
  {| to_assetID := ex_asset_1;
     to_output := AmountOut (MkAmountOutput 7 (fromBNToBuffer 2 8) 2 ex_owner_X) |}.
Definition ex_out_b : TransferableOutput :=
  {| to_assetID := ex_asset_2;
     to_output := AmountOut (MkAmountOutput 7 (fromBNToBuffer 1 8) 1 ex_owner_X) |}.

Definition ex_export_tx : ExportTx :=
  ExportTx_new 1 (replicate 32 x00) (Some (replicate 32 x00)) [] [] None
    (Some [ex_out_b; ex_out_a]).

(** Values for the parameters, for the examples: one AVAX of 10^9 units, a
    platform chain id that decodes to 32 zero bytes, type 7 for the only
    output class, a defaults table whose two chains list different fees, and
    totals read off the transaction ("burn: inputs minus outputs per
    asset"). *)
Definition ex_sum_outputs (assetID : Buffer) (outs : list TransferableOutput) : Z :=
  foldr (fun x acc =>
           match to_output x with
           | AmountOut a =>
               if bool_decide (to_assetID x = assetID) then ao_amountValue a + acc else acc
           | OtherOut _ _ => acc
           end) 0 outs.

Definition ex_sum_inputs (assetID : Buffer) (ins : list TransferableInput) : Z :=
  foldr (fun x acc =>
           if bool_decide (ti_assetID x = assetID) then in_amount (ti_input x) + acc else acc)
        0 ins.

Definition ex_total_outs (utx : UnsignedTx) : list TransferableOutput :=
  match getTransaction utx with
  | Tx_BaseTx b | Tx_ImportTx b _ _ | Tx_AddSubnetValidatorTx b _ _ _ _ => btx_outs b
  | Tx_ExportTx e => btx_outs (etx_base e) ++ etx_exportOuts e
  | Tx_AddDelegatorTx b _ _ _ _ stakeOuts _
  | Tx_AddValidatorTx b _ _ _ _ stakeOuts _ _ => btx_outs b ++ stakeOuts
  end.

Definition ex_total_ins (utx : UnsignedTx) : list TransferableInput :=
  match getTransaction utx with
  | Tx_BaseTx b | Tx_AddSubnetValidatorTx b _ _ _ _
  | Tx_AddDelegatorTx b _ _ _ _ _ _ | Tx_AddValidatorTx b _ _ _ _ _ _ _ => btx_ins b
  | Tx_ImportTx b _ importIns => btx_ins b ++ importIns
  | Tx_ExportTx e => btx_ins (etx_base e)
  end.

Definition ex_externals : Externals :=
  {| Defaults_network :=
       {[ 12345 := {[ "X" := MkChainDefaults "2eNy1mUFdmaxXNj1eQHUe7Np4gju9sJsEtWQ4MX3ToiNKuADed" "X" 1000000;
                      "P" := MkChainDefaults "11111111111111111111111111111111LpoYY" "P" 2000000 ]} ]};
     bintools_parseAddress := fun _ _ _ _ => Ok (Some ex_X);
     bintools_addressToString := fun _ _ _ => "P-local1qyqszqgpqyqszqgpqyqszqgpqyqszqgp";
     bintools_stringToAddress := fun _ => Ok ex_X;
     NodeIDStringToBuffer := fun _ => Ok (replicate 20 x00);
     PrimaryAssetAlias := "AVAX";
     SYMBOLMAXLEN := 4;
     ASSETNAMELEN := 128;
     MINSTAKE := 2000 * 1000000000;
     PlatformVM_ONEAVAX := 1000000000;
     AVM_ONEAVAX := 1000000000;
     PlatformChainID := "11111111111111111111111111111111LpoYY";
     cb58Decode := fun _ => Ok (replicate 32 x00);
     SelectOutputClass := fun outputid amount addrs lock thr =>
       match outputid with
       | Some 7 =>
           do a <- StandardAmountOutput_new 7 amount addrs lock thr; Ok (AmountOut a)
       | _ => Throw (MkError "Error - SelectOutputClass: unknown outputid")
       end;
     getOutputTotal := fun utx assetID => ex_sum_outputs assetID (ex_total_outs utx);
     getBurn := fun utx assetID =>
       ex_sum_inputs assetID (ex_total_ins utx) - ex_sum_outputs assetID (ex_total_outs utx) |}.

(** A UTXO of 5 units of [ex_asset_1] that [ex_X] can spend, and a transfer
    of 10 units out of it. *)
Definition ex_utxo_5 : UTXO :=
  {| u_codecid := [x00; x00]; u_txid := replicate 32 x0a; u_outputidx := be_bytes 4 0;
     u_assetid := ex_asset_1;
     u_output := AmountOut (MkAmountOutput 7 (fromBNToBuffer 5 8) 5 ex_owner_X) |}.

Definition ex_set : UTXOSet := [ex_utxo_5].

Definition ex_aad : AssetAmountDestination :=
  addAssetAmount (AssetAmountDestination_new [ex_Y] [ex_X] [ex_Y]) ex_asset_1 10 0.

(** What [ExportTx.toBuffer] gives on [ex_export_tx], over an empty base part. *)
Definition ex_export_result : ExportTx * Buffer :=
  Eval vm_compute in
    match ExportTx_toBuffer (fun _ => []) ex_export_tx with
    | Ok r => r
    | Throw _ => (ex_export_tx, [])
    end.

(** Stand-ins for the classes of the AVM: a transaction is its source chain,
    its burn and its output total; every builder burns the fee it is given. *)
Record ex_AVM_tx := MkExAVMTx {
  ex_sourceChain : option Buffer;
  ex_burn : Z;
  ex_total : Z
}.

Definition ex_avm_externals : AVMExternals :=
  {| AVM_UTXOSet := unit;
     AVM_UnsignedTx := ex_AVM_tx;
     InitialStates := unit;
     MinterSet := unit;
     AVM_getOutputTotal := fun utx _ => ex_total utx;
     AVM_getBurn := fun utx _ => ex_burn utx;
     AVM_UTXOSet_buildBaseTx := fun _ _ _ amount _ _ _ _ fee _ _ _ _ _ =>
       Ok (Some (MkExAVMTx None fee amount));
     AVM_UTXOSet_buildNFTTransferTx := fun _ _ _ _ _ _ fee _ _ _ _ _ =>
       Ok (Some (MkExAVMTx None fee 0));
     AVM_UTXOSet_buildImportTx := fun _ _ _ _ _ sourceChain fee _ _ _ =>
       Ok (Some (MkExAVMTx sourceChain fee 0));
     AVM_UTXOSet_buildExportTx := fun _ _ _ amount _ _ _ _ _ fee _ _ _ _ _ =>
       Ok (Some (MkExAVMTx None fee amount));
     AVM_UTXOSet_buildCreateAssetTx := fun _ _ _ _ _ _ _ _ fee _ _ _ =>
       Ok (Some (MkExAVMTx None fee 0));
     AVM_UTXOSet_buildCreateNFTAssetTx := fun _ _ _ _ _ _ _ fee _ _ _ _ =>
       Ok (Some (MkExAVMTx None fee 0));
     AVM_UTXOSet_buildCreateNFTMintTx := fun _ _ _ _ _ _ _ _ fee _ _ _ _ _ =>
       Ok (Some (MkExAVMTx None fee 0)) |}.

(** A node with no UTXO to import, and a P-chain facade on network 12345,
    fresh, and with the fee set to zero. *)
Definition ex_node : Node :=
  {| node_getStakingAssetID := Ok "2fombhL7aGPwj3KH4bfrmJwW6PVnMobf9Y2fn9GwxiAAJyFDbe";
     node_getAssetDescription := fun _ => Ok "2fombhL7aGPwj3KH4bfrmJwW6PVnMobf9Y2fn9GwxiAAJyFDbe";
     node_getUTXOs := fun _ _ => Ok [] |}.

Definition ex_api : API :=
  {| api_networkID := 12345; api_hrp := "local";
     api_blockchainID := "11111111111111111111111111111111LpoYY";
     api_AVAXAssetID := None; api_fee := None |}.

Definition ex_api_free : API := setFee ex_api 0.

Definition ex_subnet_tx : UnsignedTx :=
  MkUnsignedTx (Tx_AddSubnetValidatorTx
                  (MkBaseTx 12345 (replicate 32 x00) [] [] None)
                  (replicate 20 x00) 2000 3000 1).

(** ** Proof automation *)

(** Follows a successful run through its [bind]s, pairs and tests. *)
Ltac run_inv H :=
  repeat (cbv zeta in H;
    match type of H with
    | bind ?m _ = Ok _ =>
        let E := fresh "E" in
        destruct m as [?|?] eqn:E; [cbn [bind] in H | discriminate H]
    | (let '(_, _) := ?p in _) = Ok _ => destruct p
    | (if ?b then _ else _) = Ok _ =>
        let E := fresh "E" in destruct b eqn:E; [try discriminate H | try discriminate H]
    end).


(** ** Parsing ([fromBuffer]) and lookups of [common/output.ts] *)

(** [buf.readUInt32BE(0)] as the [buffer] package has it: reading past the
    end of the buffer throws. *)
Definition Buffer_readUInt32BE (b : Buffer) : Result Z :=
  if (length b <? 4)%nat
  then Throw (MkError "RangeError: Trying to access beyond buffer length")
  else Ok (readUInt32BE b).

(** [NBytes.fromBuffer(buff, offset)] on a fresh [Address]: the address read
    and the offset returned. *)
Definition Address_fromBuffer_at (buff : Buffer) (offset : nat) : Result (Address * nat) :=
  if (length buff - offset <? Address_bsize)%nat
  then Throw (MkError "Error - NBytes.fromBuffer: Error: Buffer length must be at least 20 bytes.")
  else Ok (copyFrom buff offset (offset + Address_bsize), (offset + Address_bsize)%nat).

(** The loop of [OutputOwners.fromBuffer]:
    [for (i = 0; i < numaddrs; i++) { offset = addr.fromBuffer(bytes, offset);
    this.addresses.push(addr); }] *)
Fixpoint read_addresses (n : nat) (bytes : Buffer) (offset : nat)
  : Result (list Address * nat) :=
  match n with
  | O => Ok ([], offset)
  | S n' =>
      do '(addr, offset) <- Address_fromBuffer_at bytes offset;
      do '(addrs, offset) <- read_addresses n' bytes offset;
      Ok (addr :: addrs, offset)
  end.

(** [OutputOwners.fromBuffer(bytes, offset)] on a fresh object: the object
    afterwards and the offset returned. *)
Definition OutputOwners_fromBuffer (bytes : Buffer) (offset : nat)
  : Result (OutputOwners * nat) :=
  let lock := copyFrom bytes offset (offset + 8) in
  let offset := (offset + 8)%nat in
  let thr := copyFrom bytes offset (offset + 4) in
  let offset := (offset + 4)%nat in
  let num := copyFrom bytes offset (offset + 4) in
  let offset := (offset + 4)%nat in
  do n <- Buffer_readUInt32BE num;
  do '(addrs, offset) <- read_addresses (Z.to_nat n) bytes offset;
  Ok ({| locktime := lock; threshold := thr; numaddrs := num;
         addresses := Array_sort Address_comparator addrs |}, offset).

(** [StandardAmountOutput.fromBuffer(outbuff, offset)] on a fresh output of
    the subclass whose [getOutputID()] is [id]. *)
Definition StandardAmountOutput_fromBuffer (id : Z) (outbuff : Buffer) (offset : nat)
  : Result (StandardAmountOutput * nat) :=
  let amount := copyFrom outbuff offset (offset + 8) in
  let amountValue := fromBufferToBN amount in
  let offset := (offset + 8)%nat in
  do '(o, offset) <- OutputOwners_fromBuffer outbuff offset;
  Ok ({| ao_outputID := id; ao_amount := amount; ao_amountValue := amountValue;
         ao_owners := o |}, offset).

(** [getAddress(idx)] for an integer [idx]: a negative index passes the test
    and reads [undefined] out of the array. *)
Definition getAddress (o : OutputOwners) (idx : Z) : Result Buffer :=
  if idx <? Z.of_nat (length (addresses o)) then
    match (if idx <? 0 then None else addresses o !! Z.to_nat idx) with
    | Some a => Ok a
    | None => Throw (MkError "TypeError: Cannot read property 'toBuffer' of undefined")
    end
  else Throw (MkError "Error - Output.getAddress: idx out of range").

(** ** [UTXO.fromBuffer] ([platformvm/utxos.ts]) *)

(** Modelled from the spec: [SelectOutputClass(outputid)] with no further
    argument ([platformvm/outputs.ts] is not part of the sources), one of the
    "dispatchers" "keyed by the tag": an empty output of the class of that id,
    which is then filled in by its [fromBuffer]. The amount output of the
    P-chain has the id [secp_id] ([PlatformVMConstants.SECPXFEROUTPUTID]); an
    unknown id throws, as in [SelectInputClass] of [platformvm/inputs.ts]. *)
Definition SelectOutputClass_fromBuffer (secp_id : Z) (outputid : Z)
    (bytes : Buffer) (offset : nat) : Result (Output * nat) :=
  if outputid =? secp_id then
    do '(a, offset) <- StandardAmountOutput_fromBuffer outputid bytes offset;
    Ok (AmountOut a, offset)
  else Throw (MkError "Error - SelectOutputClass: unknown outputid").

(** [UTXO.fromBuffer(bytes, offset)] *)
Definition UTXO_fromBuffer (secp_id : Z) (bytes : Buffer) (offset : nat)
  : Result (UTXO * nat) :=
  let codecid := copyFrom bytes offset (offset + 2) in
  let offset := (offset + 2)%nat in
  let txid := copyFrom bytes offset (offset + 32) in
  let offset := (offset + 32)%nat in
  let outputidx := copyFrom bytes offset (offset + 4) in
  let offset := (offset + 4)%nat in
  let assetid := copyFrom bytes offset (offset + 32) in
  let offset := (offset + 32)%nat in
  do outputid <- Buffer_readUInt32BE (copyFrom bytes offset (offset + 4));
  let offset := (offset + 4)%nat in
  do '(output, offset) <- SelectOutputClass_fromBuffer secp_id outputid bytes offset;
  Ok ({| u_codecid := codecid; u_txid := txid; u_outputidx := outputidx;
         u_assetid := assetid; u_output := output |}, offset).

(** ** Vocabulary of the statements about the byte form *)

(** The fields of an owner set have the widths of the wire format, and the
    number of addresses fits its 4-byte count. *)
Definition OutputOwners_wf (o : OutputOwners) : Prop :=
  length (locktime o) = 8%nat /\ length (threshold o) = 4%nat /\
  Forall (fun a => length a = Address_bsize) (addresses o) /\
  Z.of_nat (length (addresses o)) < 2 ^ 32.

(** An amount output whose amount is held in 8 bytes, with its value. *)
Definition StandardAmountOutput_wf (a : StandardAmountOutput) : Prop :=
  length (ao_amount a) = 8%nat /\ ao_amountValue a = fromBufferToBN (ao_amount a) /\
  OutputOwners_wf (ao_owners a).

(** Ascending byte order of addresses, as [Address.comparator()] has it. *)
Definition addresses_ascending (l : list Address) : Prop :=
  StronglySorted (fun a b => Address_comparator a b <= 0) l.

(** ** Vocabulary of the statements about a selection *)

(** The input that the walk of [getMinimumSpendable] makes of the UTXO [u]
    for the senders: same transaction id, output index and asset, the amount
    of the output, and one signature index per spender, each the position of
    that spender among the owners of the output. *)
Definition input_of (senders : list Buffer) (asOf : Z) (u : UTXO) (i : TransferableInput)
  : Prop :=
  exists uout,
    u_output u = AmountOut uout /\
    ti_txid i = u_txid u /\ ti_outputidx i = u_outputidx u /\
    ti_assetID i = u_assetid u /\
    in_amount (ti_input i) = ao_amountValue uout /\
    map snd (in_sigIdxs (ti_input i)) = getSpenders (ao_owners uout) senders asOf /\
    Forall (fun p => 0 <= fst p /\
                     addresses (ao_owners uout) !! Z.to_nat (fst p) = Some (snd p) /\
                     snd p ∈ senders)
           (in_sigIdxs (ti_input i)).

(** A UTXO the walk may take: an amount output of an asset of the
    destination, whose threshold the senders meet as of [asOf]. *)
Definition selectable (aad : AssetAmountDestination) (asOf : Z) (u : UTXO) : Prop :=
  exists uout,
    u_output u = AmountOut uout /\
    (exists am, am ∈ aad_amounts aad /\ aa_assetID am = u_assetid u) /\
    meetsThreshold (ao_owners uout) (aad_senders aad) asOf = true.

(** What a selection is asked for, per asset: the asset, the amount and the
    burn. *)
Definition targets (am : AssetAmount) : Buffer * Z * Z :=
  (aa_assetID am, aa_amount am, aa_burn am).

(** What a selection leaves as it was: the addresses and the targets. *)
Definition same_frame (aad aad' : AssetAmountDestination) : Prop :=
  aad_senders aad' = aad_senders aad /\ aad_destinations aad' = aad_destinations aad /\
  aad_changeAddresses aad' = aad_changeAddresses aad /\
  map targets (aad_amounts aad') = map targets (aad_amounts aad).

(** The output the second loop of [getMinimumSpendable] makes for an amount
    of an asset, through [SelectOutputClass]. *)
Definition output_for `{Externals} (assetID : Buffer) (amount : Z) (addrs : list Buffer)
    (lock thr : option Z) (x : TransferableOutput) : Prop :=
  to_assetID x = assetID /\
  exists outputid, SelectOutputClass outputid amount addrs lock thr = Ok (to_output x).

(** What a builder pays out: one output of the whole amount to the
    destination addresses when the amount is positive, and none otherwise. *)
Definition payment `{Externals} (assetID : Buffer) (amount : Z) (addrs : list Buffer)
    (lock thr : Z) (pay : list TransferableOutput) : Prop :=
  if amount >? 0 then
    exists x, pay = [x] /\ output_for assetID amount addrs (Some lock) (Some thr) x
  else pay = [].

(** Change outputs: each of the asset or of the fee asset, of a positive
    amount, to the change addresses, with the default locktime and
    threshold. *)
Definition change_outputs `{Externals} (assetID feeAssetID : Buffer) (addrs : list Buffer)
    (chg : list TransferableOutput) : Prop :=
  Forall (fun x => (to_assetID x = assetID \/ to_assetID x = feeAssetID) /\
                   exists c, 0 < c /\ output_for (to_assetID x) c addrs None None x) chg.

(** Inputs taken from a set, in whatever order the transaction keeps them:
    there are as many UTXOs of the set, none taken twice ([us] is contained
    in the set as a multiset), one per input and listed in the order of the
    inputs, each UTXO of one of the two assets and either past its locktime
    or of threshold 0. The property does not depend on the order of the
    inputs. *)
Definition inputs_from (set : UTXOSet) (senders : list Buffer) (asOf : Z)
    (assetID feeAssetID : Buffer) (ins : list TransferableInput) : Prop :=
  exists us,
    us ⊆+ getAllUTXOs set /\
    Forall2 (input_of senders asOf) us ins /\
    Forall (fun u => (u_assetid u = assetID \/ u_assetid u = feeAssetID) /\
                     forall uout, u_output u = AmountOut uout ->
                       meetsThreshold (ao_owners uout) senders asOf = true /\
                       (getThreshold (ao_owners uout) = 0 \/
                        getLocktime (ao_owners uout) < asOf)) us.

(** ** Vocabulary of the statements about the state of a facade *)

(** A facade after some calls: the network, the prefix and the blockchain id
    are the same, and what was cached still is. *)
Definition api_le (api api' : API) : Prop :=
  api_networkID api' = api_networkID api /\ api_hrp api' = api_hrp api /\
  api_blockchainID api' = api_blockchainID api /\
  (forall a, api_AVAXAssetID api = Some a -> api_AVAXAssetID api' = Some a) /\
  (forall f, api_fee api = Some f -> api_fee api' = Some f).

(** ** More concrete values used by the examples *)

(** Owners [ex_Y; ex_X] before any sort, and a third address. *)
Definition ex_Z : Address := replicate 20 x03.

Definition ex_owners_unsorted : OutputOwners :=
  {| locktime := fromBNToBuffer 5 8; threshold := writeUInt32BE 2;
     numaddrs := writeUInt32BE 0; addresses := [ex_Y; ex_X] |}.

Definition ex_amount_out : StandardAmountOutput :=
  MkAmountOutput 7 (fromBNToBuffer 5 8) 5 ex_owners_1of2.

(** The bytes of a UTXO as the tests of the P-chain API lay them out:
    [Buffer.concat([codecid, txid, outputidx, xferout.toBuffer()])]. *)
Definition UTXO_bytes (codecid txid outputidx : Buffer) (xferout : TransferableOutput) : Buffer :=
  Buffer_concat [codecid; txid; outputidx; TransferableOutput_toBuffer xferout].

(** A UTXO of [ex_asset_1] locked until time 5, with threshold 1. *)
Definition ex_utxo_locked : UTXO :=
  {| u_codecid := [x00; x00]; u_txid := replicate 32 x0b; u_outputidx := be_bytes 4 0;
     u_assetid := ex_asset_1;
     u_output := AmountOut (MkAmountOutput 7 (fromBNToBuffer 3 8) 3
                   {| locktime := fromBNToBuffer 5 8; threshold := writeUInt32BE 1;
                      numaddrs := writeUInt32BE 1; addresses := [ex_X] |}) |}.

(** A set with a locked UTXO in front of a spendable one, and what selecting
    4 units of [ex_asset_1] for [ex_X] out of it gives. *)
Definition ex_set_locked : UTXOSet := [ex_utxo_locked; ex_utxo_5].

Definition ex_aad_4 : AssetAmountDestination :=
  addAssetAmount (AssetAmountDestination_new [ex_Y] [ex_X] [ex_X]) ex_asset_1 4 0.

Definition ex_selection : AssetAmountDestination * option Error :=
  Eval vm_compute in
    match @getMinimumSpendable ex_externals ex_set_locked ex_aad_4 1 0 1 with
    | Ok r => r
    | Throw _ => (ex_aad_4, None)
    end.

(** An export of 4 units out of [ex_set_locked] with a fee of 1, as built. *)
Definition ex_built_export : UnsignedTx :=
  Eval vm_compute in
    match @buildExportTx ex_externals ex_set_locked 12345 (replicate 32 x00) 4 ex_asset_1
            [ex_Y] [ex_X] (Some [ex_X]) (Some (replicate 32 x00)) (Some 1) None None 1 0 1 with
    | Ok (Some utx) => utx
    | _ => ex_subnet_tx
    end.

(** A transfer of 3 units of [ex_asset_1] out of [ex_set_locked], the fee of
    1 in the same asset, as built. *)
Definition ex_built_base : UnsignedTx :=
  Eval vm_compute in
    match @buildBaseTx ex_externals ex_set_locked 12345 (replicate 32 x00) 3 ex_asset_1
            [ex_Y] [ex_X] None (Some 1) None None 1 0 1 with
    | Ok (Some utx) => utx
    | _ => ex_subnet_tx
    end.

(** A UTXO of 3000 AVAX that [ex_X] can spend, and the validator and the
    delegator transactions that stake 2000 AVAX of it from time 2000 to 3000,
    built at time 1000. *)
Definition ex_utxo_stake : UTXO :=
  {| u_codecid := [x00; x00]; u_txid := replicate 32 x0c; u_outputidx := be_bytes 4 0;
     u_assetid := ex_asset_1;
     u_output := AmountOut (MkAmountOutput 7 (fromBNToBuffer (3000 * 1000000000) 8)
                              (3000 * 1000000000) ex_owner_X) |}.

Definition ex_built_validator : option UnsignedTx :=
  Eval vm_compute in
    match @buildAddValidatorTx ex_externals [ex_utxo_stake] 1000 12345 (replicate 32 x00)
            ex_asset_1 [ex_X] [ex_X] (replicate 20 x00) 2000 3000 (2000 * 1000000000) ex_X (JS_finite 2)
            (Some 1) (Some ex_asset_1) None 1000 with
    | Ok r => r
    | Throw _ => None
    end.

Definition ex_built_delegator : option UnsignedTx :=
  Eval vm_compute in
    match @buildAddDelegatorTx ex_externals [ex_utxo_stake] 1000 12345 (replicate 32 x00)
            ex_asset_1 [ex_X] [ex_X] (replicate 20 x00) 2000 3000 (2000 * 1000000000) ex_X
            (Some 1) (Some ex_asset_1) None 1000 with
    | Ok r => r
    | Throw _ => None
    end.

(** The validator of [ex_built_validator] with a delegation fee that is
    [NaN], and a delegator that stakes nothing. *)
Definition ex_built_validator_NaN : option UnsignedTx :=
  Eval vm_compute in
    match @buildAddValidatorTx ex_externals [ex_utxo_stake] 1000 12345 (replicate 32 x00)
            ex_asset_1 [ex_X] [ex_X] (replicate 20 x00) 2000 3000 (2000 * 1000000000) ex_X
            JS_NaN (Some 1) (Some ex_asset_1) None 1000 with
    | Ok r => r
    | Throw _ => None
    end.

Definition ex_built_delegator_0 : option UnsignedTx :=
  Eval vm_compute in
    match @buildAddDelegatorTx ex_externals [ex_utxo_stake] 1000 12345 (replicate 32 x00)
            ex_asset_1 [ex_X] [ex_X] (replicate 20 x00) 2000 3000 0 ex_X
            (Some 1) (Some ex_asset_1) None 1000 with
    | Ok r => r
    | Throw _ => None
    end.

(** An import that pays a fee of 1 out of [ex_set_locked]. *)
Definition ex_built_import : option UnsignedTx :=
  Eval vm_compute in
    match @buildImportTx ex_externals ex_set_locked 12345 (replicate 32 x00) [ex_X] []
            (Some (replicate 32 x00)) (Some 1) (Some ex_asset_1) None 1 with
    | Ok r => r
    | Throw _ => None
    end.

(** A call of the import helper of the P-chain on [ex_api_free], and what it
    returns. *)
Definition ex_P_import_call : PlatformVM_call :=
  P_buildImportTx [] ["P-local1qyqszqgpqyqszqgpqyqszqgpqyqszqgp"] (Chain_string "X") None 1.

Definition ex_P_import_result : API * option UnsignedTx :=
  Eval vm_compute in
    match @PlatformVM_build ex_externals ex_node 1000 1000 ex_api_free ex_P_import_call with
    | Ok r => r
    | Throw _ => (ex_api_free, None)
    end.

(** A call of the base helper of the X-chain on [ex_api], and what it
    returns. *)
Definition ex_X_base_call : @AVM_call ex_avm_externals :=
  @X_buildBaseTx ex_avm_externals tt 5 None ["X-local1qyqszqgpqyqszqgpqyqszqgpqyqszqgp"]
    ["X-local1qyqszqgpqyqszqgpqyqszqgpqyqszqgp"] [] None 1 0 1.

Definition ex_X_base_result : API * option ex_AVM_tx :=
  Eval vm_compute in
    match @AVM_build ex_externals ex_avm_externals ex_node ex_api ex_X_base_call with
    | Ok r => r
    | Throw _ => (ex_api, None)
    end.

(** An export of 4 units through a facade of the P-chain whose AVAX asset
    is [ex_asset_1], with no change address given, and what it returns. *)
Definition ex_api_asset_1 : API := set_AVAXAssetID ex_api_free ex_asset_1.

Definition ex_P_export_result : API * option UnsignedTx :=
  Eval vm_compute in
    match @PlatformVM_buildExportTx ex_externals ex_node ex_api_asset_1 ex_set_locked 4
            ["P-local1qyqszqgpqyqszqgpqyqszqgpqyqszqgp"]
            ["P-local1qyqszqgpqyqszqgpqyqszqgpqyqszqgp"] None
            (Chain_Buffer (replicate 32 x00)) None 1 0 1 with
    | Ok r => r
    | Throw _ => (ex_api_asset_1, None)
    end.

(** The parameters of the examples, with a [parseAddress] that knows no
    address but those of the local network. *)
Definition ex_externals_strict : Externals :=
  {| MINSTAKE := @MINSTAKE ex_externals;
     PlatformVM_ONEAVAX := @PlatformVM_ONEAVAX ex_externals;
     AVM_ONEAVAX := @AVM_ONEAVAX ex_externals;
     PlatformChainID := @PlatformChainID ex_externals;
     cb58Decode := @cb58Decode ex_externals;
     SelectOutputClass := @SelectOutputClass ex_externals;
     getOutputTotal := @getOutputTotal ex_externals;
     getBurn := @getBurn ex_externals;
     Defaults_network := @Defaults_network ex_externals;
     bintools_parseAddress := fun addr _ _ _ =>
       if String.prefix "P-local1" addr then Ok (Some ex_X) else Ok None;
     bintools_addressToString := @bintools_addressToString ex_externals;
     bintools_stringToAddress := @bintools_stringToAddress ex_externals;
     NodeIDStringToBuffer := @NodeIDStringToBuffer ex_externals;
     PrimaryAssetAlias := @PrimaryAssetAlias ex_externals;
     SYMBOLMAXLEN := @SYMBOLMAXLEN ex_externals;
     ASSETNAMELEN := @ASSETNAMELEN ex_externals |}.

(** An atomic UTXO of another asset, and a set of atomic UTXOs. *)
Definition ex_utxo_other : UTXO :=
  {| u_codecid := [x00; x00]; u_txid := replicate 32 x0d; u_outputidx := be_bytes 4 0;
     u_assetid := ex_asset_2; u_output := OtherOut 11 [] |}.

Definition ex_atomics : list UTXO := [ex_utxo_locked; ex_utxo_other; ex_utxo_5].
(* ===================================================================== *)
(** * Part II: properties                                                  *)
(* ===================================================================== *)

(** ** Hexadecimal rendering is injective *)

Lemma hex_byte_inj (x y : byte) :
  hex_digit (byte_val x / 16) = hex_digit (byte_val y / 16) ->
  hex_digit (byte_val x mod 16) = hex_digit (byte_val y mod 16) ->
  x = y.
Proof.
  intros H1 H2.
  assert (Hd : forall b : byte,
    Byte.of_N (N.of_nat (
      (let h := nat_of_ascii (hex_digit (byte_val b / 16)) in
       if (h <? 58)%nat then h - 48 else h - 87) * 16 +
      (let l := nat_of_ascii (hex_digit (byte_val b mod 16)) in
       if (l <? 58)%nat then l - 48 else l - 87))%nat) = Some b).
  { intros b. destruct b; vm_compute; reflexivity. }
  pose proof (Hd x) as Hx. pose proof (Hd y) as Hy.
  rewrite H1, H2 in Hx. congruence.
Qed.

Lemma toString_hex_inj (a b : Buffer) : toString_hex a = toString_hex b -> a = b.
Proof.
  revert b. induction a as [|x a IH]; intros [|y b] H; simpl in H;
    try discriminate; [reflexivity|].
  injection H as H1 H2 H3.
  f_equal; [eapply hex_byte_inj; eassumption | apply IH, H3].
Qed.

Lemma hex_eqb_true (a b : Buffer) :
  String.eqb (toString_hex a) (toString_hex b) = true <-> a = b.
Proof.
  rewrite String.eqb_eq. split; [apply toString_hex_inj | congruence].
Qed.

(** ** Lists *)

Lemma take_take_app {A} (n : nat) (l r : list A) :
  take n (take n l ++ r) = take n (l ++ r).
Proof.
  destruct (decide (length l <= n)%nat) as [Hle|Hgt].
  - rewrite (take_ge l n) by lia. reflexivity.
  - rewrite !take_app_le by (rewrite ?length_take; lia).
    rewrite take_take. f_equal. lia.
Qed.

(** ** [getSpenders]: the two loops as one expression *)

Lemma loop_guard (q : list Buffer) (thr : Z) :
  (Z.of_nat (length q) <? thr) = bool_decide (length q < Z.to_nat thr)%nat.
Proof.
  destruct (Z.ltb_spec (Z.of_nat (length q)) thr);
    [rewrite bool_decide_eq_true_2 | rewrite bool_decide_eq_false_2]; auto; lia.
Qed.

Lemma getSpenders_inner_take thr owner cands q :
  (length q <= Z.to_nat thr)%nat ->
  getSpenders_inner thr owner cands q = take (Z.to_nat thr) (q ++ matching owner cands).
Proof.
  revert q. induction cands as [|c cands IH]; intros q Hq; simpl.
  - rewrite app_nil_r, take_ge by lia. reflexivity.
  - rewrite loop_guard. case_bool_decide as Hlt.
    + unfold matching. rewrite filter_cons.
      destruct (String.eqb (toString_hex c) (toString_hex owner)) eqn:E.
      * apply hex_eqb_true in E. subst c.
        rewrite decide_True by reflexivity.
        rewrite IH by (rewrite length_app; simpl; lia).
        rewrite <- app_assoc. reflexivity.
      * rewrite decide_False.
        -- apply IH, Hq.
        -- intros ->. rewrite String.eqb_refl in E. discriminate.
    + rewrite take_app_le, take_ge by lia. reflexivity.
Qed.

Lemma getSpenders_outer_take thr owners cands q :
  (length q <= Z.to_nat thr)%nat ->
  getSpenders_outer thr owners cands q = take (Z.to_nat thr) (q ++ all_matches owners cands).
Proof.
  revert q. induction owners as [|o owners IH]; intros q Hq; simpl.
  - rewrite app_nil_r, take_ge by lia. reflexivity.
  - rewrite loop_guard. case_bool_decide as Hlt.
    + rewrite getSpenders_inner_take by exact Hq.
      rewrite IH by (rewrite length_take; lia).
      unfold all_matches. simpl. rewrite app_assoc. apply take_take_app.
    + rewrite take_app_le, take_ge by lia. reflexivity.
Qed.

Lemma count_matching_le (a owner : Address) (cands : list Buffer) :
  (length (filter (fun c => c = a) (matching owner cands))
   <= if decide (owner = a) then length (filter (fun c => c = a) cands) else 0)%nat.
Proof.
  unfold matching. induction cands as [|c cands IH]; simpl.
  - destruct (decide (owner = a)); simpl; lia.
  - rewrite !filter_cons.
    destruct (decide (c = owner)) as [->|Hne]; destruct (decide (owner = a)) as [->|Hna];
      rewrite ?filter_cons; repeat case_decide; simplify_eq; simpl in *; lia.
Qed.

Lemma count_all_matches_le (a : Address) (owners : list Address) (cands : list Buffer) :
  NoDup owners ->
  (length (filter (fun c => c = a) (all_matches owners cands))
   <= if decide (a ∈ owners) then length (filter (fun c => c = a) cands) else 0)%nat.
Proof.
  unfold all_matches. induction 1 as [|o owners Hnotin Hnd IH]; simpl.
  - destruct (decide (a ∈ [])); lia.
  - rewrite filter_app, length_app.
    pose proof (count_matching_le a o cands) as Hm.
    destruct (decide (o = a)) as [->|Hne].
    + rewrite (decide_False (P := a ∈ owners)) in IH by exact Hnotin.
      rewrite decide_True by (apply list_elem_of_here). lia.
    + destruct (decide (a ∈ owners)) as [Hin|Hout].
      * rewrite decide_True by (apply list_elem_of_further, Hin). lia.
      * destruct (decide (a ∈ o :: owners)); lia.
Qed.

Lemma count_take_le {A} (P : A -> Prop) `{forall x, Decision (P x)} (n : nat) (l : list A) :
  (length (filter P (take n l)) <= length (filter P l))%nat.
Proof.
  rewrite <- (take_drop n l) at 2. rewrite filter_app, length_app. lia.
Qed.

(** ** Locked outputs and the threshold *)

Example OutputOwners_new_1of2 :
  OutputOwners_new [ex_Y; ex_X] (Some 0) (Some 1) = Ok ex_owners_1of2.
Proof. vm_compute. reflexivity. Qed.

(** C3. An output whose locktime has not passed ([asOf <= locktime]) has no
    spender, whatever the candidates. For owners [X; Y] with locktime 0 and
    threshold 1, [meetsThreshold [Y]] is false as of 0 and true as of 1. *)
Theorem getSpenders_locked_empty :
  (forall (o : OutputOwners) (cands : list Buffer) (asOf : Z),
      asOf <= getLocktime o -> getSpenders o cands asOf = []) /\
  (forall (o : OutputOwners) (X Y : Address),
      getLocktime o = 0 -> getThreshold o = 1 -> addresses o = [X; Y] ->
      meetsThreshold o [Y] 0 = false /\ meetsThreshold o [Y] 1 = true).
Proof.
  split.
  - intros o cands asOf Hle. unfold getSpenders.
    destruct (Z.leb_spec asOf (getLocktime o)); [reflexivity | lia].
  - intros o X Y Hl Ht Ha. unfold meetsThreshold, getSpenders.
    rewrite Hl, Ht, Ha. split; [reflexivity|].
    change (1 <=? 0) with false. cbv iota.
    rewrite getSpenders_outer_take by (simpl; lia).
    unfold all_matches, matching. simpl concat.
    rewrite !filter_cons, filter_nil, (decide_True (P := Y = Y)) by reflexivity.
    destruct (decide (Y = X)); reflexivity.
Qed.

Lemma getSpenders_locked_empty_witness :
  getSpenders ex_owners_1of2 [ex_Y] 0 = [] /\
  (meetsThreshold ex_owners_1of2 [ex_Y] 0 = false /\
   meetsThreshold ex_owners_1of2 [ex_Y] 1 = true).
Proof.
  split.
  - apply (proj1 getSpenders_locked_empty ex_owners_1of2 [ex_Y] 0).
    vm_compute. discriminate.
  - apply (proj2 getSpenders_locked_empty ex_owners_1of2 ex_X ex_Y);
      vm_compute; reflexivity.
Defined.

(** ** Duplicated candidates *)

(** C4, as stated, fails: a candidate listed twice is collected twice. With
    owners [X; Y] and threshold 2, the candidates [X; X] give the spenders
    [X; X] (and the threshold counts as met by the single address X). *)
Lemma getSpenders_duplicate_candidate :
  getLocktime ex_owners_2of2 < 1 /\
  getSpenders ex_owners_2of2 [ex_X; ex_X] 1 = [ex_X; ex_X] /\
  meetsThreshold ex_owners_2of2 [ex_X; ex_X] 1 = true.
Proof. vm_compute. repeat split; reflexivity. Qed.

(** C4 (amended). For an unlocked output, [getSpenders] returns the
    candidates that equal an owner, grouped owner by owner in owner-list
    order, cut after [threshold] entries; so no more than [threshold]
    spenders are collected, and when the owners are pairwise distinct an
    address is collected at most as often as it is listed among the
    candidates. *)
Theorem getSpenders_owner_order (o : OutputOwners) (cands : list Buffer) (asOf : Z) :
  getLocktime o < asOf ->
  getSpenders o cands asOf
    = take (Z.to_nat (getThreshold o)) (all_matches (addresses o) cands) /\
  (length (getSpenders o cands asOf) <= Z.to_nat (getThreshold o))%nat /\
  (NoDup (addresses o) ->
   forall a : Address,
     (length (filter (fun c => c = a) (getSpenders o cands asOf))
      <= length (filter (fun c => c = a) cands))%nat).
Proof.
  intros Hlt.
  assert (E : getSpenders o cands asOf
              = take (Z.to_nat (getThreshold o)) (all_matches (addresses o) cands)).
  { unfold getSpenders. destruct (Z.leb_spec asOf (getLocktime o)); [lia|].
    rewrite getSpenders_outer_take by (simpl; lia). reflexivity. }
  rewrite E. split; [reflexivity|]. split.
  - rewrite length_take. lia.
  - intros Hnd a.
    etransitivity; [apply count_take_le|].
    etransitivity; [apply count_all_matches_le, Hnd|].
    destruct (decide (a ∈ addresses o)); lia.
Qed.

Lemma getSpenders_owner_order_witness :
  getSpenders ex_owners_1of2 [ex_Y; ex_X] 1
    = take (Z.to_nat (getThreshold ex_owners_1of2))
        (all_matches (addresses ex_owners_1of2) [ex_Y; ex_X]) /\
  (length (getSpenders ex_owners_1of2 [ex_Y; ex_X] 1)
     <= Z.to_nat (getThreshold ex_owners_1of2))%nat /\
  (length (filter (fun c => c = ex_X) (getSpenders ex_owners_1of2 [ex_Y; ex_X] 1))
     <= length (filter (fun c => c = ex_X) [ex_Y; ex_X]))%nat.
Proof.
  destruct (getSpenders_owner_order ex_owners_1of2 [ex_Y; ex_X] 1) as (H1 & H2 & H3).
  - vm_compute. reflexivity.
  - split; [exact H1|]. split; [exact H2|].
    apply H3. apply (bool_decide_unpack _). vm_compute. exact I.
Defined.

(** ** [Buffer.compare] is a total preorder *)

Lemma Buffer_compare_antisym (a b : Buffer) :
  Buffer_compare b a = - Buffer_compare a b.
Proof.
  revert b. induction a as [|x a IH]; intros [|y b]; simpl; try reflexivity.
  destruct (Z.ltb_spec (byte_val x) (byte_val y)), (Z.ltb_spec (byte_val y) (byte_val x));
    try reflexivity; try lia. apply IH.
Qed.

Lemma Buffer_compare_refl (a : Buffer) : Buffer_compare a a = 0.
Proof. pose proof (Buffer_compare_antisym a a). lia. Qed.

Lemma Buffer_compare_total (a b : Buffer) :
  Buffer_compare a b <= 0 \/ Buffer_compare b a <= 0.
Proof. rewrite (Buffer_compare_antisym a b). lia. Qed.

Lemma Buffer_compare_trans (a b c : Buffer) :
  Buffer_compare a b <= 0 -> Buffer_compare b c <= 0 -> Buffer_compare a c <= 0.
Proof.
  revert b c. induction a as [|x a IH]; intros [|y b] [|z c]; simpl; try lia.
  destruct (Z.ltb_spec (byte_val x) (byte_val y)), (Z.ltb_spec (byte_val y) (byte_val x)),
    (Z.ltb_spec (byte_val y) (byte_val z)), (Z.ltb_spec (byte_val z) (byte_val y)),
    (Z.ltb_spec (byte_val x) (byte_val z)), (Z.ltb_spec (byte_val z) (byte_val x));
    try lia. apply IH.
Qed.

Lemma Buffer_compare_app (p a b : Buffer) :
  Buffer_compare (p ++ a) (p ++ b) = Buffer_compare a b.
Proof.
  induction p as [|x p IH]; simpl; [reflexivity|].
  rewrite Z.ltb_irrefl. exact IH.
Qed.

(** ** [Array.prototype.sort] sorts *)

Section SortFacts.
Context {A : Type} (cmp : A -> A -> Z).
Hypothesis cmp_total : forall a b, cmp a b <= 0 \/ cmp b a <= 0.
Hypothesis cmp_trans : forall a b c, cmp a b <= 0 -> cmp b c <= 0 -> cmp a c <= 0.

Lemma sort_insert_Permutation (x : A) (l : list A) : sort_insert cmp x l ≡ₚ x :: l.
Proof.
  induction l as [|y l IH]; simpl; [reflexivity|].
  destruct (cmp x y <=? 0); [reflexivity|].
  rewrite IH. apply Permutation_swap.
Qed.

Lemma Array_sort_Permutation (l : list A) : Array_sort cmp l ≡ₚ l.
Proof.
  induction l as [|x l IH]; simpl; [reflexivity|].
  rewrite sort_insert_Permutation, IH. reflexivity.
Qed.

Lemma sort_insert_sorted (x : A) (l : list A) :
  StronglySorted (fun a b => cmp a b <= 0) l -> StronglySorted (fun a b => cmp a b <= 0) (sort_insert cmp x l).
Proof.
  induction 1 as [|y l Hs IH Hall]; simpl.
  - repeat constructor.
  - destruct (Z.leb_spec (cmp x y) 0) as [Hle|Hgt].
    + constructor; [constructor; assumption|].
      constructor; [exact Hle|].
      eapply Forall_impl; [exact Hall|]. intros z Hz. eapply cmp_trans; eassumption.
    + constructor; [exact IH|].
      rewrite sort_insert_Permutation. constructor; [|exact Hall].
      destruct (cmp_total x y) as [H|H]; [lia | exact H].
Qed.

Lemma Array_sort_sorted (l : list A) : StronglySorted (fun a b => cmp a b <= 0) (Array_sort cmp l).
Proof.
  induction l as [|x l IH]; simpl; [constructor | apply sort_insert_sorted, IH].
Qed.

Lemma Array_sort_of_sorted (l : list A) : StronglySorted (fun a b => cmp a b <= 0) l -> Array_sort cmp l = l.
Proof.
  induction 1 as [|x l Hs IH Hall]; [reflexivity|].
  change (Array_sort cmp (x :: l)) with (sort_insert cmp x (Array_sort cmp l)).
  rewrite IH.
  destruct Hall as [|y l Hxy _]; simpl; [reflexivity|].
  destruct (Z.leb_spec (cmp x y) 0); [reflexivity | lia].
Qed.

Lemma Array_sort_idem (l : list A) : Array_sort cmp (Array_sort cmp l) = Array_sort cmp l.
Proof. apply Array_sort_of_sorted, Array_sort_sorted. Qed.
End SortFacts.

(** ** Serialising twice gives the same bytes *)

Lemma OutputOwners_toBuffer_normalize (o : OutputOwners) :
  OutputOwners_toBuffer (OutputOwners_normalize o) = OutputOwners_toBuffer o.
Proof.
  unfold OutputOwners_toBuffer, OutputOwners_normalize. simpl.
  rewrite Array_sort_idem; [reflexivity | |];
    unfold Address_comparator; intros;
    [apply Buffer_compare_total | eapply Buffer_compare_trans; eassumption].
Qed.

Lemma TransferableOutput_toBuffer_normalize (x : TransferableOutput) :
  TransferableOutput_toBuffer (TransferableOutput_normalize x) = TransferableOutput_toBuffer x.
Proof.
  destruct x as [asset [a|id bytes]]; [|reflexivity].
  unfold TransferableOutput_toBuffer, TransferableOutput_normalize; simpl.
  unfold StandardAmountOutput_toBuffer; simpl.
  rewrite OutputOwners_toBuffer_normalize. reflexivity.
Qed.

Lemma TransferableOutput_toBuffer_key (x : TransferableOutput) :
  TransferableOutput_toBuffer x = to_assetID x ++ output_sort_key x.
Proof.
  unfold TransferableOutput_toBuffer, output_sort_key, Buffer_concat. simpl.
  rewrite app_nil_r. reflexivity.
Qed.

(** The key [outputTypeID ‖ output bytes] is what [OutputOwners.comparator]
    compares, on the outputs alone. *)
Lemma Output_comparator_key (a b : TransferableOutput) :
  Output_comparator (to_output a) (to_output b)
  = Buffer_compare (output_sort_key a) (output_sort_key b).
Proof.
  unfold Output_comparator, output_sort_key, Buffer_concat. simpl.
  rewrite !app_nil_r. reflexivity.
Qed.

Lemma output_sort_key_normalize (x : TransferableOutput) :
  output_sort_key (TransferableOutput_normalize x) = output_sort_key x.
Proof.
  pose proof (TransferableOutput_toBuffer_normalize x) as H.
  rewrite !TransferableOutput_toBuffer_key in H. simpl in H.
  eapply app_inv_head, H.
Qed.

(** ** The order of the outputs of an [ExportTx] *)

Lemma ascending_by_map {A} (key : A -> Buffer) (f : A -> A) (l : list A) :
  (forall x, key (f x) = key x) -> ascending_by key l -> ascending_by key (map f l).
Proof.
  intros Hk. unfold ascending_by. induction 1 as [|x l Hs IH Hall]; simpl; constructor.
  - exact IH.
  - rewrite Forall_map. eapply Forall_impl; [exact Hall|].
    intros y Hy. simpl. rewrite !Hk. exact Hy.
Qed.

Lemma ascending_by_within {A} (key key' : A -> Buffer) (l : list A) :
  (forall a b, a ∈ l -> b ∈ l ->
     Buffer_compare (key a) (key b) <= 0 -> Buffer_compare (key' a) (key' b) <= 0) ->
  ascending_by key l -> ascending_by key' l.
Proof.
  unfold ascending_by. intros Himp Hs. induction Hs as [|x l Hs IH Hall]; constructor.
  - apply IH. intros a b Ha Hb. apply Himp; apply list_elem_of_further; assumption.
  - rewrite Forall_forall in *. intros y Hy.
    apply Himp; [apply list_elem_of_here | apply list_elem_of_further, Hy | apply Hall, Hy].
Qed.

(** C1, as stated, fails: the comparator looks at the asset id first.
    [ex_out_a] is sorted before [ex_out_b] (its asset id is smaller) although
    its key [outputTypeID ‖ output bytes] is the larger one, so the export
    outputs that [ExportTx.toBuffer] emits are not ascending in that key. *)
Lemma ExportTx_toBuffer_not_by_output_key :
  TransferableOutput_comparator ex_out_a ex_out_b = -1 /\
  Buffer_compare (output_sort_key ex_out_a) (output_sort_key ex_out_b) = 1 /\
  (exists bytes,
     ExportTx_toBuffer (fun _ => []) ex_export_tx
     = Ok ({| etx_base := etx_base ex_export_tx;
              etx_destinationChain := etx_destinationChain ex_export_tx;
              etx_numOuts := writeUInt32BE 2;
              etx_exportOuts := [ex_out_a; ex_out_b] |}, bytes)) /\
  ~ ascending_by output_sort_key [ex_out_a; ex_out_b].
Proof.
  split; [vm_compute; reflexivity|]. split; [vm_compute; reflexivity|].
  split; [eexists; vm_compute; reflexivity|].
  intros H. inversion H as [|? ? _ Hall]; subst.
  inversion Hall as [|? ? Hab _]; subst. vm_compute in Hab. apply Hab. reflexivity.
Qed.

(** C1 (amended). The export outputs that [ExportTx.toBuffer] emits are the
    outputs of the transaction, rearranged in ascending order of
    [assetID ‖ outputTypeID_be(4) ‖ output bytes], the bytes of the whole
    transferable output: the comparator compares exactly these bytes. Outputs
    of one and the same asset are therefore in ascending order of
    [outputTypeID_be(4) ‖ output bytes]. *)
Theorem ExportTx_toBuffer_sorted (super_toBuffer : BaseTx -> Buffer)
    (t t' : ExportTx) (bytes : Buffer) :
  ExportTx_toBuffer super_toBuffer t = Ok (t', bytes) ->
  (forall a b,
     TransferableOutput_comparator a b
     = Buffer_compare (to_assetID a ++ output_sort_key a) (to_assetID b ++ output_sort_key b)) /\
  etx_exportOuts t' ≡ₚ map TransferableOutput_normalize (etx_exportOuts t) /\
  ascending_by (fun x => to_assetID x ++ output_sort_key x) (etx_exportOuts t') /\
  (forall asset, Forall (fun x => to_assetID x = asset) (etx_exportOuts t) ->
     ascending_by output_sort_key (etx_exportOuts t')) /\
  (exists destinationChain,
     etx_destinationChain t = Some destinationChain /\
     bytes = super_toBuffer (etx_base t) ++ destinationChain
             ++ writeUInt32BE (Z.of_nat (length (etx_exportOuts t)))
             ++ concat (map TransferableOutput_toBuffer (etx_exportOuts t'))).
Proof.
  unfold ExportTx_toBuffer. intros H.
  destruct (etx_destinationChain t) as [dest|] eqn:Hdest; [|discriminate].
  injection H as <- <-. cbn [etx_exportOuts].
  set (sorted := Array_sort TransferableOutput_comparator (etx_exportOuts t)).
  assert (Hcmp : forall a b,
     TransferableOutput_comparator a b
     = Buffer_compare (to_assetID a ++ output_sort_key a) (to_assetID b ++ output_sort_key b)).
  { intros a b. unfold TransferableOutput_comparator.
    rewrite !TransferableOutput_toBuffer_key. reflexivity. }
  assert (Hperm : sorted ≡ₚ etx_exportOuts t) by apply Array_sort_Permutation.
  assert (Hsorted : ascending_by (fun x => to_assetID x ++ output_sort_key x)
                      (map TransferableOutput_normalize sorted)).
  { apply ascending_by_map.
    - intros x. rewrite output_sort_key_normalize. reflexivity.
    - apply (ascending_by_within TransferableOutput_toBuffer).
      + intros a b _ _. rewrite !TransferableOutput_toBuffer_key. tauto.
      + apply (Array_sort_sorted TransferableOutput_comparator).
        * intros a b. apply Buffer_compare_total.
        * intros a b c. apply Buffer_compare_trans. }
  split; [exact Hcmp|]. split; [rewrite Hperm; reflexivity|].
  split; [exact Hsorted|]. split.
  - intros asset Hall.
    eapply ascending_by_within; [|exact Hsorted].
    assert (Hall' : Forall (fun x => to_assetID x = asset)
                      (map TransferableOutput_normalize sorted)).
    { rewrite Forall_map. rewrite Hperm. exact Hall. }
    rewrite Forall_forall in Hall'.
    intros a b Ha Hb. cbv beta. rewrite (Hall' a Ha), (Hall' b Hb), Buffer_compare_app. tauto.
  - exists dest. split; [reflexivity|].
    unfold Buffer_concat. do 2 f_equal.
    unfold writeUInt32BE. cbn [be_bytes app]. do 4 f_equal.
    rewrite map_map. f_equal. apply map_ext.
    intros x. symmetry. apply TransferableOutput_toBuffer_normalize.
Qed.

(** ** The builders: guards that come before the selection *)

Section BuilderFacts.
Context {ext : Externals}.

(** C8, as stated, fails: with a zero amount and a threshold larger than the
    number of destination addresses, [buildBaseTx] throws, for the threshold
    is checked before the amount. *)
Lemma buildBaseTx_zero_amount_throws :
  @buildBaseTx ex_externals [] 1 (replicate 32 x00) 0 ex_asset_1 [] [ex_X]
    None None None None 1 0 1
  = Throw (MkError "Error - UTXOSet.buildBaseTx: threshold is greater than number of addresses").
Proof. reflexivity. Qed.

(** C8 (amended). With a zero amount, [buildExportTx] always, and
    [buildBaseTx] whenever the threshold does not exceed the number of
    destination addresses, return [undefined] and no transaction, for every
    UTXO set: the set is not consulted, no coin is selected, and the set,
    which the builders only read, stays as it is. And [buildBaseTx] with a
    threshold greater than the number of destination addresses throws its
    threshold error whatever the amount, zero or not, and whatever the set:
    the threshold is checked before the amount is looked at. *)
Theorem zero_amount_no_transaction :
  (forall (set : UTXOSet) networkid blockchainid assetID toAddresses fromAddresses
          changeAddresses fee feeAssetID memo asOf locktime threshold,
      threshold <= Z.of_nat (length toAddresses) ->
      buildBaseTx set networkid blockchainid 0 assetID toAddresses fromAddresses
        changeAddresses fee feeAssetID memo asOf locktime threshold = Ok None) /\
  (forall (set : UTXOSet) networkid blockchainid avaxAssetID toAddresses fromAddresses
          changeAddresses destinationChain fee feeAssetID memo asOf locktime threshold,
      buildExportTx set networkid blockchainid 0 avaxAssetID toAddresses fromAddresses
        changeAddresses destinationChain fee feeAssetID memo asOf locktime threshold
      = Ok None) /\
  (forall (set : UTXOSet) networkid blockchainid amount assetID toAddresses fromAddresses
          changeAddresses fee feeAssetID memo asOf locktime threshold,
      Z.of_nat (length toAddresses) < threshold ->
      buildBaseTx set networkid blockchainid amount assetID toAddresses fromAddresses
        changeAddresses fee feeAssetID memo asOf locktime threshold
      = Throw (MkError "Error - UTXOSet.buildBaseTx: threshold is greater than number of addresses")).
Proof.
  split; [|split]; intros; [|reflexivity|].
  - unfold buildBaseTx.
    rewrite Z.gtb_ltb, (proj2 (Z.ltb_ge _ _)) by assumption. reflexivity.
  - unfold buildBaseTx.
    rewrite Z.gtb_ltb, (proj2 (Z.ltb_lt _ _)) by assumption. reflexivity.
Qed.

(** C7, as stated, fails: with a zero amount, [buildExportTx] returns
    [undefined] although the fee asset given differs from the AVAX asset, for
    the amount is checked before the fee asset. *)
Lemma buildExportTx_zero_amount_fee_asset :
  ex_asset_2 <> ex_asset_1 /\
  @buildExportTx ex_externals [] 1 (replicate 32 x00) 0 ex_asset_1 [ex_X] [ex_X]
    None None (Some 10) (Some ex_asset_2) None 1 0 1
  = Ok None.
Proof. split; [discriminate | reflexivity]. Qed.

(** C7 (amended). For a non-zero amount, [buildExportTx] throws when a fee
    asset is given that differs from the AVAX asset; a missing fee asset
    stands for the AVAX asset; so whenever a transaction is returned, the
    fee asset is the exported (AVAX) asset. *)
Theorem buildExportTx_fee_asset
    (set : UTXOSet) networkid blockchainid amount avaxAssetID toAddresses fromAddresses
    changeAddresses destinationChain fee memo asOf locktime threshold :
  (forall feeAssetID : Buffer,
      amount <> 0 -> feeAssetID <> avaxAssetID ->
      buildExportTx set networkid blockchainid amount avaxAssetID toAddresses fromAddresses
        changeAddresses destinationChain fee (Some feeAssetID) memo asOf locktime threshold
      = Throw (MkError "Error - UTXOSet.buildExportTx: feeAssetID must match avaxAssetID")) /\
  buildExportTx set networkid blockchainid amount avaxAssetID toAddresses fromAddresses
    changeAddresses destinationChain fee None memo asOf locktime threshold
  = buildExportTx set networkid blockchainid amount avaxAssetID toAddresses fromAddresses
      changeAddresses destinationChain fee (Some avaxAssetID) memo asOf locktime threshold /\
  (forall (feeAssetID : option Buffer) (utx : UnsignedTx),
      buildExportTx set networkid blockchainid amount avaxAssetID toAddresses fromAddresses
        changeAddresses destinationChain fee feeAssetID memo asOf locktime threshold
      = Ok (Some utx) ->
      default avaxAssetID feeAssetID = avaxAssetID).
Proof.
  split; [|split].
  - intros f Hamount Hne. unfold buildExportTx.
    destruct (Z.eqb_spec amount 0); [contradiction|].
    destruct (String.eqb (toString_hex f) (toString_hex avaxAssetID)) eqn:E.
    + apply hex_eqb_true in E. contradiction.
    + reflexivity.
  - unfold buildExportTx. rewrite String.eqb_refl. reflexivity.
  - intros [f|] utx Hb; [|reflexivity]. simpl.
    unfold buildExportTx in Hb.
    destruct (amount =? 0); [discriminate|].
    destruct (String.eqb (toString_hex f) (toString_hex avaxAssetID)) eqn:E.
    + apply hex_eqb_true in E. exact E.
    + discriminate.
Qed.

(** ** The staking window *)

Lemma bad_stake_window_spec now startTime endTime :
  bad_stake_window now startTime endTime = true <-> startTime < now \/ endTime <= startTime.
Proof.
  unfold bad_stake_window. rewrite orb_true_iff, Z.ltb_lt, Z.leb_le. reflexivity.
Qed.

(** C6, as the code has it. The three staking builders throw their
    "startTime must be in the future" error when [startTime < now] or
    [endTime <= startTime]. A start time equal to [now] passes the check,
    against that message: with no fee to pay, [buildAddSubnetValidatorTx]
    then returns a transaction that starts at [now]. *)
Theorem stake_window_check (set : UTXOSet) (now networkid : Z)
    (blockchainid avaxAssetID : Buffer) (fromAddresses changeAddresses : list Buffer)
    (nodeID : Buffer) (startTime endTime amount : Z) (rewardAddress : Buffer)
    (delegationFee : JSNumber) (fee : option Z) (feeAssetID memo : option Buffer) (asOf : Z) :
  (bad_stake_window now startTime endTime = true ->
   buildAddSubnetValidatorTx set now networkid blockchainid fromAddresses changeAddresses
     nodeID startTime endTime amount fee feeAssetID memo asOf
   = Throw (MkError "UTXOSet.buildAddSubnetValidatorTx -- startTime must be in the future and endTime must come after startTime") /\
   buildAddDelegatorTx set now networkid blockchainid avaxAssetID fromAddresses
     changeAddresses nodeID startTime endTime amount rewardAddress fee feeAssetID memo asOf
   = Throw (MkError "UTXOSet.buildAddDelegatorTx -- startTime must be in the future and endTime must come after startTime") /\
   buildAddValidatorTx set now networkid blockchainid avaxAssetID fromAddresses
     changeAddresses nodeID startTime endTime amount rewardAddress delegationFee
     fee feeAssetID memo asOf
   = Throw (MkError "UTXOSet.buildAddValidatorTx -- startTime must be in the future and endTime must come after startTime")) /\
  bad_stake_window now now (now + 1) = false /\
  buildAddSubnetValidatorTx set now networkid blockchainid fromAddresses changeAddresses
    nodeID now (now + 1) amount None feeAssetID memo asOf
  = Ok (Some (MkUnsignedTx
                (Tx_AddSubnetValidatorTx (MkBaseTx networkid blockchainid [] [] memo)
                   nodeID now (now + 1) amount))).
Proof.
  assert (Hnow : bad_stake_window now now (now + 1) = false).
  { unfold bad_stake_window. rewrite Z.ltb_irrefl. simpl. apply Z.leb_gt. lia. }
  split; [|split; [exact Hnow|]].
  - intros Hbad.
    unfold buildAddSubnetValidatorTx, buildAddDelegatorTx, buildAddValidatorTx.
    rewrite Hbad. auto.
  - unfold buildAddSubnetValidatorTx. rewrite Hnow. reflexivity.
Qed.
End BuilderFacts.

(** ** Coin selection without enough funds *)

Lemma all_matches_owner (owners : list Address) (cands : list Buffer) (s : Buffer) :
  s ∈ all_matches owners cands -> s ∈ owners.
Proof.
  unfold all_matches. induction owners as [|o owners IH]; simpl.
  - intros Hs. exact Hs.
  - rewrite elem_of_app. intros [Hs|Hs].
    + unfold matching in Hs. apply list_elem_of_filter in Hs as [-> _].
      apply list_elem_of_here.
    + apply list_elem_of_further, IH, Hs.
Qed.

Lemma getSpenders_owner (o : OutputOwners) (cands : list Buffer) (asOf : Z) (s : Buffer) :
  s ∈ getSpenders o cands asOf -> s ∈ addresses o.
Proof.
  unfold getSpenders. destruct (asOf <=? getLocktime o).
  - intros Hs. inversion Hs.
  - rewrite getSpenders_outer_take by (simpl; lia). simpl.
    intros Hs. apply subseteq_take in Hs. eapply all_matches_owner, Hs.
Qed.

Lemma getAddressIdx_from_found (i : Z) (addrs : list Address) (s : Buffer) :
  s ∈ addrs -> i <= getAddressIdx_from i addrs s.
Proof.
  revert i. induction addrs as [|a addrs IH]; intros i Hs; simpl.
  - inversion Hs.
  - destruct (String.eqb (toString_hex a) (toString_hex s)) eqn:E; [lia|].
    apply elem_of_cons in Hs as [->|Hs].
    + rewrite String.eqb_refl in E. discriminate.
    + specialize (IH (i + 1) Hs). lia.
Qed.

Lemma add_spenders_Ok (uout : StandardAmountOutput) (spenders : list Buffer) (input : SecpInput) :
  Forall (fun s => s ∈ addresses (ao_owners uout)) spenders ->
  exists input', add_spenders uout spenders input = Ok input'.
Proof.
  intros Hall. revert input. induction Hall as [|s spenders Hs _ IH]; intros input; simpl.
  - eexists. reflexivity.
  - pose proof (getAddressIdx_from_found 0 _ _ Hs) as Hidx.
    unfold getAddressIdx.
    destruct (Z.eqb_spec (getAddressIdx_from 0 (addresses (ao_owners uout)) s) (-1)); [lia|].
    apply IH.
Qed.

Lemma spendAmount_bound (am : AssetAmount) (a : Z) (total : Z) :
  0 <= a -> short_of (a + total) am -> short_of total (spendAmount am a).
Proof. unfold short_of, spendAmount. simpl. lia. Qed.

Lemma short_of_mono (am : AssetAmount) (t t' : Z) :
  t' <= t -> short_of t am -> short_of t' am.
Proof. unfold short_of. lia. Qed.

Lemma short_of_unfinished (am : AssetAmount) (t : Z) :
  0 <= t -> short_of t am -> isFinished am = false.
Proof.
  unfold short_of, isFinished. intros Ht Hs.
  apply andb_false_iff. rewrite !Z.leb_gt. lia.
Qed.

Lemma spend_in_Exists (P P' : AssetAmount -> Prop) (amounts : list AssetAmount)
    (assetKey : string) (a : Z) :
  (forall am, P am -> P' am) ->
  (forall am, getAssetIDString am = assetKey -> P am -> P' (spendAmount am a)) ->
  Exists P amounts -> Exists P' (spend_in amounts assetKey a).
Proof.
  intros Hkeep Hspend. induction amounts as [|am amounts IH]; intros Hex; simpl.
  - inversion Hex.
  - destruct (String.eqb (getAssetIDString am) assetKey) eqn:E.
    + apply String.eqb_eq in E. apply Exists_cons in Hex as [Hhd|Htl].
      * apply Exists_cons_hd. auto.
      * apply Exists_cons_tl. eapply Exists_impl; [exact Htl | exact Hkeep].
    + apply Exists_cons in Hex as [Hhd|Htl].
      * apply Exists_cons_hd. auto.
      * apply Exists_cons_tl. auto.
Qed.

Lemma spendable_amount_nonneg senders asOf asset (u : UTXO) :
  match u_output u with
  | AmountOut uout => 0 <= ao_amountValue uout
  | OtherOut _ _ => True
  end ->
  0 <= spendable_amount senders asOf asset u.
Proof.
  unfold spendable_amount. destruct (u_output u) as [uout|]; [|lia].
  intros Hn. destruct (_ && _); lia.
Qed.

Lemma spendable_total_nonneg (set : UTXOSet) senders asOf asset :
  amounts_nonneg set -> 0 <= spendable_total set senders asOf asset.
Proof.
  induction 1 as [|u set Hu _ IH]; simpl; [lia|].
  pose proof (spendable_amount_nonneg senders asOf asset u Hu). lia.
Qed.

(** One step of the walk keeps some asset short of its targets. *)
Lemma spend_utxo_short (u : UTXO) (rest : list UTXO) (asOf : Z)
    (aad : AssetAmountDestination) (outids : gmap string Z) :
  amounts_nonneg (u :: rest) ->
  cannot_cover (u :: rest) aad asOf ->
  exists aad' outids',
    spend_utxo u asOf (aad, outids) = Ok (aad', outids') /\
    cannot_cover rest aad' asOf.
Proof.
  intros Hnn Hshort. unfold cannot_cover in *.
  assert (Hkeep : forall am,
    short_of (spendable_total (u :: rest) (aad_senders aad) asOf (aa_assetID am)) am ->
    short_of (spendable_total rest (aad_senders aad) asOf (aa_assetID am)) am).
  { intros am. apply short_of_mono. simpl.
    pose proof (spendable_amount_nonneg (aad_senders aad) asOf (aa_assetID am) u
                  (Forall_inv Hnn)). lia. }
  assert (Hsame : exists aad' outids',
    Ok (aad, outids) = Ok (aad', outids') /\
    Exists (fun am => short_of (spendable_total rest (aad_senders aad') asOf (aa_assetID am)) am)
           (aad_amounts aad')).
  { exists aad, outids. split; [reflexivity|]. eapply Exists_impl; [exact Hshort | exact Hkeep]. }
  unfold spend_utxo.
  destruct (u_output u) as [uout|id bytes] eqn:Hout; [|exact Hsame].
  destruct (assetExists aad (toString_hex (u_assetid u))) eqn:Hex; [|exact Hsame].
  destruct (meetsThreshold (ao_owners uout) (getSenders aad) asOf) eqn:Hmeets; [|exact Hsame].
  simpl andb. cbv iota.
  unfold assetExists in Hex. apply bool_decide_eq_true in Hex as [am0 Ham0].
  rewrite Ham0.
  destruct (isFinished am0); [exact Hsame|]. simpl negb. cbv iota.
  destruct (add_spenders_Ok uout (getSpenders (ao_owners uout) (getSenders aad) asOf)
              (MkSecpInput (ao_amountValue uout) [])) as [input' Hinput].
  { apply Forall_forall. intros s Hs. eapply getSpenders_owner, Hs. }
  rewrite Hinput. simpl bind.
  eexists _, _. split; [reflexivity|]. simpl.
  apply (spend_in_Exists
           (fun am => short_of (spendable_total (u :: rest) (aad_senders aad) asOf (aa_assetID am)) am));
    [exact Hkeep | | exact Hshort].
  intros am Hkey Hs.
  assert (Hasset : u_assetid u = aa_assetID am).
  { symmetry. apply toString_hex_inj. exact Hkey. }
  apply spendAmount_bound.
  - pose proof (Forall_inv Hnn) as Hu. cbv beta in Hu. rewrite Hout in Hu. exact Hu.
  - simpl in Hs. unfold spendable_amount at 1 in Hs. rewrite Hout in Hs.
    rewrite bool_decide_eq_true_2 in Hs by exact Hasset.
    unfold getSenders in Hmeets. rewrite Hmeets in Hs. exact Hs.
Qed.

Lemma cannot_cover_incomplete (set : UTXOSet) (aad : AssetAmountDestination) (asOf : Z) :
  amounts_nonneg set -> cannot_cover set aad asOf -> canComplete aad = false.
Proof.
  intros Hnn Hshort. unfold canComplete, cannot_cover in *.
  apply not_true_is_false. intros Hall. rewrite forallb_forall in Hall.
  apply Exists_exists in Hshort as (am & Hin & Hs).
  eapply short_of_unfinished in Hs; [|apply spendable_total_nonneg, Hnn].
  apply list_elem_of_In in Hin. apply Hall in Hin. congruence.
Qed.

(** The walk never stops early and ends with the destination incomplete. *)
Lemma spend_walk_short (set : UTXOSet) (asOf : Z)
    (aad : AssetAmountDestination) (outids : gmap string Z) :
  amounts_nonneg set ->
  cannot_cover set aad asOf ->
  exists aad' outids',
    spend_walk set asOf (aad, outids) = Ok (aad', outids') /\
    spend_all set asOf (aad, outids) = Ok (aad', outids') /\
    canComplete aad' = false.
Proof.
  revert aad outids. induction set as [|u rest IH]; intros aad outids Hnn Hshort.
  - exists aad, outids. repeat split. eapply cannot_cover_incomplete; eassumption.
  - cbn [spend_walk spend_all fst]. rewrite (cannot_cover_incomplete _ _ _ Hnn Hshort).
    destruct (spend_utxo_short u rest asOf aad outids Hnn Hshort)
      as (aad1 & outids1 & Hstep & Hshort1).
    rewrite Hstep. cbn [bind].
    apply IH; [eapply Forall_inv_tail, Hnn | exact Hshort1].
Qed.

Section SelectionFacts.
Context {ext : Externals}.

(** C5. When some target of the destination cannot be covered by the amount
    outputs of the set that the senders can spend, [getMinimumSpendable]
    walks every UTXO of the set and returns its insufficient-funds error; and
    every builder whose selection is short in this way, once past its
    argument checks, throws that error and returns no transaction. *)
Theorem getMinimumSpendable_insufficient_funds (set : UTXOSet) (asOf : Z) :
  amounts_nonneg set ->
  (forall (aad : AssetAmountDestination) (lock thr : Z),
      cannot_cover set aad asOf ->
      exists aad' outids,
        spend_all (getAllUTXOs set) asOf (aad, ∅) = Ok (aad', outids) /\
        getMinimumSpendable set aad asOf lock thr = Ok (aad', Some Error_insufficient_funds)) /\
  (forall networkid blockchainid amount assetID toAddresses fromAddresses changeAddresses
          fee feeAssetID memo lock thr,
      thr <= Z.of_nat (length toAddresses) -> amount <> 0 ->
      cannot_cover set
        (transfer_aad toAddresses fromAddresses (default toAddresses changeAddresses)
           assetID amount fee (default assetID feeAssetID)) asOf ->
      buildBaseTx set networkid blockchainid amount assetID toAddresses fromAddresses
        changeAddresses fee feeAssetID memo asOf lock thr
      = Throw Error_insufficient_funds) /\
  (forall networkid blockchainid amount avaxAssetID toAddresses fromAddresses changeAddresses
          destinationChain fee feeAssetID memo lock thr,
      amount <> 0 -> default avaxAssetID feeAssetID = avaxAssetID ->
      cannot_cover set
        (transfer_aad toAddresses fromAddresses (default toAddresses changeAddresses)
           avaxAssetID amount fee avaxAssetID) asOf ->
      buildExportTx set networkid blockchainid amount avaxAssetID toAddresses fromAddresses
        changeAddresses (Some destinationChain) fee feeAssetID memo asOf lock thr
      = Throw Error_insufficient_funds) /\
  (forall networkid blockchainid fromAddresses changeAddresses importIns destinationChain
          nodeID now startTime endTime weight fee feeAssetID memo,
      0 < fee ->
      (cannot_cover set
         (addAssetAmount
            (AssetAmountDestination_new fromAddresses fromAddresses fromAddresses)
            feeAssetID 0 fee) asOf ->
       buildImportTx set networkid blockchainid fromAddresses importIns destinationChain
         (Some fee) (Some feeAssetID) memo asOf
       = Throw Error_insufficient_funds) /\
      (bad_stake_window now startTime endTime = false ->
       cannot_cover set
         (addAssetAmount
            (AssetAmountDestination_new fromAddresses fromAddresses changeAddresses)
            feeAssetID 0 fee) asOf ->
       buildAddSubnetValidatorTx set now networkid blockchainid fromAddresses changeAddresses
         nodeID startTime endTime weight (Some fee) (Some feeAssetID) memo asOf
       = Throw Error_insufficient_funds)) /\
  (forall networkid blockchainid avaxAssetID fromAddresses changeAddresses nodeID now
          startTime endTime stakeAmount rewardAddress delegationFee fee feeAssetID memo,
      bad_stake_window now startTime endTime = false ->
      cannot_cover set
        (transfer_aad fromAddresses fromAddresses changeAddresses avaxAssetID stakeAmount
           fee feeAssetID) asOf ->
      buildAddDelegatorTx set now networkid blockchainid avaxAssetID fromAddresses
        changeAddresses nodeID startTime endTime stakeAmount rewardAddress
        fee (Some feeAssetID) memo asOf
      = Throw Error_insufficient_funds /\
      (MINSTAKE <= stakeAmount ->
       JS_gt delegationFee 100 = false -> JS_lt delegationFee 0 = false ->
       buildAddValidatorTx set now networkid blockchainid avaxAssetID fromAddresses
         changeAddresses nodeID startTime endTime stakeAmount rewardAddress delegationFee
         fee (Some feeAssetID) memo asOf
       = Throw Error_insufficient_funds)).
Proof.
  intros Hnn.
  assert (Hsel : forall (aad : AssetAmountDestination) (lock thr : Z),
      cannot_cover set aad asOf ->
      exists aad' outids,
        spend_all (getAllUTXOs set) asOf (aad, ∅) = Ok (aad', outids) /\
        getMinimumSpendable set aad asOf lock thr = Ok (aad', Some Error_insufficient_funds)).
  { intros aad lock thr Hshort.
    destruct (spend_walk_short set asOf aad ∅ Hnn Hshort) as (aad' & outids & Hw & Ha & Hc).
    exists aad', outids. split; [exact Ha|].
    unfold getMinimumSpendable, getAllUTXOs. rewrite Hw. simpl. rewrite Hc. reflexivity. }
  assert (Hfee : forall destinations senders change fee feeAssetID,
      0 < fee ->
      cannot_cover set
        (addAssetAmount (AssetAmountDestination_new destinations senders change)
           feeAssetID 0 fee) asOf ->
      fee_only_selection set destinations senders change (Some fee) (Some feeAssetID) asOf
      = Throw Error_insufficient_funds).
  { intros destinations senders change fee feeAssetID Hpos Hshort.
    unfold fee_only_selection, _feeCheck.
    rewrite Z.gtb_ltb, (proj2 (Z.ltb_lt _ _)) by exact Hpos.
    destruct (Hsel _ 0 1 Hshort) as (aad' & outids & _ & Hg). rewrite Hg. reflexivity. }
  assert (Hstake : forall avaxAssetID fromAddresses changeAddresses stakeAmount fee feeAssetID,
      cannot_cover set
        (transfer_aad fromAddresses fromAddresses changeAddresses avaxAssetID stakeAmount
           fee feeAssetID) asOf ->
      stake_selection set avaxAssetID fromAddresses changeAddresses stakeAmount
        fee (Some feeAssetID) asOf
      = Throw Error_insufficient_funds).
  { intros avaxAssetID fromAddresses changeAddresses stakeAmount fee feeAssetID Hshort.
    unfold stake_selection.
    destruct (Hsel _ 0 1 Hshort) as (aad' & outids & _ & Hg). rewrite Hg. reflexivity. }
  split; [exact Hsel|]. split; [|split; [|split]].
  - intros networkid blockchainid amount assetID toAddresses fromAddresses changeAddresses
      fee feeAssetID memo lock thr Hthr Hamount Hshort.
    unfold buildBaseTx.
    rewrite Z.gtb_ltb, (proj2 (Z.ltb_ge _ _)) by assumption.
    destruct (Z.eqb_spec amount 0); [contradiction|].
    destruct (Hsel _ lock thr Hshort) as (aad' & outids & _ & Hg). rewrite Hg. reflexivity.
  - intros networkid blockchainid amount avaxAssetID toAddresses fromAddresses changeAddresses
      destinationChain fee feeAssetID memo lock thr Hamount Hfa Hshort.
    unfold buildExportTx.
    destruct (Z.eqb_spec amount 0); [contradiction|].
    assert (Hres : match feeAssetID with
                   | None => Ok avaxAssetID
                   | Some f =>
                       if negb (String.eqb (toString_hex f) (toString_hex avaxAssetID)) then
                         Throw (MkError "Error - UTXOSet.buildExportTx: feeAssetID must match avaxAssetID")
                       else Ok f
                   end = Ok avaxAssetID).
    { destruct feeAssetID as [f|]; [|reflexivity]. simpl in Hfa. subst f.
      rewrite String.eqb_refl. reflexivity. }
    rewrite Hres. cbn [bind].
    destruct (Hsel _ lock thr Hshort) as (aad' & outids & _ & Hg). rewrite Hg. reflexivity.
  - intros networkid blockchainid fromAddresses changeAddresses importIns destinationChain
      nodeID now startTime endTime weight fee feeAssetID memo Hpos.
    split.
    + intros Hshort. unfold buildImportTx. rewrite (Hfee _ _ _ _ _ Hpos Hshort). reflexivity.
    + intros Hwin Hshort. unfold buildAddSubnetValidatorTx.
      rewrite Hwin, (Hfee _ _ _ _ _ Hpos Hshort). reflexivity.
  - intros networkid blockchainid avaxAssetID fromAddresses changeAddresses nodeID now
      startTime endTime stakeAmount rewardAddress delegationFee fee feeAssetID memo
      Hwin Hshort.
    split.
    + unfold buildAddDelegatorTx. rewrite Hwin, (Hstake _ _ _ _ _ _ Hshort). reflexivity.
    + intros Hmin H100 H0. unfold buildAddValidatorTx.
      rewrite Hwin, (proj2 (Z.ltb_ge _ _)) by exact Hmin.
      rewrite H100, H0. cbn [orb]. rewrite (Hstake _ _ _ _ _ _ Hshort). reflexivity.
Qed.
End SelectionFacts.

(** ** The facades *)

Lemma bind_Ok_inv {A B} (m : Result A) (k : A -> Result B) (b : B) :
  bind m k = Ok b -> exists a, m = Ok a /\ k a = Ok b.
Proof. destruct m as [a|e]; simpl; [eauto | discriminate]. Qed.

Section FacadeFacts.
Context {ext : Externals} {avm : AVMExternals}.

Lemma PlatformVM_goose_egg_gate_Ok (node : Node) (api api' : API) (built r : option UnsignedTx) :
  PlatformVM_goose_egg_gate node api built = Ok (api', r) ->
  r = built /\ (exists utx, built = Some utx) /\
  PlatformVM_checkGooseEgg node api built = Ok (api', true).
Proof.
  unfold PlatformVM_goose_egg_gate. intros Hg.
  destruct (PlatformVM_checkGooseEgg node api built) as [[api1 ok]|e] eqn:Hc; [|discriminate].
  cbn [bind] in Hg. destruct ok; [|discriminate]. injection Hg as <- <-.
  split; [reflexivity|]. split; [|reflexivity].
  unfold PlatformVM_checkGooseEgg in Hc.
  destruct built as [utx|]; [eauto|].
  destruct (getAVAXAssetID node PlatformVMAPI api) as [[? ?]|?]; discriminate.
Qed.

Lemma AVM_goose_egg_gate_Ok (node : Node) (api api' : API) (built r : option AVM_UnsignedTx) :
  AVM_goose_egg_gate node api built = Ok (api', r) ->
  r = built /\ (exists utx, built = Some utx) /\
  AVM_checkGooseEgg node api built = Ok (api', true).
Proof.
  unfold AVM_goose_egg_gate. intros Hg.
  destruct (AVM_checkGooseEgg node api built) as [[api1 ok]|e] eqn:Hc; [|discriminate].
  cbn [bind] in Hg. destruct ok; [|discriminate]. injection Hg as <- <-.
  split; [reflexivity|]. split; [|reflexivity].
  unfold AVM_checkGooseEgg in Hc.
  destruct built as [utx|]; [eauto|].
  destruct (getAVAXAssetID node AVMAPI api) as [[? ?]|?]; discriminate.
Qed.

Lemma goose_egg_test (fee oneavax outputTotal : Z) :
  (fee <=? oneavax * 10) || (fee <=? outputTotal)
  = bool_decide (fee <= 10 * oneavax \/ fee <= outputTotal).
Proof.
  destruct (Z.leb_spec fee (oneavax * 10)), (Z.leb_spec fee outputTotal); simpl;
    symmetry; (apply bool_decide_eq_true_2 || apply bool_decide_eq_false_2); lia.
Qed.

(** C2. [checkGooseEgg] accepts a transaction exactly when its fee, the burn
    of the AVAX asset, is at most ten [ONEAVAX] or at most the output total of
    the AVAX asset; and every build helper of the two facades ends in this
    check: a run of a helper in which the check fails raises an error, so a
    helper returns only transactions that the check accepts. *)
Theorem checkGooseEgg_gate (node : Node) :
  (forall api api' avaxAssetID utx,
      getAVAXAssetID node PlatformVMAPI api = Ok (api', avaxAssetID) ->
      PlatformVM_checkGooseEgg node api (Some utx)
      = Ok (api', bool_decide (getBurn utx avaxAssetID <= 10 * PlatformVM_ONEAVAX \/
                               getBurn utx avaxAssetID <= getOutputTotal utx avaxAssetID))) /\
  (forall api api' avaxAssetID utx,
      getAVAXAssetID node AVMAPI api = Ok (api', avaxAssetID) ->
      AVM_checkGooseEgg node api (Some utx)
      = Ok (api', bool_decide (AVM_getBurn utx avaxAssetID <= 10 * AVM_ONEAVAX \/
                               AVM_getBurn utx avaxAssetID <= AVM_getOutputTotal utx avaxAssetID))) /\
  (forall api api' built,
      PlatformVM_checkGooseEgg node api built = Ok (api', false) ->
      PlatformVM_goose_egg_gate node api built = Throw (MkError "Failed Goose Egg Check")) /\
  (forall api api' built,
      AVM_checkGooseEgg node api built = Ok (api', false) ->
      AVM_goose_egg_gate node api built = Throw (MkError "Failed Goose Egg Check")) /\
  (forall now now' api call api' built,
      PlatformVM_build node now now' api call = Ok (api', built) ->
      exists api0 utx,
        built = Some utx /\
        PlatformVM_checkGooseEgg node api0 (Some utx) = Ok (api', true)) /\
  (forall api call api' built,
      AVM_build node api call = Ok (api', built) ->
      exists api0 utx,
        built = Some utx /\
        AVM_checkGooseEgg node api0 (Some utx) = Ok (api', true)).
Proof.
  split; [|split; [|split; [|split; [|split]]]].
  - intros api api' avax utx Hid. unfold PlatformVM_checkGooseEgg.
    rewrite Hid. cbn [bind]. rewrite goose_egg_test.
    destruct (bool_decide _); reflexivity.
  - intros api api' avax utx Hid. unfold AVM_checkGooseEgg.
    rewrite Hid. cbn [bind]. rewrite goose_egg_test.
    destruct (bool_decide _); reflexivity.
  - intros api api' built Hc. unfold PlatformVM_goose_egg_gate. rewrite Hc. reflexivity.
  - intros api api' built Hc. unfold AVM_goose_egg_gate. rewrite Hc. reflexivity.
  - intros now now' api call api' built Hb.
    assert (Hgate : exists api0 b, PlatformVM_goose_egg_gate node api0 b = Ok (api', built)).
    { destruct call; cbn [PlatformVM_build] in Hb;
        [ unfold PlatformVM_buildImportTx in Hb
        | unfold PlatformVM_buildExportTx in Hb
        | unfold PlatformVM_buildAddSubnetValidatorTx in Hb
        | unfold PlatformVM_buildAddDelegatorTx in Hb
        | unfold PlatformVM_buildAddValidatorTx in Hb ];
        run_inv Hb; eauto. }
    destruct Hgate as (api0 & b & Hg).
    apply PlatformVM_goose_egg_gate_Ok in Hg as (-> & (utx & ->) & Hc). eauto.
  - intros api call api' built Hb.
    assert (Hgate : exists api0 b, AVM_goose_egg_gate node api0 b = Ok (api', built)).
    { destruct call; cbn [AVM_build] in Hb;
        [ unfold AVM_buildBaseTx in Hb
        | unfold AVM_buildNFTTransferTx in Hb
        | unfold AVM_buildImportTx in Hb
        | unfold AVM_buildExportTx in Hb
        | unfold AVM_buildCreateAssetTx in Hb
        | unfold AVM_buildCreateNFTAssetTx in Hb
        | unfold AVM_buildCreateNFTMintTx in Hb ];
        run_inv Hb; eauto. }
    destruct Hgate as (api0 & b & Hg).
    apply AVM_goose_egg_gate_Ok in Hg as (-> & (utx & ->) & Hc). eauto.
Qed.
End FacadeFacts.

Section ImportAndFeeFacts.
Context {ext : Externals} {avm : AVMExternals}.

Lemma buildImportTx_sourceChain (set : UTXOSet) networkid blockchainid fromAddresses
    importIns (src : Buffer) fee feeAssetID memo asOf (built : option UnsignedTx) :
  buildImportTx set networkid blockchainid fromAddresses importIns (Some src)
    fee feeAssetID memo asOf = Ok built ->
  exists base, built = Some (MkUnsignedTx (Tx_ImportTx base src importIns)).
Proof.
  unfold buildImportTx. intros Hb.
  destruct (fee_only_selection set fromAddresses fromAddresses fromAddresses fee feeAssetID asOf)
    as [[ins outs]|e]; [|discriminate].
  cbn [bind] in Hb. injection Hb as <-. eauto.
Qed.

(** C9. In the import helper of either facade, a source chain given as a
    string is not read: any two strings give the same run, which is the run
    with the decoded [PlatformChainID] as the source chain; the import
    transaction that the P-chain helper returns has the decoded
    [PlatformChainID] as its source chain, and so has the one the AVM helper
    returns, for any AVM builder that puts the source chain it is given into
    its transaction. *)
Theorem buildImportTx_string_sourceChain (node : Node) (api : API)
    (ownerAddresses : list string) (memo : option Memo) (asOf : Z) :
  (forall (utxoset : UTXOSet) (s s' : string),
      PlatformVM_buildImportTx node api utxoset ownerAddresses (Chain_string s) memo asOf
      = PlatformVM_buildImportTx node api utxoset ownerAddresses (Chain_string s') memo asOf) /\
  (forall (utxoset : AVM_UTXOSet) (s s' : string),
      AVM_buildImportTx node api utxoset ownerAddresses (Chain_string s) memo asOf
      = AVM_buildImportTx node api utxoset ownerAddresses (Chain_string s') memo asOf) /\
  (forall (utxoset : UTXOSet) (s : string) (platformChain : Buffer),
      cb58Decode PlatformChainID = Ok platformChain ->
      PlatformVM_buildImportTx node api utxoset ownerAddresses (Chain_string s) memo asOf
      = PlatformVM_buildImportTx node api utxoset ownerAddresses (Chain_Buffer platformChain)
          memo asOf) /\
  (forall (utxoset : AVM_UTXOSet) (s : string) (platformChain : Buffer),
      cb58Decode PlatformChainID = Ok platformChain ->
      AVM_buildImportTx node api utxoset ownerAddresses (Chain_string s) memo asOf
      = AVM_buildImportTx node api utxoset ownerAddresses (Chain_Buffer platformChain)
          memo asOf) /\
  (forall (utxoset : UTXOSet) (s : string) (api' : API) (built : option UnsignedTx),
      PlatformVM_buildImportTx node api utxoset ownerAddresses (Chain_string s) memo asOf
      = Ok (api', built) ->
      exists base importIns platformChain,
        cb58Decode PlatformChainID = Ok platformChain /\
        built = Some (MkUnsignedTx (Tx_ImportTx base platformChain importIns))) /\
  (forall sourceChainOf : AVM_UnsignedTx -> option Buffer,
      (forall set networkid blockchainid owners importIns src fee feeAssetID memo' asOf' utx,
          AVM_UTXOSet_buildImportTx set networkid blockchainid owners importIns (Some src)
            fee feeAssetID memo' asOf' = Ok (Some utx) ->
          sourceChainOf utx = Some src) ->
      forall (utxoset : AVM_UTXOSet) (s : string) (api' : API) (utx : AVM_UnsignedTx),
        AVM_buildImportTx node api utxoset ownerAddresses (Chain_string s) memo asOf
        = Ok (api', Some utx) ->
        exists platformChain,
          cb58Decode PlatformChainID = Ok platformChain /\
          sourceChainOf utx = Some platformChain).
Proof.
  split; [reflexivity|]. split; [reflexivity|]. split; [|split; [|split]].
  - intros utxoset s src Hsrc. unfold PlatformVM_buildImportTx, resolve_chain.
    rewrite Hsrc. reflexivity.
  - intros utxoset s src Hsrc. unfold AVM_buildImportTx, resolve_chain.
    rewrite Hsrc. reflexivity.
  - intros utxoset s api' built Hb. unfold PlatformVM_buildImportTx in Hb.
    run_inv Hb.
    match goal with
    | E : resolve_chain _ _ (Chain_string s) = Ok ?src |- _ => rename E into Hsrc
    end.
    match goal with
    | E : buildImportTx _ _ _ _ _ _ _ _ _ _ = Ok ?b |- _ =>
        apply buildImportTx_sourceChain in E as (base & ->)
    end.
    apply PlatformVM_goose_egg_gate_Ok in Hb as (-> & _ & _).
    eexists _, _, _. split; [exact Hsrc | reflexivity].
  - intros sourceChainOf Hbuilder utxoset s api' utx Hb. unfold AVM_buildImportTx in Hb.
    run_inv Hb.
    match goal with
    | E : resolve_chain _ _ (Chain_string s) = Ok ?src |- _ => rename E into Hsrc
    end.
    apply AVM_goose_egg_gate_Ok in Hb as (Hbuilt & _ & _). symmetry in Hbuilt. subst.
    match goal with
    | E : AVM_UTXOSet_buildImportTx _ _ _ _ _ _ _ _ _ _ = Ok _ |- _ =>
        apply Hbuilder in E
    end.
    eexists. split; [exact Hsrc | assumption].
Qed.

(** C10. For a network of the defaults table, [getDefaultFee] of the
    P-chain facade is the fee listed for the X chain of that network, whatever
    the table lists for the P chain; [getFee] stores it on first use and
    answers from the stored value afterwards: the instance that the first
    call leaves behind holds that fee in its [fee] field and is otherwise the
    instance it was, and every later call on it returns the stored fee and
    leaves it as it is, whatever the defaults table then lists. *)
Theorem getDefaultFee_X_chain (api : API) (net : gmap string ChainDefaults)
    (xchain : ChainDefaults) :
  Defaults_network !! api_networkID api = Some net ->
  net !! "X" = Some xchain ->
  getDefaultFee api = Ok (cd_fee xchain) /\
  (api_fee api = None ->
   getFee api = Ok (setFee api (cd_fee xchain), cd_fee xchain) /\
   getFee (setFee api (cd_fee xchain)) = Ok (setFee api (cd_fee xchain), cd_fee xchain)) /\
  (forall fee, api_fee api = Some fee -> getFee api = Ok (api, fee)) /\
  (api_fee api = None ->
   forall api' fee,
     getFee api = Ok (api', fee) ->
     fee = cd_fee xchain /\
     api_fee api' = Some (cd_fee xchain) /\
     api_networkID api' = api_networkID api /\
     api_hrp api' = api_hrp api /\
     api_blockchainID api' = api_blockchainID api /\
     api_AVAXAssetID api' = api_AVAXAssetID api /\
     forall ext' : Externals, @getFee ext' api' = Ok (api', cd_fee xchain)).
Proof.
  intros Hnet Hx.
  assert (Hd : getDefaultFee api = Ok (cd_fee xchain)).
  { unfold getDefaultFee. rewrite Hnet, Hx. reflexivity. }
  split; [exact Hd|]. split; [|split].
  - intros Hnone. unfold getFee. rewrite Hnone, Hd. split; reflexivity.
  - intros fee Hsome. unfold getFee. rewrite Hsome. reflexivity.
  - intros Hnone api' fee Hget. unfold getFee in Hget. rewrite Hnone, Hd in Hget.
    simpl in Hget. inversion Hget; subst api' fee. clear Hget.
    repeat split.
Qed.
End ImportAndFeeFacts.

(** ** The theorems at concrete inputs *)

Lemma ExportTx_toBuffer_sorted_witness :
  ascending_by (fun x => to_assetID x ++ output_sort_key x)
    (etx_exportOuts (fst ex_export_result)) /\
  etx_exportOuts (fst ex_export_result)
    ≡ₚ map TransferableOutput_normalize (etx_exportOuts ex_export_tx).
Proof.
  destruct (ExportTx_toBuffer_sorted (fun _ => []) ex_export_tx
              (fst ex_export_result) (snd ex_export_result))
    as (_ & Hperm & Hsorted & _).
  - vm_compute. reflexivity.
  - split; [exact Hsorted | exact Hperm].
Defined.

Lemma checkGooseEgg_gate_witness :
  @PlatformVM_checkGooseEgg ex_externals ex_node ex_api_free (Some ex_subnet_tx)
  = Ok (set_AVAXAssetID ex_api_free (replicate 32 x00), true) /\
  (exists api0 utx,
     Some ex_subnet_tx = Some utx /\
     @PlatformVM_checkGooseEgg ex_externals ex_node api0 (Some utx)
     = Ok (set_AVAXAssetID ex_api_free (replicate 32 x00), true)) /\
  (exists api0 utx,
     Some (MkExAVMTx (Some (replicate 32 x00)) 0 0) = Some utx /\
     @AVM_checkGooseEgg ex_externals ex_avm_externals ex_node api0 (Some utx)
     = Ok (set_AVAXAssetID ex_api_free (replicate 32 x00), true)).
Proof.
  destruct (@checkGooseEgg_gate ex_externals ex_avm_externals ex_node)
    as (Hp & _ & _ & _ & Hpb & Hxb).
  split; [|split].
  - rewrite (Hp ex_api_free (set_AVAXAssetID ex_api_free (replicate 32 x00))
               (replicate 32 x00) ex_subnet_tx); [|vm_compute; reflexivity].
    vm_compute. reflexivity.
  - apply (Hpb 1000 1000 ex_api_free
             (P_buildAddSubnetValidatorTx [] ["P-local1x"] ["P-local1x"] "NodeID-1"
                2000 3000 1 None 1000)).
    vm_compute. reflexivity.
  - apply (Hxb ex_api_free
             (@X_buildImportTx ex_avm_externals tt ["X-local1x"] (Chain_string "X") None 1000)).
    vm_compute. reflexivity.
Defined.

Lemma getMinimumSpendable_insufficient_funds_witness :
  (exists aad' outids,
     spend_all (getAllUTXOs ex_set) 1 (ex_aad, ∅) = Ok (aad', outids) /\
     @getMinimumSpendable ex_externals ex_set ex_aad 1 0 1
     = Ok (aad', Some Error_insufficient_funds)) /\
  @buildBaseTx ex_externals ex_set 12345 (replicate 32 x00) 10 ex_asset_1 [ex_Y] [ex_X]
    None None None None 1 0 1
  = Throw Error_insufficient_funds /\
  @buildExportTx ex_externals ex_set 12345 (replicate 32 x00) 10 ex_asset_1 [ex_Y] [ex_X]
    None (Some (replicate 32 x00)) (Some 1) None None 1 0 1
  = Throw Error_insufficient_funds /\
  @buildImportTx ex_externals ex_set 12345 (replicate 32 x00) [ex_X] [] None
    (Some 6) (Some ex_asset_1) None 1
  = Throw Error_insufficient_funds /\
  @buildAddValidatorTx ex_externals ex_set 1000 12345 (replicate 32 x00) ex_asset_1
    [ex_X] [ex_X] (replicate 20 x00) 2000 3000 (2000 * 1000000000) ex_X (JS_finite 2)
    (Some 1) (Some ex_asset_1) None 1000
  = Throw Error_insufficient_funds.
Proof.
  destruct (@getMinimumSpendable_insufficient_funds ex_externals ex_set 1)
    as (Hsel & Hbase & Hexport & Hfee & _).
  { repeat constructor. simpl. lia. }
  destruct (@getMinimumSpendable_insufficient_funds ex_externals ex_set 1000)
    as (_ & _ & _ & _ & Hstake).
  { repeat constructor. simpl. lia. }
  split; [|split; [|split; [|split]]].
  - apply Hsel. apply Exists_cons_hd. vm_compute. reflexivity.
  - apply Hbase.
    + simpl. lia.
    + lia.
    + apply Exists_cons_hd. vm_compute. reflexivity.
  - apply Hexport.
    + lia.
    + reflexivity.
    + apply Exists_cons_hd. vm_compute. reflexivity.
  - apply (Hfee 12345 (replicate 32 x00) [ex_X] [ex_X] [] None [] 0 0 0 0 6 ex_asset_1 None).
    + lia.
    + apply Exists_cons_hd. vm_compute. reflexivity.
  - apply Hstake.
    + vm_compute. reflexivity.
    + apply Exists_cons_hd. vm_compute. reflexivity.
    + vm_compute. discriminate.
    + vm_compute. reflexivity.
    + vm_compute. reflexivity.
Defined.

Lemma stake_window_check_witness :
  @buildAddValidatorTx ex_externals [] 1000 12345 (replicate 32 x00) ex_asset_1 [ex_X] [ex_X]
    (replicate 20 x00) 999 3000 (2000 * 1000000000) ex_X (JS_finite 2) None (Some ex_asset_1) None 1000
  = Throw (MkError "UTXOSet.buildAddValidatorTx -- startTime must be in the future and endTime must come after startTime") /\
  @buildAddSubnetValidatorTx ex_externals [] 1000 12345 (replicate 32 x00) [ex_X] [ex_X]
    (replicate 20 x00) 1000 1001 1 None (Some ex_asset_1) None 1000
  = Ok (Some (MkUnsignedTx
                (Tx_AddSubnetValidatorTx (MkBaseTx 12345 (replicate 32 x00) [] [] None)
                   (replicate 20 x00) 1000 (1000 + 1) 1))).
Proof.
  split.
  - apply (@stake_window_check ex_externals [] 1000 12345 (replicate 32 x00) ex_asset_1
             [ex_X] [ex_X] (replicate 20 x00) 999 3000 (2000 * 1000000000) ex_X (JS_finite 2) None
             (Some ex_asset_1) None 1000).
    vm_compute. reflexivity.
  - apply (@stake_window_check ex_externals [] 1000 12345 (replicate 32 x00) ex_asset_1
             [ex_X] [ex_X] (replicate 20 x00) 1000 1001 1 ex_X (JS_finite 2) None
             (Some ex_asset_1) None 1000).
Defined.

Lemma buildExportTx_fee_asset_witness :
  @buildExportTx ex_externals ex_set 12345 (replicate 32 x00) 10 ex_asset_1 [ex_Y] [ex_X]
    None None (Some 1) (Some ex_asset_2) None 1 0 1
  = Throw (MkError "Error - UTXOSet.buildExportTx: feeAssetID must match avaxAssetID").
Proof.
  apply (@buildExportTx_fee_asset ex_externals ex_set 12345 (replicate 32 x00) 10 ex_asset_1
           [ex_Y] [ex_X] None None (Some 1) None 1 0 1).
  - lia.
  - discriminate.
Defined.

Lemma zero_amount_no_transaction_witness :
  @buildBaseTx ex_externals ex_set 12345 (replicate 32 x00) 0 ex_asset_1 [ex_Y] [ex_X]
    None (Some 1) None None 1 0 1 = Ok None /\
  @buildExportTx ex_externals ex_set 12345 (replicate 32 x00) 0 ex_asset_1 [ex_Y] [ex_X]
    None None (Some 1) None None 1 0 1 = Ok None /\
  @buildBaseTx ex_externals ex_set 12345 (replicate 32 x00) 0 ex_asset_1 [ex_Y] [ex_X]
    None (Some 1) None None 1 0 2
  = Throw (MkError "Error - UTXOSet.buildBaseTx: threshold is greater than number of addresses") /\
  @buildBaseTx ex_externals ex_set 12345 (replicate 32 x00) 10 ex_asset_1 [ex_Y] [ex_X]
    None (Some 1) None None 1 0 2
  = Throw (MkError "Error - UTXOSet.buildBaseTx: threshold is greater than number of addresses").
Proof.
  split; [|split; [|split]].
  - apply (proj1 (@zero_amount_no_transaction ex_externals)). simpl. lia.
  - apply (proj1 (proj2 (@zero_amount_no_transaction ex_externals))).
  - apply (proj2 (proj2 (@zero_amount_no_transaction ex_externals))). simpl. lia.
  - apply (proj2 (proj2 (@zero_amount_no_transaction ex_externals))). simpl. lia.
Defined.

Lemma buildImportTx_string_sourceChain_witness :
  (exists base importIns platformChain,
     @cb58Decode ex_externals (@PlatformChainID ex_externals) = Ok platformChain /\
     Some (MkUnsignedTx (Tx_ImportTx (MkBaseTx 12345 (replicate 32 x00) [] [] None)
                           (replicate 32 x00) []))
     = Some (MkUnsignedTx (Tx_ImportTx base platformChain importIns))) /\
  @AVM_buildImportTx ex_externals ex_avm_externals ex_node ex_api_free tt ["X-local1x"]
    (Chain_string "X") None 1000
  = @AVM_buildImportTx ex_externals ex_avm_externals ex_node ex_api_free tt ["X-local1x"]
      (Chain_Buffer (replicate 32 x00)) None 1000 /\
  (exists platformChain,
     @cb58Decode ex_externals (@PlatformChainID ex_externals) = Ok platformChain /\
     ex_sourceChain (MkExAVMTx (Some (replicate 32 x00)) 0 0) = Some platformChain).
Proof.
  destruct (@buildImportTx_string_sourceChain ex_externals ex_avm_externals ex_node
              ex_api_free ["X-local1x"] None 1000) as (_ & _ & _ & Hx & Hp & Hxs).
  split; [|split].
  - apply (Hp [] "X" (set_AVAXAssetID ex_api_free (replicate 32 x00))).
    vm_compute. reflexivity.
  - apply Hx. vm_compute. reflexivity.
  - apply (Hxs ex_sourceChain) with (utxoset := tt) (s := "X")
        (api' := set_AVAXAssetID ex_api_free (replicate 32 x00)).
    + intros set networkid blockchainid owners importIns src fee feeAssetID memo' asOf' utx Hb.
      injection Hb as <-. reflexivity.
    + vm_compute. reflexivity.
Defined.

Lemma getDefaultFee_X_chain_witness :
  @getDefaultFee ex_externals ex_api = Ok 1000000 /\
  @getFee ex_externals ex_api = Ok (setFee ex_api 1000000, 1000000) /\
  @getFee ex_externals (setFee ex_api 1000000) = Ok (setFee ex_api 1000000, 1000000) /\
  (forall api' fee,
     @getFee ex_externals ex_api = Ok (api', fee) ->
     fee = 1000000 /\ api_fee api' = Some 1000000 /\
     api_networkID api' = api_networkID ex_api /\
     api_hrp api' = api_hrp ex_api /\
     api_blockchainID api' = api_blockchainID ex_api /\
     api_AVAXAssetID api' = api_AVAXAssetID ex_api /\
     forall ext' : Externals, @getFee ext' api' = Ok (api', 1000000)).
Proof.
  destruct (@getDefaultFee_X_chain ex_externals ex_api
              {[ "X" := MkChainDefaults "2eNy1mUFdmaxXNj1eQHUe7Np4gju9sJsEtWQ4MX3ToiNKuADed" "X" 1000000;
                 "P" := MkChainDefaults "11111111111111111111111111111111LpoYY" "P" 2000000 ]}
              (MkChainDefaults "2eNy1mUFdmaxXNj1eQHUe7Np4gju9sJsEtWQ4MX3ToiNKuADed" "X" 1000000))
    as (Hd & Hf & _ & Hstored).
  - vm_compute. reflexivity.
  - vm_compute. reflexivity.
  - split; [exact Hd|]. split; [apply Hf; reflexivity|].
    split; [apply Hf; reflexivity|]. apply Hstored. reflexivity.
Defined.

(* ===================================================================== *)
(** * Part III: parsing, what a selection and the builders return, and the
      state of the facades                                                *)
(* ===================================================================== *)

(** ** Bytes and fixed-width integers *)

Lemma byte_val_range (b : byte) : 0 <= byte_val b < 256.
Proof.
  unfold byte_val. pose proof (Byte.to_N_bounded b). lia.
Qed.

Lemma byte_of_Z_val (b : byte) : byte_of_Z (byte_val b) = b.
Proof.
  unfold byte_of_Z. rewrite Z.mod_small by apply byte_val_range.
  unfold byte_val. rewrite N2Z.id, Byte.of_to_N. reflexivity.
Qed.

Lemma byte_val_inj (x y : byte) : byte_val x = byte_val y -> x = y.
Proof.
  intros H. rewrite <- (byte_of_Z_val x), <- (byte_of_Z_val y), H. reflexivity.
Qed.

Lemma byte_val_of_Z (z : Z) : byte_val (byte_of_Z z) = z mod 256.
Proof.
  unfold byte_of_Z, byte_val.
  pose proof (Z.mod_pos_bound z 256 ltac:(lia)) as Hb.
  destruct (Byte.of_N (Z.to_N (z mod 256))) as [b|] eqn:E.
  - apply Byte.to_of_N in E. rewrite E. lia.
  - apply Byte.of_N_None_iff in E. lia.
Qed.

Lemma Buffer_compare_eq (a b : Buffer) : Buffer_compare a b = 0 -> a = b.
Proof.
  revert b. induction a as [|x a IH]; intros [|y b]; simpl; try (reflexivity || discriminate).
  destruct (Z.ltb_spec (byte_val x) (byte_val y)); [discriminate|].
  destruct (Z.ltb_spec (byte_val y) (byte_val x)); [discriminate|].
  intros Hc. f_equal; [apply byte_val_inj; lia | apply IH, Hc].
Qed.

Lemma Buffer_compare_le_antisym (a b : Buffer) :
  Buffer_compare a b <= 0 -> Buffer_compare b a <= 0 -> a = b.
Proof.
  intros H1 H2. apply Buffer_compare_eq.
  rewrite (Buffer_compare_antisym a b) in H2. lia.
Qed.

Lemma fromBufferToBN_snoc (l : Buffer) (x : byte) :
  fromBufferToBN (l ++ [x]) = fromBufferToBN l * 256 + byte_val x.
Proof. unfold fromBufferToBN. rewrite fold_left_app. reflexivity. Qed.

Lemma fromBufferToBN_nonneg (l : Buffer) : 0 <= fromBufferToBN l.
Proof.
  induction l as [|x l IH] using rev_ind; [reflexivity|].
  rewrite fromBufferToBN_snoc. pose proof (byte_val_range x). lia.
Qed.

Lemma length_be_bytes (n : nat) (z : Z) : length (be_bytes n z) = n.
Proof.
  revert z. induction n as [|n IH]; intros z; simpl; [reflexivity|].
  rewrite length_app, IH. simpl. lia.
Qed.

Lemma fromBufferToBN_be_bytes (n : nat) (z : Z) :
  fromBufferToBN (be_bytes n z) = z mod 256 ^ Z.of_nat n.
Proof.
  revert z. induction n as [|n IH]; intros z.
  - simpl. rewrite Z.mod_1_r. reflexivity.
  - cbn [be_bytes]. rewrite fromBufferToBN_snoc, IH, byte_val_of_Z.
    rewrite Nat2Z.inj_succ, Z.pow_succ_r by lia.
    rewrite (Z.rem_mul_r z 256 (256 ^ Z.of_nat n)) by lia. lia.
Qed.

Lemma be_bytes_fromBufferToBN (b : Buffer) : be_bytes (length b) (fromBufferToBN b) = b.
Proof.
  induction b as [|x b IH] using rev_ind; [reflexivity|].
  rewrite length_app, Nat.add_comm. cbn [length Nat.add be_bytes].
  rewrite fromBufferToBN_snoc. pose proof (byte_val_range x) as Hx.
  replace ((fromBufferToBN b * 256 + byte_val x) / 256) with (fromBufferToBN b)
    by (apply Z.div_unique with (r := byte_val x); lia).
  rewrite IH. f_equal. f_equal.
  unfold byte_of_Z.
  replace ((fromBufferToBN b * 256 + byte_val x) mod 256) with (byte_val x)
    by (apply Z.mod_unique with (q := fromBufferToBN b); lia).
  pose proof (byte_of_Z_val x) as Hv. unfold byte_of_Z in Hv.
  rewrite Z.mod_small in Hv by lia. exact Hv.
Qed.

Lemma readUInt32BE_writeUInt32BE (n : Z) :
  0 <= n < 2 ^ 32 -> readUInt32BE (writeUInt32BE n) = n.
Proof.
  intros Hn. unfold readUInt32BE, writeUInt32BE.
  rewrite take_ge by (rewrite length_be_bytes; lia).
  rewrite fromBufferToBN_be_bytes. apply Z.mod_small. simpl. lia.
Qed.

Lemma writeUInt32BE_readUInt32BE (b : Buffer) :
  length b = 4%nat -> writeUInt32BE (readUInt32BE b) = b.
Proof.
  intros Hb. unfold readUInt32BE, writeUInt32BE.
  rewrite take_ge by lia. rewrite <- Hb at 1. apply be_bytes_fromBufferToBN.
Qed.

Lemma getThreshold_nonneg (o : OutputOwners) : 0 <= getThreshold o.
Proof. apply fromBufferToBN_nonneg. Qed.

Lemma copyFrom_app (pre x post : Buffer) (offset n : nat) :
  offset = length pre -> n = length x ->
  copyFrom (pre ++ x ++ post) offset (offset + n) = x.
Proof.
  intros -> ->. unfold copyFrom.
  replace (length pre + length x - length pre)%nat with (length x) by lia.
  rewrite drop_app_length, take_app_length. reflexivity.
Qed.

Lemma length_copyFrom (b : Buffer) (start stop : nat) :
  length (copyFrom b start stop) = Nat.min (stop - start) (length b - start).
Proof. unfold copyFrom. rewrite length_take, length_drop. reflexivity. Qed.

Lemma fromBufferToBN_bound (b : Buffer) : fromBufferToBN b < 256 ^ Z.of_nat (length b).
Proof.
  rewrite <- (be_bytes_fromBufferToBN b) at 1. rewrite fromBufferToBN_be_bytes.
  apply Z.mod_pos_bound. apply Z.pow_pos_nonneg; lia.
Qed.

Lemma copyFrom_at (bytes pre x post : Buffer) (offset n : nat) :
  bytes = pre ++ x ++ post -> offset = length pre -> n = length x ->
  copyFrom bytes offset (offset + n) = x.
Proof. intros ->. apply copyFrom_app. Qed.

Lemma Address_comparator_total (a b : Address) :
  Address_comparator a b <= 0 \/ Address_comparator b a <= 0.
Proof. apply Buffer_compare_total. Qed.

Lemma Address_comparator_trans (a b c : Address) :
  Address_comparator a b <= 0 -> Address_comparator b c <= 0 -> Address_comparator a c <= 0.
Proof. apply Buffer_compare_trans. Qed.

Lemma Address_sort_Permutation (l : list Address) : Array_sort Address_comparator l ≡ₚ l.
Proof. apply Array_sort_Permutation. Qed.

Lemma Address_sort_ascending (l : list Address) :
  addresses_ascending (Array_sort Address_comparator l).
Proof.
  apply Array_sort_sorted; [apply Address_comparator_total | apply Address_comparator_trans].
Qed.

Lemma Address_sort_idem (l : list Address) :
  Array_sort Address_comparator (Array_sort Address_comparator l)
  = Array_sort Address_comparator l.
Proof.
  apply Array_sort_idem; [apply Address_comparator_total | apply Address_comparator_trans].
Qed.

Lemma OutputOwners_normalize_idem (o : OutputOwners) :
  OutputOwners_normalize (OutputOwners_normalize o) = OutputOwners_normalize o.
Proof.
  unfold OutputOwners_normalize. simpl. rewrite Address_sort_idem. reflexivity.
Qed.

(** ** Parsing owners and outputs *)

Lemma read_addresses_concat (addrs : list Address) (bytes pre post : Buffer) (offset : nat) :
  Forall (fun a => length a = Address_bsize) addrs ->
  bytes = pre ++ concat addrs ++ post -> offset = length pre ->
  read_addresses (length addrs) bytes offset
  = Ok (addrs, (offset + length (concat addrs))%nat).
Proof.
  intros Hall. revert pre offset.
  induction Hall as [|a addrs Ha _ IH]; intros pre offset Hb Ho.
  - simpl. f_equal. f_equal. lia.
  - cbn [length read_addresses concat]. unfold Address_fromBuffer_at.
    assert (Hlen : (length bytes - offset <? Address_bsize)%nat = false).
    { apply Nat.ltb_ge. subst. rewrite !length_app. simpl. rewrite length_app. lia. }
    rewrite Hlen. cbn [bind].
    rewrite (copyFrom_at bytes pre a (concat addrs ++ post) offset Address_bsize)
      by (subst; simpl; rewrite <- ?app_assoc; auto).
    rewrite (IH (pre ++ a) (offset + Address_bsize)%nat)
      by (subst; simpl; rewrite ?length_app, <- ?app_assoc; auto).
    cbn [bind]. rewrite length_app. do 2 f_equal. lia.
Qed.

Lemma read_addresses_Ok (n : nat) (bytes : Buffer) (offset : nat)
    (addrs : list Address) (off' : nat) :
  read_addresses n bytes offset = Ok (addrs, off') ->
  length addrs = n /\ Forall (fun a => length a = Address_bsize) addrs /\
  off' = (offset + Address_bsize * n)%nat /\
  ((offset <= length bytes)%nat -> (off' <= length bytes)%nat).
Proof.
  revert offset addrs off'. induction n as [|n IH]; intros offset addrs off' H.
  - simpl in H. injection H as <- <-. repeat split; auto; lia.
  - cbn [read_addresses] in H. unfold Address_fromBuffer_at in H.
    destruct (Nat.ltb_spec (length bytes - offset) Address_bsize) as [|Hlen];
      [discriminate|].
    cbn [bind] in H.
    destruct (read_addresses n bytes (offset + Address_bsize)) as [[addrs' o']|] eqn:E;
      [|discriminate].
    cbn [bind] in H. injection H as <- <-.
    apply IH in E as (Hn & Hall & Ho & Hle).
    unfold Address_bsize in *. repeat split.
    + simpl. lia.
    + constructor; [|exact Hall]. rewrite length_copyFrom. lia.
    + lia.
    + intros _. apply Hle. lia.
Qed.

Lemma read_addresses_succeeds (n : nat) (bytes : Buffer) (offset : nat) :
  (offset + Address_bsize * n <= length bytes)%nat ->
  exists addrs, read_addresses n bytes offset = Ok (addrs, (offset + Address_bsize * n)%nat).
Proof.
  revert offset. induction n as [|n IH]; intros offset Hle.
  - exists []. simpl. do 2 f_equal. lia.
  - cbn [read_addresses]. unfold Address_fromBuffer_at.
    destruct (Nat.ltb_spec (length bytes - offset) Address_bsize) as [Hlt|_];
      [unfold Address_bsize in *; lia|].
    cbn [bind].
    destruct (IH (offset + Address_bsize)%nat) as [addrs Ha]; [lia|].
    rewrite Ha. cbn [bind]. eexists. do 2 f_equal. lia.
Qed.

Lemma OutputOwners_toBuffer_app (o : OutputOwners) :
  OutputOwners_toBuffer o
  = locktime o ++ threshold o
    ++ writeUInt32BE (Z.of_nat (length (Array_sort Address_comparator (addresses o))))
    ++ concat (Array_sort Address_comparator (addresses o)).
Proof. reflexivity. Qed.

Lemma OutputOwners_fromBuffer_encoded (o : OutputOwners) (bytes pre post : Buffer)
    (offset : nat) :
  OutputOwners_wf o ->
  bytes = pre ++ OutputOwners_toBuffer o ++ post -> offset = length pre ->
  OutputOwners_fromBuffer bytes offset
  = Ok (OutputOwners_normalize o, (offset + length (OutputOwners_toBuffer o))%nat).
Proof.
  intros (Hl & Ht & Ha & Hn) Hb Ho.
  rewrite OutputOwners_toBuffer_app in *.
  set (S := Array_sort Address_comparator (addresses o)) in *.
  assert (HS : S ≡ₚ addresses o) by apply Address_sort_Permutation.
  assert (HlenS : length S = length (addresses o)) by (rewrite HS; reflexivity).
  assert (HaS : Forall (fun a => length a = Address_bsize) S) by (rewrite HS; exact Ha).
  set (N := writeUInt32BE (Z.of_nat (length S))) in *.
  assert (HN : length N = 4%nat) by apply length_be_bytes.
  unfold OutputOwners_fromBuffer. cbv zeta.
  rewrite (copyFrom_at bytes pre (locktime o) (threshold o ++ N ++ concat S ++ post) offset 8)
    by (subst; rewrite <- ?app_assoc; auto).
  rewrite (copyFrom_at bytes (pre ++ locktime o) (threshold o) (N ++ concat S ++ post)
             (offset + 8) 4)
    by (subst; rewrite ?length_app, <- ?app_assoc; auto; lia).
  rewrite (copyFrom_at bytes (pre ++ locktime o ++ threshold o) N (concat S ++ post)
             (offset + 8 + 4) 4)
    by (subst; rewrite ?length_app, <- ?app_assoc; auto; lia).
  unfold Buffer_readUInt32BE. rewrite HN. cbn [Nat.ltb Nat.leb bind].
  unfold N at 1. rewrite readUInt32BE_writeUInt32BE by lia.
  rewrite Nat2Z.id.
  rewrite (read_addresses_concat S bytes (pre ++ locktime o ++ threshold o ++ N) post)
    by (subst; rewrite ?length_app, <- ?app_assoc; auto; lia).
  cbn [bind]. unfold OutputOwners_normalize. fold S. fold N.
  unfold S at 1. rewrite Address_sort_idem. fold S.
  do 2 f_equal. rewrite !length_app. lia.
Qed.

Lemma length_concat_addresses (l : list Address) :
  Forall (fun a => length a = Address_bsize) l -> length (concat l) = (20 * length l)%nat.
Proof.
  induction 1 as [|a l Hlen _ IH]; simpl; [reflexivity|].
  rewrite length_app, Hlen, IH. unfold Address_bsize. lia.
Qed.

(** X1. Parsing what [OutputOwners.toBuffer] wrote gives the owners back:
    for owners whose fields have the wire widths (8-byte locktime, 4-byte
    threshold, 20-byte addresses, fewer than 2^32 of them),
    [fromBuffer] at the offset where the bytes start, whatever surrounds them,
    returns the object as [toBuffer] left it (addresses sorted, count
    written) and the offset just behind the bytes; serialising that object
    again gives the same bytes, which are 16 + 20 n long. *)
Theorem OutputOwners_fromBuffer_toBuffer (o : OutputOwners) (pre post : Buffer) :
  OutputOwners_wf o ->
  OutputOwners_fromBuffer (pre ++ OutputOwners_toBuffer o ++ post) (length pre)
  = Ok (OutputOwners_normalize o, (length pre + length (OutputOwners_toBuffer o))%nat) /\
  OutputOwners_toBuffer (OutputOwners_normalize o) = OutputOwners_toBuffer o /\
  length (OutputOwners_toBuffer o) = (16 + 20 * length (addresses o))%nat.
Proof.
  intros Hwf. split; [|split].
  - apply (OutputOwners_fromBuffer_encoded o _ pre post); auto.
  - apply OutputOwners_toBuffer_normalize.
  - destruct Hwf as (Hl & Ht & Ha & _).
    rewrite OutputOwners_toBuffer_app, !length_app, Hl, Ht.
    unfold writeUInt32BE. rewrite length_be_bytes.
    pose proof (Address_sort_Permutation (addresses o)) as HS.
    rewrite <- HS in Ha. rewrite <- (Permutation_length HS).
    rewrite (length_concat_addresses _ Ha). lia.
Qed.

Lemma OutputOwners_fromBuffer_toBuffer_witness :
  OutputOwners_fromBuffer ([xff] ++ OutputOwners_toBuffer ex_owners_unsorted ++ [xff; xff])
    (length [xff])
  = Ok (OutputOwners_normalize ex_owners_unsorted,
        (length [xff] + length (OutputOwners_toBuffer ex_owners_unsorted))%nat) /\
  OutputOwners_toBuffer (OutputOwners_normalize ex_owners_unsorted)
  = OutputOwners_toBuffer ex_owners_unsorted /\
  length (OutputOwners_toBuffer ex_owners_unsorted)
  = (16 + 20 * length (addresses ex_owners_unsorted))%nat.
Proof.
  apply (OutputOwners_fromBuffer_toBuffer ex_owners_unsorted [xff] [xff; xff]).
  repeat split; try (vm_compute; reflexivity); repeat constructor.
Defined.

(** X2. What [OutputOwners.fromBuffer] returns when it returns: the fields
    have the wire widths, the addresses are in ascending byte order and as
    many as the count read, [toBuffer] will not change the object, and the
    offset returned is the one given plus 16 + 20 n, within the buffer. *)
Theorem OutputOwners_fromBuffer_Ok (bytes : Buffer) (offset : nat)
    (o : OutputOwners) (off' : nat) :
  OutputOwners_fromBuffer bytes offset = Ok (o, off') ->
  OutputOwners_wf o /\ addresses_ascending (addresses o) /\
  length (numaddrs o) = 4%nat /\
  readUInt32BE (numaddrs o) = Z.of_nat (length (addresses o)) /\
  OutputOwners_normalize o = o /\
  off' = (offset + 16 + 20 * length (addresses o))%nat /\ (off' <= length bytes)%nat.
Proof.
  unfold OutputOwners_fromBuffer, Buffer_readUInt32BE. cbv zeta. intros H.
  destruct (Nat.ltb_spec (length (copyFrom bytes (offset + 8 + 4) (offset + 8 + 4 + 4))) 4)
    as [|Hnum]; [discriminate|].
  cbn [bind] in H.
  set (num := copyFrom bytes (offset + 8 + 4) (offset + 8 + 4 + 4)) in *.
  destruct (read_addresses (Z.to_nat (readUInt32BE num)) bytes (offset + 8 + 4 + 4))
    as [[addrs o']|] eqn:E; [|discriminate].
  cbn [bind] in H. injection H as <- <-.
  apply read_addresses_Ok in E as (Hn & Hall & Ho & Hle).
  assert (Hnum4 : length num = 4%nat).
  { unfold num in *. rewrite length_copyFrom in *. lia. }
  assert (Hbytes : (offset + 16 <= length bytes)%nat).
  { unfold num in Hnum4. rewrite length_copyFrom in Hnum4. lia. }
  pose proof (Address_sort_Permutation addrs) as HS.
  assert (Hval : readUInt32BE num = Z.of_nat (length addrs)).
  { rewrite Hn, Z2Nat.id; [reflexivity | apply fromBufferToBN_nonneg]. }
  assert (Hlt : readUInt32BE num < 2 ^ 32).
  { unfold readUInt32BE. rewrite take_ge by lia.
    pose proof (fromBufferToBN_bound num) as Hb. rewrite Hnum4 in Hb. exact Hb. }
  cbn [locktime threshold numaddrs addresses].
  rewrite (Permutation_length HS).
  split; [|split; [|split; [|split; [|split; [|split]]]]].
  - unfold OutputOwners_wf. cbn [locktime threshold numaddrs addresses].
    rewrite !length_copyFrom, (Permutation_length HS), HS. repeat split; auto; lia.
  - apply Address_sort_ascending.
  - exact Hnum4.
  - exact Hval.
  - unfold OutputOwners_normalize. cbn [locktime threshold numaddrs addresses].
    rewrite Address_sort_idem, (Permutation_length HS), <- Hval.
    rewrite writeUInt32BE_readUInt32BE by exact Hnum4. reflexivity.
  - unfold Address_bsize in *. lia.
  - apply Hle. lia.
Qed.

Lemma OutputOwners_fromBuffer_Ok_witness :
  OutputOwners_wf (OutputOwners_normalize ex_owners_unsorted) /\
  addresses_ascending (addresses (OutputOwners_normalize ex_owners_unsorted)) /\
  length (numaddrs (OutputOwners_normalize ex_owners_unsorted)) = 4%nat /\
  readUInt32BE (numaddrs (OutputOwners_normalize ex_owners_unsorted))
  = Z.of_nat (length (addresses (OutputOwners_normalize ex_owners_unsorted))) /\
  OutputOwners_normalize (OutputOwners_normalize ex_owners_unsorted)
  = OutputOwners_normalize ex_owners_unsorted /\
  57%nat = (1 + 16 + 20 * length (addresses (OutputOwners_normalize ex_owners_unsorted)))%nat /\
  (57 <= length ([xff] ++ OutputOwners_toBuffer ex_owners_unsorted ++ [xff; xff]))%nat.
Proof.
  apply (OutputOwners_fromBuffer_Ok
           ([xff] ++ OutputOwners_toBuffer ex_owners_unsorted ++ [xff; xff]) 1).
  vm_compute. reflexivity.
Defined.

(** X3. [OutputOwners.fromBuffer] returns exactly when the buffer holds, from
    the offset on, the 16 bytes of locktime, threshold and count and then as
    many 20-byte addresses as the count says; on any shorter buffer it
    throws. *)
Theorem OutputOwners_fromBuffer_succeeds (bytes : Buffer) (offset : nat) :
  (exists r, OutputOwners_fromBuffer bytes offset = Ok r) <->
  (offset + 16 <= length bytes)%nat /\
  Z.of_nat offset + 16 + 20 * readUInt32BE (copyFrom bytes (offset + 12) (offset + 16))
  <= Z.of_nat (length bytes).
Proof.
  split.
  - intros [[o off'] H].
    unfold OutputOwners_fromBuffer, Buffer_readUInt32BE in H. cbv zeta in H.
    replace (offset + 8 + 4)%nat with (offset + 12)%nat in H by lia.
    replace (offset + 12 + 4)%nat with (offset + 16)%nat in H by lia.
    destruct (Nat.ltb_spec (length (copyFrom bytes (offset + 12) (offset + 16))) 4)
      as [|Hnum]; [discriminate|].
    cbn [bind] in H.
    destruct (read_addresses _ bytes (offset + 16)) as [[addrs o']|] eqn:E; [|discriminate].
    rewrite length_copyFrom in Hnum.
    apply read_addresses_Ok in E as (_ & _ & Ho & Hle).
    pose proof (fromBufferToBN_nonneg (take 4 (copyFrom bytes (offset + 12) (offset + 16))))
      as Hnn. fold (readUInt32BE (copyFrom bytes (offset + 12) (offset + 16))) in Hnn.
    unfold Address_bsize in *. split; [lia|].
    assert (o' <= length bytes)%nat by (apply Hle; lia). lia.
  - intros [Hhdr Hall].
    unfold OutputOwners_fromBuffer, Buffer_readUInt32BE. cbv zeta.
    replace (offset + 8 + 4)%nat with (offset + 12)%nat by lia.
    replace (offset + 12 + 4)%nat with (offset + 16)%nat by lia.
    destruct (Nat.ltb_spec (length (copyFrom bytes (offset + 12) (offset + 16))) 4)
      as [Hnum|_]; [rewrite length_copyFrom in Hnum; lia|].
    cbn [bind].
    pose proof (fromBufferToBN_nonneg (take 4 (copyFrom bytes (offset + 12) (offset + 16))))
      as Hnn. fold (readUInt32BE (copyFrom bytes (offset + 12) (offset + 16))) in Hnn.
    destruct (read_addresses_succeeds
                (Z.to_nat (readUInt32BE (copyFrom bytes (offset + 12) (offset + 16))))
                bytes (offset + 16)) as [addrs Ha].
    { unfold Address_bsize. lia. }
    rewrite Ha. cbn [bind]. eexists. reflexivity.
Qed.

Lemma StandardAmountOutput_fromBuffer_encoded (a : StandardAmountOutput)
    (bytes pre post : Buffer) (offset : nat) :
  StandardAmountOutput_wf a ->
  bytes = pre ++ StandardAmountOutput_toBuffer a ++ post -> offset = length pre ->
  StandardAmountOutput_fromBuffer (ao_outputID a) bytes offset
  = Ok ({| ao_outputID := ao_outputID a; ao_amount := ao_amount a;
           ao_amountValue := ao_amountValue a;
           ao_owners := OutputOwners_normalize (ao_owners a) |},
        (offset + length (StandardAmountOutput_toBuffer a))%nat).
Proof.
  intros (Hamt & Hval & Hwf) Hb Ho.
  assert (Hbuf : StandardAmountOutput_toBuffer a
                 = ao_amount a ++ OutputOwners_toBuffer (ao_owners a)).
  { unfold StandardAmountOutput_toBuffer, Buffer_concat. simpl.
    rewrite app_nil_r. reflexivity. }
  rewrite Hbuf in *. unfold StandardAmountOutput_fromBuffer. cbv zeta.
  rewrite (copyFrom_at bytes pre (ao_amount a) (OutputOwners_toBuffer (ao_owners a) ++ post)
             offset 8)
    by (subst; rewrite <- ?app_assoc; auto).
  rewrite (OutputOwners_fromBuffer_encoded (ao_owners a) bytes (pre ++ ao_amount a) post)
    by (subst; rewrite ?length_app, <- ?app_assoc; auto; lia).
  cbn [bind]. rewrite <- Hval, length_app, Hamt. do 2 f_equal. lia.
Qed.

(** X4. Parsing what [StandardAmountOutput.toBuffer] wrote gives the output
    back: for an output with an 8-byte amount, the value of those bytes as
    [amountValue], and owners of the wire widths, [fromBuffer] returns the
    same amount and value and the owners as [toBuffer] left them, and the
    offset just behind the bytes, which are 24 + 20 n long. *)
Theorem StandardAmountOutput_fromBuffer_toBuffer (a : StandardAmountOutput)
    (pre post : Buffer) :
  StandardAmountOutput_wf a ->
  StandardAmountOutput_fromBuffer (ao_outputID a)
    (pre ++ StandardAmountOutput_toBuffer a ++ post) (length pre)
  = Ok ({| ao_outputID := ao_outputID a; ao_amount := ao_amount a;
           ao_amountValue := ao_amountValue a;
           ao_owners := OutputOwners_normalize (ao_owners a) |},
        (length pre + length (StandardAmountOutput_toBuffer a))%nat) /\
  length (StandardAmountOutput_toBuffer a)
  = (24 + 20 * length (addresses (ao_owners a)))%nat.
Proof.
  intros Hwf. split.
  - apply (StandardAmountOutput_fromBuffer_encoded a _ pre post); auto.
  - destruct Hwf as (Hamt & _ & Hwf).
    unfold StandardAmountOutput_toBuffer, Buffer_concat. simpl.
    rewrite app_nil_r, length_app, Hamt.
    destruct Hwf as (Hl & Ht & Ha & _).
    rewrite OutputOwners_toBuffer_app, !length_app, Hl, Ht.
    unfold writeUInt32BE. rewrite length_be_bytes.
    pose proof (Address_sort_Permutation (addresses (ao_owners a))) as HS.
    rewrite <- HS in Ha. rewrite <- (Permutation_length HS).
    rewrite (length_concat_addresses _ Ha). lia.
Qed.

Lemma StandardAmountOutput_fromBuffer_toBuffer_witness :
  StandardAmountOutput_fromBuffer (ao_outputID ex_amount_out)
    ([xff] ++ StandardAmountOutput_toBuffer ex_amount_out ++ [xff]) (length [xff])
  = Ok ({| ao_outputID := ao_outputID ex_amount_out; ao_amount := ao_amount ex_amount_out;
           ao_amountValue := ao_amountValue ex_amount_out;
           ao_owners := OutputOwners_normalize (ao_owners ex_amount_out) |},
        (length [xff] + length (StandardAmountOutput_toBuffer ex_amount_out))%nat) /\
  length (StandardAmountOutput_toBuffer ex_amount_out)
  = (24 + 20 * length (addresses (ao_owners ex_amount_out)))%nat.
Proof.
  apply (StandardAmountOutput_fromBuffer_toBuffer ex_amount_out [xff] [xff]).
  repeat split; try (vm_compute; reflexivity); repeat constructor.
Defined.

(** X5. [UTXO.fromBuffer] reads back a UTXO laid out as codec id (2 bytes),
    transaction id (32), output index (4) and the bytes of a transferable
    amount output, as the tests of the P-chain API build them: when the
    output's type id is the one of the amount output class, the UTXO has
    these very fields, the asset id of the transferable output and the output
    as [toBuffer] left it, and the offset returned is the length of the
    bytes; for any other type id the parse throws. *)
Theorem UTXO_fromBuffer_UTXO_bytes (secp_id : Z) (codecid txid outputidx assetid : Buffer)
    (a : StandardAmountOutput) (post : Buffer) :
  length codecid = 2%nat -> length txid = 32%nat -> length outputidx = 4%nat ->
  length assetid = 32%nat ->
  0 <= ao_outputID a < 2 ^ 32 -> StandardAmountOutput_wf a ->
  UTXO_fromBuffer secp_id
    (UTXO_bytes codecid txid outputidx (MkTransferableOutput assetid (AmountOut a)) ++ post) 0
  = if ao_outputID a =? secp_id then
      Ok ({| u_codecid := codecid; u_txid := txid; u_outputidx := outputidx;
             u_assetid := assetid; u_output := Output_normalize (AmountOut a) |},
          length (UTXO_bytes codecid txid outputidx
                    (MkTransferableOutput assetid (AmountOut a))))
    else Throw (MkError "Error - SelectOutputClass: unknown outputid").
Proof.
  intros Hc Ht Hi Has Hid Hwf.
  set (out := StandardAmountOutput_toBuffer a).
  set (idb := writeUInt32BE (ao_outputID a)).
  assert (Hidb : length idb = 4%nat) by apply length_be_bytes.
  assert (Hb : UTXO_bytes codecid txid outputidx (MkTransferableOutput assetid (AmountOut a))
               = codecid ++ txid ++ outputidx ++ assetid ++ idb ++ out).
  { unfold UTXO_bytes, TransferableOutput_toBuffer, Buffer_concat.
    cbn [concat to_assetID to_output Output_getOutputID Output_toBuffer].
    rewrite ?app_nil_r, <- ?app_assoc. reflexivity. }
  rewrite Hb. set (bytes := (codecid ++ txid ++ outputidx ++ assetid ++ idb ++ out) ++ post).
  unfold UTXO_fromBuffer. cbv zeta.
  rewrite (copyFrom_at bytes [] codecid (txid ++ outputidx ++ assetid ++ idb ++ out ++ post)
             0 2)
    by (unfold bytes; rewrite <- ?app_assoc; auto).
  rewrite (copyFrom_at bytes codecid txid (outputidx ++ assetid ++ idb ++ out ++ post)
             (0 + 2) 32)
    by (unfold bytes; rewrite ?length_app, <- ?app_assoc; auto; lia).
  rewrite (copyFrom_at bytes (codecid ++ txid) outputidx (assetid ++ idb ++ out ++ post)
             (0 + 2 + 32) 4)
    by (unfold bytes; rewrite ?length_app, <- ?app_assoc; auto; lia).
  rewrite (copyFrom_at bytes (codecid ++ txid ++ outputidx) assetid (idb ++ out ++ post)
             (0 + 2 + 32 + 4) 32)
    by (unfold bytes; rewrite ?length_app, <- ?app_assoc; auto; lia).
  rewrite (copyFrom_at bytes (codecid ++ txid ++ outputidx ++ assetid) idb (out ++ post)
             (0 + 2 + 32 + 4 + 32) 4)
    by (unfold bytes; rewrite ?length_app, <- ?app_assoc; auto; lia).
  unfold Buffer_readUInt32BE. rewrite Hidb. cbn [Nat.ltb Nat.leb bind].
  unfold idb at 1. rewrite readUInt32BE_writeUInt32BE by exact Hid.
  unfold SelectOutputClass_fromBuffer.
  destruct (ao_outputID a =? secp_id); [|reflexivity].
  rewrite (StandardAmountOutput_fromBuffer_encoded a bytes
             (codecid ++ txid ++ outputidx ++ assetid ++ idb) post)
    by (unfold bytes, out; rewrite ?length_app, <- ?app_assoc; auto; lia).
  cbn [bind Output_normalize]. do 2 f_equal.
  rewrite !length_app. fold out. lia.
Qed.

Lemma UTXO_fromBuffer_UTXO_bytes_witness :
  UTXO_fromBuffer 7
    (UTXO_bytes [x00; x00] (replicate 32 x0a) (be_bytes 4 1)
       (MkTransferableOutput ex_asset_1 (AmountOut ex_amount_out)) ++ [])
    0
  = if ao_outputID ex_amount_out =? 7 then
      Ok ({| u_codecid := [x00; x00]; u_txid := replicate 32 x0a;
             u_outputidx := be_bytes 4 1; u_assetid := ex_asset_1;
             u_output := Output_normalize (AmountOut ex_amount_out) |},
          length (UTXO_bytes [x00; x00] (replicate 32 x0a) (be_bytes 4 1)
                    (MkTransferableOutput ex_asset_1 (AmountOut ex_amount_out))))
    else Throw (MkError "Error - SelectOutputClass: unknown outputid").
Proof.
  apply (UTXO_fromBuffer_UTXO_bytes 7 [x00; x00] (replicate 32 x0a) (be_bytes 4 1)
           ex_asset_1 ex_amount_out []);
    [reflexivity | reflexivity | reflexivity | reflexivity | simpl; lia |].
  repeat split; try (vm_compute; reflexivity); repeat constructor.
Defined.

(** ** The constructor of [OutputOwners] *)

Lemma mapM_Address_fromBuffer_Ok (addrs : list Buffer) :
  Forall (fun a => (Address_bsize <= length a)%nat) addrs ->
  mapM Address_fromBuffer addrs = Ok (map (take Address_bsize) addrs).
Proof.
  induction 1 as [|a addrs Ha _ IH]; [reflexivity|].
  cbn [mapM map]. unfold Address_fromBuffer at 1.
  destruct (Nat.ltb_spec (length a) Address_bsize) as [|_]; [lia|].
  cbn [bind]. rewrite IH. cbn [bind]. unfold copyFrom.
  rewrite Nat.sub_0_r, drop_0. reflexivity.
Qed.

Lemma mapM_Address_fromBuffer_Throw (addrs : list Buffer) :
  Exists (fun a => (length a < Address_bsize)%nat) addrs ->
  mapM Address_fromBuffer addrs
  = Throw (MkError "Error - NBytes.fromBuffer: Error: Buffer length must be at least 20 bytes.").
Proof.
  induction addrs as [|a addrs IH]; intros Hex; [inversion Hex|].
  cbn [mapM]. unfold Address_fromBuffer at 1.
  destruct (Nat.ltb_spec (length a) Address_bsize) as [|Hge]; [reflexivity|].
  cbn [bind]. rewrite IH; [reflexivity|].
  inversion Hex; subst; [lia | assumption].
Qed.

(** X6. The constructor of [OutputOwners], given addresses and an integer
    threshold. It reads the addresses first and throws the [NBytes] error
    when some address has fewer than 20 bytes. With every address of 20 bytes
    or more, it then writes the threshold, 1 standing for a threshold that is
    0 or missing: a threshold below 0 or above 2^32 - 1 throws the
    [RangeError] of [writeUInt32BE]; otherwise the constructor succeeds, the
    owners are the first 20 bytes of each address given (a longer buffer is
    cut, not refused), in ascending byte order, [toBuffer] will not change
    the object, and [getThreshold] gives the threshold passed, or 1 when the
    threshold is 0 or missing. *)
Theorem OutputOwners_new_spec (addrs : list Buffer) (lock thr : option Z) :
  (Forall (fun a => (Address_bsize <= length a)%nat) addrs ->
   (forall t, thr = Some t -> 0 <= t <= 4294967295) ->
   exists o, OutputOwners_new addrs lock thr = Ok o /\
     addresses o ≡ₚ map (take Address_bsize) addrs /\
     addresses_ascending (addresses o) /\
     Forall (fun a => length a = Address_bsize) (addresses o) /\
     OutputOwners_normalize o = o /\
     (forall t, thr = Some t -> t <> 0 -> getThreshold o = t) /\
     (thr = None \/ thr = Some 0 -> getThreshold o = 1)) /\
  (Exists (fun a => (length a < Address_bsize)%nat) addrs ->
   OutputOwners_new addrs lock thr
   = Throw (MkError "Error - NBytes.fromBuffer: Error: Buffer length must be at least 20 bytes.")) /\
  (Forall (fun a => (Address_bsize <= length a)%nat) addrs ->
   forall t, thr = Some t -> t < 0 \/ 4294967295 < t ->
   OutputOwners_new addrs lock thr = Throw Error_value_out_of_bounds).
Proof.
  split; [|split].
  - intros Hall Hthr. unfold OutputOwners_new.
    rewrite (mapM_Address_fromBuffer_Ok addrs Hall). cbn [bind].
    set (thr' := match thr with Some t => if t =? 0 then 1 else t | None => 1 end).
    assert (Hrange : 0 < thr' <= 4294967295).
    { subst thr'. destruct thr as [t|]; [|lia].
      specialize (Hthr t eq_refl). destruct (Z.eqb_spec t 0); lia. }
    unfold Buffer_writeUInt32BE.
    destruct (Z.ltb_spec thr' 0) as [|_]; [lia|].
    destruct (Z.ltb_spec 4294967295 thr') as [|_]; [lia|].
    cbn [orb bind].
    eexists. split; [reflexivity|].
    cbn [addresses]. unfold getThreshold. cbn [threshold].
    pose proof (Address_sort_Permutation (map (take Address_bsize) addrs)) as HS.
    split; [exact HS|]. split; [apply Address_sort_ascending|].
    split; [|split; [|split]].
    + rewrite HS. apply Forall_forall. intros a Ha.
      apply list_elem_of_fmap in Ha as (b & -> & Hb).
      rewrite Forall_forall in Hall. specialize (Hall b Hb).
      rewrite length_take. lia.
    + unfold OutputOwners_normalize. cbn [locktime threshold numaddrs addresses].
      rewrite Address_sort_idem. reflexivity.
    + intros t Ht Hne. subst thr thr'. destruct (Z.eqb_spec t 0) as [|_]; [lia|].
      apply readUInt32BE_writeUInt32BE. lia.
    + intros [Ht|Ht]; subst thr thr'; reflexivity.
  - intros Hex. unfold OutputOwners_new.
    rewrite (mapM_Address_fromBuffer_Throw addrs Hex). reflexivity.
  - intros Hall t -> Ht. unfold OutputOwners_new.
    rewrite (mapM_Address_fromBuffer_Ok addrs Hall). cbn [bind].
    destruct (Z.eqb_spec t 0) as [|_]; [lia|].
    unfold Buffer_writeUInt32BE.
    destruct Ht as [Ht|Ht].
    + rewrite (proj2 (Z.ltb_lt _ _) Ht). reflexivity.
    + rewrite (proj2 (Z.ltb_lt _ _) Ht), orb_true_r. reflexivity.
Qed.

Lemma OutputOwners_new_spec_witness :
  (exists o, OutputOwners_new [ex_Y ++ [xff]; ex_X] (Some 0) (Some 2) = Ok o /\
     addresses o ≡ₚ map (take Address_bsize) [ex_Y ++ [xff]; ex_X] /\
     addresses_ascending (addresses o) /\
     Forall (fun a => length a = Address_bsize) (addresses o) /\
     OutputOwners_normalize o = o /\
     (forall t, Some 2 = Some t -> t <> 0 -> getThreshold o = t) /\
     (Some 2 = None \/ Some 2 = Some 0 -> getThreshold o = 1)) /\
  OutputOwners_new [ex_Y; [x01]] (Some 0) (Some 2)
  = Throw (MkError "Error - NBytes.fromBuffer: Error: Buffer length must be at least 20 bytes.") /\
  OutputOwners_new [ex_Y; ex_X] (Some 0) (Some 4294967296)
  = Throw Error_value_out_of_bounds /\
  OutputOwners_new [ex_Y; ex_X] (Some 0) (Some (-1))
  = Throw Error_value_out_of_bounds.
Proof.
  split; [|split; [|split]].
  - apply (OutputOwners_new_spec [ex_Y ++ [xff]; ex_X] (Some 0) (Some 2)).
    + repeat constructor; simpl; lia.
    + intros t Ht. injection Ht as <-. lia.
  - apply (OutputOwners_new_spec [ex_Y; [x01]] (Some 0) (Some 2)).
    apply Exists_cons_tl, Exists_cons_hd. unfold Address_bsize. simpl. lia.
  - apply (proj2 (proj2 (OutputOwners_new_spec [ex_Y; ex_X] (Some 0) (Some 4294967296))))
      with (t := 4294967296).
    + repeat constructor; simpl; lia.
    + reflexivity.
    + lia.
  - apply (proj2 (proj2 (OutputOwners_new_spec [ex_Y; ex_X] (Some 0) (Some (-1)))))
      with (t := -1).
    + repeat constructor; simpl; lia.
    + reflexivity.
    + lia.
Defined.

(** ** Looking an owner up *)

Lemma getAddressIdx_from_cons (i : Z) (a : Address) (l : list Address) (s : Buffer) :
  getAddressIdx_from i (a :: l) s
  = if decide (a = s) then i else getAddressIdx_from (i + 1) l s.
Proof.
  simpl. destruct (decide (a = s)) as [->|Hne].
  - rewrite String.eqb_refl. reflexivity.
  - destruct (String.eqb (toString_hex a) (toString_hex s)) eqn:E; [|reflexivity].
    apply hex_eqb_true in E. contradiction.
Qed.

Lemma getAddressIdx_from_spec (i : Z) (l : list Address) (s : Buffer) :
  (s ∉ l -> getAddressIdx_from i l s = -1) /\
  (s ∈ l -> exists k : nat,
     getAddressIdx_from i l s = i + Z.of_nat k /\ l !! k = Some s /\
     forall j, (j < k)%nat -> l !! j <> Some s).
Proof.
  revert i. induction l as [|a l IH]; intros i.
  - split; [reflexivity | intros H; inversion H].
  - rewrite getAddressIdx_from_cons. destruct (decide (a = s)) as [->|Hne].
    + split; [intros Hn; exfalso; apply Hn; left|].
      intros _. exists 0%nat. repeat split; [lia | intros j Hj; lia].
    + destruct (IH (i + 1)) as [IHn IHy]. split.
      * intros Hn. apply IHn. intros Hs. apply Hn. right. exact Hs.
      * intros Hs. apply elem_of_cons in Hs as [->|Hs]; [contradiction|].
        destruct (IHy Hs) as (k & Hk & Hlk & Hfirst).
        exists (S k). repeat split; [lia | exact Hlk |].
        intros [|j] Hj; simpl; [congruence | apply Hfirst; lia].
Qed.

(** X7. [getAddressIdx] and [getAddress]: the index of an address is -1
    exactly when it is not an owner; for an owner it is the position of its
    first occurrence, and [getAddress] at that index gives the address back.
    [getAddress] at the -1 of a stranger does not report a range error but
    fails on [undefined]; at an index from the number of owners on it throws
    the range error. *)
Theorem getAddress_getAddressIdx (o : OutputOwners) (a : Buffer) :
  (getAddressIdx o a = -1 <-> a ∉ addresses o) /\
  (a ∈ addresses o ->
   exists i : nat,
     getAddressIdx o a = Z.of_nat i /\ addresses o !! i = Some a /\
     (forall j, (j < i)%nat -> addresses o !! j <> Some a) /\
     getAddress o (getAddressIdx o a) = Ok a) /\
  (a ∉ addresses o ->
   getAddress o (getAddressIdx o a)
   = Throw (MkError "TypeError: Cannot read property 'toBuffer' of undefined")) /\
  (forall idx, Z.of_nat (length (addresses o)) <= idx ->
     getAddress o idx = Throw (MkError "Error - Output.getAddress: idx out of range")).
Proof.
  unfold getAddressIdx.
  destruct (getAddressIdx_from_spec 0 (addresses o) a) as [Hno Hyes].
  assert (Hfound : a ∈ addresses o ->
            exists i : nat,
              getAddressIdx_from 0 (addresses o) a = Z.of_nat i /\
              addresses o !! i = Some a /\
              (forall j, (j < i)%nat -> addresses o !! j <> Some a) /\
              getAddress o (getAddressIdx_from 0 (addresses o) a) = Ok a).
  { intros Hin. destruct (Hyes Hin) as (k & Hk & Hlk & Hfirst).
    exists k. rewrite Hk. repeat split; auto.
    unfold getAddress. pose proof (lookup_lt_Some _ _ _ Hlk) as Hlt.
    destruct (Z.ltb_spec (0 + Z.of_nat k) (Z.of_nat (length (addresses o)))); [|lia].
    destruct (Z.ltb_spec (0 + Z.of_nat k) 0); [lia|].
    replace (Z.to_nat (0 + Z.of_nat k)) with k by lia. rewrite Hlk. reflexivity. }
  split; [|split; [exact Hfound|split]].
  - split; [|exact Hno].
    intros Hm Hin. destruct (Hfound Hin) as (i & Hi & _). lia.
  - intros Hn. rewrite (Hno Hn). unfold getAddress.
    destruct (Z.ltb_spec (-1) (Z.of_nat (length (addresses o)))); [reflexivity | lia].
  - intros idx Hidx. unfold getAddress.
    destruct (Z.ltb_spec idx (Z.of_nat (length (addresses o)))); [lia | reflexivity].
Qed.

Lemma getAddress_getAddressIdx_witness :
  (exists i : nat,
     getAddressIdx ex_owners_1of2 ex_Y = Z.of_nat i /\
     addresses ex_owners_1of2 !! i = Some ex_Y /\
     (forall j, (j < i)%nat -> addresses ex_owners_1of2 !! j <> Some ex_Y) /\
     getAddress ex_owners_1of2 (getAddressIdx ex_owners_1of2 ex_Y) = Ok ex_Y) /\
  getAddress ex_owners_1of2 (getAddressIdx ex_owners_1of2 ex_Z)
  = Throw (MkError "TypeError: Cannot read property 'toBuffer' of undefined") /\
  getAddress ex_owners_1of2 2 = Throw (MkError "Error - Output.getAddress: idx out of range").
Proof.
  destruct (getAddress_getAddressIdx ex_owners_1of2 ex_Y) as (_ & Hin & _ & _).
  destruct (getAddress_getAddressIdx ex_owners_1of2 ex_Z) as (_ & _ & Hout & Hrange).
  split; [|split].
  - apply Hin. apply list_elem_of_further, list_elem_of_here.
  - apply Hout. intros H. apply elem_of_cons in H as [H|H]; [discriminate H|].
    apply elem_of_cons in H as [H|H]; [discriminate H | inversion H].
  - apply Hrange. simpl. lia.
Defined.

(** ** Spenders, the threshold and the signature indices *)

Lemma getSpenders_unlocked (o : OutputOwners) (cands : list Buffer) (asOf : Z) :
  getLocktime o < asOf ->
  getSpenders o cands asOf
  = take (Z.to_nat (getThreshold o)) (all_matches (addresses o) cands).
Proof.
  intros Hlock. unfold getSpenders.
  destruct (Z.leb_spec asOf (getLocktime o)); [lia|].
  rewrite getSpenders_outer_take by (simpl; lia). reflexivity.
Qed.

Lemma getSpenders_locked (o : OutputOwners) (cands : list Buffer) (asOf : Z) :
  asOf <= getLocktime o -> getSpenders o cands asOf = [].
Proof.
  intros Hlock. unfold getSpenders.
  destruct (Z.leb_spec asOf (getLocktime o)); [reflexivity | lia].
Qed.

Lemma length_getSpenders_le (o : OutputOwners) (cands : list Buffer) (asOf : Z) :
  Z.of_nat (length (getSpenders o cands asOf)) <= getThreshold o.
Proof.
  pose proof (getThreshold_nonneg o).
  destruct (Z.le_gt_cases asOf (getLocktime o)) as [Hl|Hl].
  - rewrite getSpenders_locked by exact Hl. simpl. lia.
  - rewrite getSpenders_unlocked by lia. rewrite length_take. lia.
Qed.

Lemma meetsThreshold_spec (o : OutputOwners) (cands : list Buffer) (asOf : Z) :
  meetsThreshold o cands asOf = true <->
  getThreshold o = 0 \/
  (getLocktime o < asOf /\
   getThreshold o <= Z.of_nat (length (all_matches (addresses o) cands))).
Proof.
  pose proof (getThreshold_nonneg o) as Hnn.
  unfold meetsThreshold. rewrite Z.geb_leb, Z.leb_le.
  destruct (Z.le_gt_cases asOf (getLocktime o)) as [Hl|Hl].
  - rewrite getSpenders_locked by exact Hl. simpl. lia.
  - rewrite getSpenders_unlocked by lia. rewrite length_take. lia.
Qed.

(** X8. When [meetsThreshold] says yes: exactly when the threshold is 0
    (then even for a locked output, and for anybody), or the locktime has
    passed and the candidates match the owners at least threshold many
    times, counting owner by owner. And when it says yes, [getSpenders]
    returns exactly threshold many spenders. *)
Theorem meetsThreshold_iff (o : OutputOwners) (cands : list Buffer) (asOf : Z) :
  (meetsThreshold o cands asOf = true <->
   getThreshold o = 0 \/
   (getLocktime o < asOf /\
    getThreshold o <= Z.of_nat (length (all_matches (addresses o) cands)))) /\
  (meetsThreshold o cands asOf = true ->
   Z.of_nat (length (getSpenders o cands asOf)) = getThreshold o).
Proof.
  split; [apply meetsThreshold_spec|].
  pose proof (length_getSpenders_le o cands asOf) as Hle.
  unfold meetsThreshold. rewrite Z.geb_leb, Z.leb_le. lia.
Qed.

Lemma meetsThreshold_iff_witness :
  Z.of_nat (length (getSpenders ex_owners_2of2 [ex_Y; ex_Z; ex_X] 1))
  = getThreshold ex_owners_2of2.
Proof.
  apply (meetsThreshold_iff ex_owners_2of2 [ex_Y; ex_Z; ex_X] 1).
  vm_compute. reflexivity.
Defined.

Lemma add_spenders_spec (uout : StandardAmountOutput) (spenders : list Buffer)
    (input : SecpInput) :
  Forall (fun s => s ∈ addresses (ao_owners uout)) spenders ->
  add_spenders uout spenders input
  = Ok {| in_amount := in_amount input;
          in_sigIdxs := in_sigIdxs input
                        ++ map (fun s => (getAddressIdx (ao_owners uout) s, s)) spenders |}.
Proof.
  intros Hall. revert input.
  induction Hall as [|s spenders Hs _ IH]; intros input.
  - simpl. rewrite app_nil_r. destruct input. reflexivity.
  - cbn [add_spenders map].
    destruct (getAddressIdx_from_spec 0 (addresses (ao_owners uout)) s) as [_ Hyes].
    destruct (Hyes Hs) as (k & Hk & _). fold (getAddressIdx (ao_owners uout) s) in Hk.
    destruct (Z.eqb_spec (getAddressIdx (ao_owners uout) s) (-1)); [lia|].
    rewrite IH. unfold addSignatureIdx. cbn [in_amount in_sigIdxs].
    rewrite <- app_assoc. reflexivity.
Qed.

Lemma getSpenders_Forall_owner (o : OutputOwners) (cands : list Buffer) (asOf : Z) :
  Forall (fun s => s ∈ addresses o) (getSpenders o cands asOf).
Proof. apply Forall_forall. intros s. apply getSpenders_owner. Qed.

Lemma add_spenders_run (uout : StandardAmountOutput) (cands : list Buffer)
    (asOf amt : Z) :
  exists input,
    add_spenders uout (getSpenders (ao_owners uout) cands asOf) (MkSecpInput amt [])
    = Ok input /\
    in_amount input = amt /\
    map snd (in_sigIdxs input) = getSpenders (ao_owners uout) cands asOf /\
    Forall (fun p => 0 <= fst p /\
                     addresses (ao_owners uout) !! Z.to_nat (fst p) = Some (snd p) /\
                     snd p ∈ cands)
           (in_sigIdxs input).
Proof.
  eexists. split.
  { apply add_spenders_spec, getSpenders_Forall_owner. }
  cbn [in_amount in_sigIdxs app]. split; [reflexivity|]. split.
  - rewrite map_map. simpl. apply map_id.
  - apply Forall_forall. intros p Hp.
    apply list_elem_of_fmap in Hp as (s & -> & Hs). cbn [fst snd].
    pose proof (getSpenders_owner _ _ _ _ Hs) as Hown.
    destruct (getAddressIdx_from_spec 0 (addresses (ao_owners uout)) s) as [_ Hyes].
    destruct (Hyes Hown) as (k & Hk & Hlk & _).
    unfold getAddressIdx. rewrite Hk.
    replace (Z.to_nat (0 + Z.of_nat k)) with k by lia.
    split; [lia|]. split; [exact Hlk|].
    unfold getSpenders in Hs. destruct (asOf <=? getLocktime (ao_owners uout)).
    { inversion Hs. }
    rewrite getSpenders_outer_take in Hs by (simpl; lia).
    apply subseteq_take in Hs. simpl in Hs.
    unfold all_matches in Hs. apply list_elem_of_In, in_concat in Hs as (l & Hl & Hin).
    apply in_map_iff in Hl as (ow & <- & _).
    apply list_elem_of_In in Hin. unfold matching in Hin.
    apply list_elem_of_filter in Hin as [_ Hin]. exact Hin.
Qed.

(** X9. The signature indices of an input. Adding the spenders that
    [getSpenders] returns for an output to a fresh input never fails (the
    "no such address in output" error cannot happen): the input holds one
    index per spender, in the order of the spenders, each index is the
    position of that spender among the owners of the output, and there are
    at most threshold many. *)
Theorem add_spenders_getSpenders (uout : StandardAmountOutput) (cands : list Buffer)
    (asOf amt : Z) :
  exists input,
    add_spenders uout (getSpenders (ao_owners uout) cands asOf) (MkSecpInput amt [])
    = Ok input /\
    in_amount input = amt /\
    map snd (in_sigIdxs input) = getSpenders (ao_owners uout) cands asOf /\
    Forall (fun p => 0 <= fst p /\
                     addresses (ao_owners uout) !! Z.to_nat (fst p) = Some (snd p) /\
                     snd p ∈ cands)
           (in_sigIdxs input) /\
    Z.of_nat (length (in_sigIdxs input)) <= getThreshold (ao_owners uout).
Proof.
  destruct (add_spenders_run uout cands asOf amt) as (input & Hrun & Hamt & Hsnd & Hidx).
  exists input. repeat split; try assumption.
  rewrite <- (length_map snd), Hsnd. apply length_getSpenders_le.
Qed.

Lemma all_matches_cons (ow : Address) (owners : list Address) (cands : list Buffer) :
  all_matches (ow :: owners) cands = matching ow cands ++ all_matches owners cands.
Proof. reflexivity. Qed.

Lemma matching_eq (ow : Address) (cands : list Buffer) (s : Buffer) :
  s ∈ matching ow cands -> s = ow.
Proof. unfold matching. intros H. apply list_elem_of_filter in H as [H _]. exact H. Qed.

Lemma matching_NoDup_length (ow : Address) (cands : list Buffer) :
  NoDup cands -> (length (matching ow cands) <= 1)%nat.
Proof.
  unfold matching. induction 1 as [|c cands Hc _ IH]; [simpl; lia|].
  rewrite filter_cons. destruct (decide (c = ow)) as [->|]; [|exact IH].
  assert (Hnil : filter (fun c => c = ow) cands = []).
  { destruct (filter (fun c => c = ow) cands) as [|x l] eqn:E; [reflexivity|].
    exfalso. apply Hc.
    assert (Hx : x ∈ filter (fun c => c = ow) cands) by (rewrite E; left).
    apply list_elem_of_filter in Hx as [-> Hx]. exact Hx. }
  rewrite Hnil. simpl. lia.
Qed.

Lemma getAddressIdx_all_matches (R : relation Z) (cands : list Buffer) :
  (forall x y, x < y -> R x y) ->
  (forall (ow : Address) (i : Z), StronglySorted R (map (fun _ => i) (matching ow cands))) ->
  forall (owners : list Address) (i : Z),
    NoDup owners ->
    StronglySorted R (map (getAddressIdx_from i owners) (all_matches owners cands)) /\
    Forall (fun z => i <= z) (map (getAddressIdx_from i owners) (all_matches owners cands)).
Proof.
  intros HR Hblock owners. induction owners as [|ow owners IH]; intros i Hnd.
  - split; constructor.
  - apply NoDup_cons in Hnd as [Hnotin Hnd].
    rewrite all_matches_cons, map_app.
    assert (Hhead : map (getAddressIdx_from i (ow :: owners)) (matching ow cands)
                    = map (fun _ => i) (matching ow cands)).
    { apply map_ext_in. intros s Hs. apply list_elem_of_In, matching_eq in Hs as ->.
      rewrite getAddressIdx_from_cons. destruct (decide (ow = ow)); congruence. }
    assert (Htail : map (getAddressIdx_from i (ow :: owners)) (all_matches owners cands)
                    = map (getAddressIdx_from (i + 1) owners) (all_matches owners cands)).
    { apply map_ext_in. intros s Hs. apply list_elem_of_In, all_matches_owner in Hs.
      rewrite getAddressIdx_from_cons. destruct (decide (ow = s)) as [->|]; [contradiction|].
      reflexivity. }
    rewrite Hhead, Htail. destruct (IH (i + 1) Hnd) as [IHs IHb].
    split.
    + apply StronglySorted_app_2; [|apply Hblock|exact IHs].
      intros x1 x2 H1 H2. apply HR.
      apply list_elem_of_fmap in H1 as (s & -> & _).
      rewrite Forall_forall in IHb. specialize (IHb x2 H2). lia.
    + apply Forall_app. split.
      * apply Forall_forall. intros z Hz. apply list_elem_of_fmap in Hz as (s & -> & _). lia.
      * eapply Forall_impl; [exact IHb|]. intros z Hz. simpl in Hz. lia.
Qed.

Lemma StronglySorted_take {A} (R : relation A) (n : nat) (l : list A) :
  StronglySorted R l -> StronglySorted R (take n l).
Proof.
  intros H. rewrite <- (take_drop n l) in H. apply StronglySorted_app_1_l in H. exact H.
Qed.

Lemma getSpenders_idx_sorted (R : relation Z) (o : OutputOwners) (cands : list Buffer)
    (asOf : Z) :
  (forall x y, x < y -> R x y) ->
  (forall (ow : Address) (i : Z), StronglySorted R (map (fun _ => i) (matching ow cands))) ->
  NoDup (addresses o) ->
  StronglySorted R (map (getAddressIdx o) (getSpenders o cands asOf)).
Proof.
  intros HR Hblock Hnd.
  destruct (Z.le_gt_cases asOf (getLocktime o)) as [Hl|Hl].
  - rewrite getSpenders_locked by exact Hl. constructor.
  - rewrite getSpenders_unlocked by lia.
    change (map (getAddressIdx o)) with (fmap (M := list) (getAddressIdx o)).
    rewrite fmap_take. apply StronglySorted_take.
    apply (getAddressIdx_all_matches R cands HR Hblock (addresses o) 0 Hnd).
Qed.

(** X10. The signature indices of an input are in order. For an output
    whose owners are pairwise different, the indices the walk records for
    the spenders never decrease; when the candidates are pairwise different
    too, they strictly increase (so no index occurs twice). *)
Theorem sigIdxs_ascending (uout : StandardAmountOutput) (cands : list Buffer)
    (asOf amt : Z) (input : SecpInput) :
  NoDup (addresses (ao_owners uout)) ->
  add_spenders uout (getSpenders (ao_owners uout) cands asOf) (MkSecpInput amt [])
  = Ok input ->
  StronglySorted Z.le (map fst (in_sigIdxs input)) /\
  (NoDup cands -> StronglySorted Z.lt (map fst (in_sigIdxs input))).
Proof.
  intros Hnd Hadd.
  rewrite add_spenders_spec in Hadd by apply getSpenders_Forall_owner.
  injection Hadd as <-. cbn [in_sigIdxs app]. rewrite map_map. cbn [fst].
  split.
  - apply getSpenders_idx_sorted; [lia | | exact Hnd].
    intros ow i. induction (matching ow cands) as [|c l IH]; simpl; constructor; auto.
    apply Forall_forall. intros z Hz. apply list_elem_of_fmap in Hz as (s & -> & _). lia.
  - intros Hc. apply getSpenders_idx_sorted; [lia | | exact Hnd].
    intros ow i. pose proof (matching_NoDup_length ow cands Hc) as Hlen.
    destruct (matching ow cands) as [|c [|c' l]]; simpl in *; [constructor | | lia].
    repeat constructor.
Qed.

Lemma sigIdxs_ascending_witness :
  StronglySorted Z.le (map fst (in_sigIdxs (MkSecpInput 5 [(0, ex_X); (1, ex_Y)]))) /\
  (NoDup [ex_Y; ex_X] ->
   StronglySorted Z.lt (map fst (in_sigIdxs (MkSecpInput 5 [(0, ex_X); (1, ex_Y)])))).
Proof.
  apply (sigIdxs_ascending (MkAmountOutput 7 (fromBNToBuffer 5 8) 5 ex_owners_2of2)
           [ex_Y; ex_X] 1 5 (MkSecpInput 5 [(0, ex_X); (1, ex_Y)])).
  - refine (bool_decide_unpack _ _). vm_compute. exact I.
  - vm_compute. reflexivity.
Defined.

(** ** What a selection takes *)

Lemma assetExists_iff (aad : AssetAmountDestination) (asset : Buffer) :
  assetExists aad (toString_hex asset) = true <->
  exists am, am ∈ aad_amounts aad /\ aa_assetID am = asset.
Proof.
  unfold assetExists, getAssetAmount, getAssetIDString.
  rewrite bool_decide_eq_true. split.
  - intros [am Hf]. apply find_some in Hf as [Hin Heq].
    exists am. split; [apply list_elem_of_In, Hin | apply hex_eqb_true, Heq].
  - intros (am & Hin & <-).
    destruct (find _ (aad_amounts aad)) as [am'|] eqn:E; [eexists; reflexivity|].
    apply list_elem_of_In in Hin.
    pose proof (find_none _ _ E am Hin) as Hf. simpl in Hf.
    rewrite String.eqb_refl in Hf. discriminate.
Qed.

Lemma spend_in_targets (amounts : list AssetAmount) (k : string) (a : Z) :
  map targets (spend_in amounts k a) = map targets amounts.
Proof.
  induction amounts as [|am amounts IH]; [reflexivity|].
  simpl. destruct (String.eqb (getAssetIDString am) k); simpl; [reflexivity|].
  rewrite IH. reflexivity.
Qed.

Lemma same_frame_refl (aad : AssetAmountDestination) : same_frame aad aad.
Proof. repeat split. Qed.

Lemma same_frame_trans (a b c : AssetAmountDestination) :
  same_frame a b -> same_frame b c -> same_frame a c.
Proof.
  intros (H1 & H2 & H3 & H4) (H1' & H2' & H3' & H4').
  repeat split; congruence.
Qed.

Lemma selectable_frame (aad aad' : AssetAmountDestination) (asOf : Z) (u : UTXO) :
  same_frame aad aad' -> selectable aad' asOf u -> selectable aad asOf u.
Proof.
  intros (Hs & _ & _ & Ht) (uout & Hout & (am & Hin & Has) & Hm).
  exists uout. split; [exact Hout|]. rewrite <- Hs. split; [|exact Hm].
  assert (Hin' : targets am ∈ map targets (aad_amounts aad)).
  { rewrite <- Ht. apply list_elem_of_fmap. exists am. auto. }
  apply list_elem_of_fmap in Hin' as (am0 & Heq & Hin0).
  exists am0. split; [exact Hin0|]. unfold targets in Heq. congruence.
Qed.

Lemma spend_utxo_step (u : UTXO) (asOf : Z) (aad aad' : AssetAmountDestination)
    (outids outids' : gmap string Z) :
  spend_utxo u asOf (aad, outids) = Ok (aad', outids') ->
  same_frame aad aad' /\ aad_outputs aad' = aad_outputs aad /\
  aad_change aad' = aad_change aad /\
  (aad_inputs aad' = aad_inputs aad \/
   exists i, aad_inputs aad' = aad_inputs aad ++ [i] /\
             input_of (aad_senders aad) asOf u i /\ selectable aad asOf u).
Proof.
  unfold spend_utxo. intros H.
  destruct (u_output u) as [uout|id bytes] eqn:Hout.
  2:{ injection H as <- <-. split; [apply same_frame_refl|]. auto. }
  destruct (assetExists aad (toString_hex (u_assetid u))) eqn:Hex; cbn [andb] in H.
  2:{ injection H as <- <-. split; [apply same_frame_refl|]. auto. }
  destruct (meetsThreshold (ao_owners uout) (getSenders aad) asOf) eqn:Hm.
  2:{ injection H as <- <-. split; [apply same_frame_refl|]. auto. }
  destruct (getAssetAmount aad (toString_hex (u_assetid u))) as [am|]; [|discriminate].
  destruct (negb (isFinished am)).
  2:{ injection H as <- <-. split; [apply same_frame_refl|]. auto. }
  cbv zeta in H.
  destruct (add_spenders_run uout (getSenders aad) asOf (ao_amountValue uout))
    as (input & Hadd & Hamt & Hsnd & Hidx).
  rewrite Hadd in H. cbn [bind] in H. injection H as <- <-.
  unfold addInput, AAD_spendAmount, AAD_with_amounts.
  cbn [aad_senders aad_destinations aad_changeAddresses aad_amounts aad_outputs
       aad_change aad_inputs].
  split; [|split; [reflexivity|split; [reflexivity|]]].
  - repeat split; cbn [aad_senders aad_destinations aad_changeAddresses aad_amounts];
      auto using spend_in_targets.
  - right. eexists. split; [reflexivity|]. split.
    + exists uout. cbn [ti_txid ti_outputidx ti_assetID ti_input]. unfold getSenders in *.
      repeat split; auto.
    + exists uout. split; [exact Hout|]. split; [apply assetExists_iff, Hex | exact Hm].
Qed.

Lemma spend_walk_inputs (set : list UTXO) (asOf : Z) (aad aad' : AssetAmountDestination)
    (outids outids' : gmap string Z) :
  spend_walk set asOf (aad, outids) = Ok (aad', outids') ->
  same_frame aad aad' /\ aad_outputs aad' = aad_outputs aad /\
  aad_change aad' = aad_change aad /\
  exists us new,
    sublist us set /\ aad_inputs aad' = aad_inputs aad ++ new /\
    Forall2 (input_of (aad_senders aad) asOf) us new /\
    Forall (selectable aad asOf) us.
Proof.
  revert aad outids. induction set as [|u set IH]; intros aad outids H.
  - simpl in H. injection H as <- <-.
    split; [apply same_frame_refl|]. do 2 (split; [reflexivity|]).
    exists [], []. rewrite app_nil_r. repeat split; constructor.
  - cbn [spend_walk fst] in H. destruct (canComplete aad).
    { injection H as <- <-.
      split; [apply same_frame_refl|]. do 2 (split; [reflexivity|]).
      exists [], []. rewrite app_nil_r. repeat split; try constructor.
      apply sublist_nil_l. }
    destruct (spend_utxo u asOf (aad, outids)) as [[aad1 outids1]|] eqn:E; [|discriminate].
    cbn [bind] in H.
    apply spend_utxo_step in E as (Hf1 & Ho1 & Hc1 & Hin1).
    apply IH in H as (Hf2 & Ho2 & Hc2 & us & new & Hsub & Hins & Hall2 & Hsel).
    split; [eapply same_frame_trans; eauto|].
    split; [congruence|]. split; [congruence|].
    pose proof Hf1 as (Hs1 & _).
    assert (Hsel' : Forall (selectable aad asOf) us).
    { eapply Forall_impl; [exact Hsel|]. intros x. apply selectable_frame, Hf1. }
    rewrite Hs1 in Hall2.
    destruct Hin1 as [Hsame|(i & Hadd & Hio & Hsu)].
    + exists us, new. repeat split; auto; [apply sublist_cons, Hsub | congruence].
    + exists (u :: us), (i :: new). repeat split; auto.
      * apply sublist_skip, Hsub.
      * rewrite Hins, Hadd, <- app_assoc. reflexivity.
Qed.

Lemma selectable_unlocked (aad : AssetAmountDestination) (asOf : Z) (u : UTXO) :
  selectable aad asOf u ->
  forall uout, u_output u = AmountOut uout ->
    meetsThreshold (ao_owners uout) (aad_senders aad) asOf = true /\
    (getThreshold (ao_owners uout) = 0 \/ getLocktime (ao_owners uout) < asOf).
Proof.
  intros (uout' & Hout' & _ & Hm) uout Hout.
  rewrite Hout' in Hout. injection Hout as <-. split; [exact Hm|].
  apply meetsThreshold_spec in Hm as [H0|[Hl _]]; auto.
Qed.

Section SelectionResults.
Context {ext : Externals}.

Lemma emit_outputs_spec (amounts : list AssetAmount) (outids : gmap string Z)
    (lock thr : Z) (aad aad' : AssetAmountDestination) :
  emit_outputs amounts outids lock thr aad = Ok aad' ->
  aad_senders aad' = aad_senders aad /\ aad_destinations aad' = aad_destinations aad /\
  aad_changeAddresses aad' = aad_changeAddresses aad /\
  aad_amounts aad' = aad_amounts aad /\ aad_inputs aad' = aad_inputs aad /\
  exists outs chg,
    aad_outputs aad' = aad_outputs aad ++ outs /\
    aad_change aad' = aad_change aad ++ chg /\
    Forall2 (fun am x => output_for (aa_assetID am) (aa_amount am) (aad_destinations aad)
                           (Some lock) (Some thr) x)
            (filter (fun am => 0 < aa_amount am) amounts) outs /\
    Forall2 (fun am x => output_for (aa_assetID am) (aa_change am) (aad_changeAddresses aad)
                           None None x)
            (filter (fun am => 0 < aa_change am) amounts) chg.
Proof.
  revert aad. induction amounts as [|am amounts IH]; intros aad H.
  - simpl in H. injection H as <-. repeat split.
    exists [], []. rewrite !app_nil_r. repeat split; constructor.
  - cbn [emit_outputs] in H. cbv zeta in H.
    apply bind_Ok_inv in H as (aad1 & H1 & H).
    apply bind_Ok_inv in H as (aad2 & H2 & H).
    apply IH in H as (Hs & Hd & Hc & Ha & Hi & outs & chg & Ho & Hch & Hpay & Hchg).
    assert (Hstep1 : aad_senders aad1 = aad_senders aad /\
                     aad_destinations aad1 = aad_destinations aad /\
                     aad_changeAddresses aad1 = aad_changeAddresses aad /\
                     aad_amounts aad1 = aad_amounts aad /\ aad_inputs aad1 = aad_inputs aad /\
                     aad_change aad1 = aad_change aad /\
                     exists o1, aad_outputs aad1 = aad_outputs aad ++ o1 /\
                       Forall2 (fun am x => output_for (aa_assetID am) (aa_amount am)
                                              (aad_destinations aad) (Some lock) (Some thr) x)
                               (filter (fun am => 0 < aa_amount am) [am]) o1).
    { rewrite filter_cons, filter_nil.
      destruct (Z.gtb_spec (aa_amount am) 0) as [Hpos|Hnpos].
      - apply bind_Ok_inv in H1 as (spendout & Hsel & H1). injection H1 as <-.
        cbn [addOutput aad_senders aad_destinations aad_changeAddresses aad_amounts
             aad_inputs aad_outputs aad_change].
        repeat split. eexists. split; [reflexivity|].
        destruct (decide (0 < aa_amount am)); [|lia].
        repeat constructor. eexists. exact Hsel.
      - injection H1 as <-. repeat split. exists []. rewrite app_nil_r.
        split; [reflexivity|]. destruct (decide (0 < aa_amount am)); [lia|]. constructor. }
    destruct Hstep1 as (Hs1 & Hd1 & Hc1 & Ha1 & Hi1 & Hch1 & o1 & Ho1 & Hpay1).
    assert (Hstep2 : aad_senders aad2 = aad_senders aad1 /\
                     aad_destinations aad2 = aad_destinations aad1 /\
                     aad_changeAddresses aad2 = aad_changeAddresses aad1 /\
                     aad_amounts aad2 = aad_amounts aad1 /\ aad_inputs aad2 = aad_inputs aad1 /\
                     aad_outputs aad2 = aad_outputs aad1 /\
                     exists c1, aad_change aad2 = aad_change aad1 ++ c1 /\
                       Forall2 (fun am x => output_for (aa_assetID am) (aa_change am)
                                              (aad_changeAddresses aad1) None None x)
                               (filter (fun am => 0 < aa_change am) [am]) c1).
    { rewrite filter_cons, filter_nil.
      destruct (Z.gtb_spec (aa_change am) 0) as [Hpos|Hnpos].
      - apply bind_Ok_inv in H2 as (changeout & Hsel & H2). injection H2 as <-.
        cbn [addChange aad_senders aad_destinations aad_changeAddresses aad_amounts
             aad_inputs aad_outputs aad_change].
        repeat split. eexists. split; [reflexivity|].
        destruct (decide (0 < aa_change am)); [|lia].
        repeat constructor. eexists. exact Hsel.
      - injection H2 as <-. repeat split. exists []. rewrite app_nil_r.
        split; [reflexivity|]. destruct (decide (0 < aa_change am)); [lia|]. constructor. }
    destruct Hstep2 as (Hs2 & Hd2 & Hc2 & Ha2 & Hi2 & Ho2 & c1 & Hch2 & Hchg1).
    split; [congruence|]. split; [congruence|]. split; [congruence|].
    split; [congruence|]. split; [congruence|].
    exists (o1 ++ outs), (c1 ++ chg).
    split; [rewrite Ho, Ho2, Ho1, <- app_assoc; reflexivity|].
    split; [rewrite Hch, Hch2, Hch1, <- app_assoc; reflexivity|].
    change (am :: amounts) with ([am] ++ amounts). rewrite !filter_app.
    rewrite Hd2, Hd1 in Hpay. rewrite Hc2, Hc1 in Hchg. rewrite Hc1 in Hchg1.
    split; apply Forall2_app; assumption.
Qed.

(** X11. What [getMinimumSpendable] takes out of the set, whether it then
    reports insufficient funds or not. The inputs it adds are one per UTXO of
    a sublist of the set, in the order of the set, so no UTXO is spent
    twice; each copies the transaction id, the output index, the asset and
    the amount of its UTXO, and signs for the spenders among the senders.
    Every UTXO taken is an amount output of an asset of the destination
    whose threshold the senders meet; it is past its locktime unless its
    threshold is 0. The addresses and the targets of the destination are as
    they were. *)
Theorem getMinimumSpendable_inputs (set : UTXOSet) (aad : AssetAmountDestination)
    (asOf lock thr : Z) (aad' : AssetAmountDestination) (r : option Error) :
  getMinimumSpendable set aad asOf lock thr = Ok (aad', r) ->
  same_frame aad aad' /\
  exists us new,
    sublist us (getAllUTXOs set) /\ getInputs aad' = getInputs aad ++ new /\
    Forall2 (input_of (getSenders aad) asOf) us new /\
    Forall (selectable aad asOf) us /\
    Forall (fun u => forall uout, u_output u = AmountOut uout ->
                       getThreshold (ao_owners uout) = 0 \/
                       getLocktime (ao_owners uout) < asOf) us.
Proof.
  unfold getMinimumSpendable. cbv zeta. intros H.
  destruct (spend_walk (getAllUTXOs set) asOf (aad, ∅)) as [[aad1 outids]|] eqn:E;
    [|discriminate].
  cbn [bind] in H.
  apply spend_walk_inputs in E as (Hf & _ & _ & us & new & Hsub & Hins & Hall & Hsel).
  assert (Hlock : Forall (fun u => forall uout, u_output u = AmountOut uout ->
                           getThreshold (ao_owners uout) = 0 \/
                           getLocktime (ao_owners uout) < asOf) us).
  { eapply Forall_impl; [exact Hsel|]. intros u Hu uout Hout.
    apply (selectable_unlocked _ _ _ Hu uout Hout). }
  destruct (negb (canComplete aad1)).
  - injection H as <- <-. split; [exact Hf|]. exists us, new. auto.
  - apply bind_Ok_inv in H as (aad2 & Hemit & H). injection H as <- <-.
    apply emit_outputs_spec in Hemit as (Hs & Hd & Hc & Ha & Hi & _).
    destruct Hf as (Hs1 & Hd1 & Hc1 & Ht1).
    split; [repeat split; congruence|].
    exists us, new. unfold getInputs. rewrite Hi. auto.
Qed.

End SelectionResults.

Lemma getMinimumSpendable_inputs_witness :
  same_frame ex_aad_4 (fst ex_selection) /\
  exists us new,
    sublist us (getAllUTXOs ex_set_locked) /\
    getInputs (fst ex_selection) = getInputs ex_aad_4 ++ new /\
    Forall2 (input_of (getSenders ex_aad_4) 1) us new /\
    Forall (selectable ex_aad_4 1) us /\
    Forall (fun u => forall uout, u_output u = AmountOut uout ->
                       getThreshold (ao_owners uout) = 0 \/
                       getLocktime (ao_owners uout) < 1) us.
Proof.
  apply (@getMinimumSpendable_inputs ex_externals ex_set_locked ex_aad_4 1 0 1
           (fst ex_selection) (snd ex_selection)).
  vm_compute. reflexivity.
Defined.


(** ** What the builders return *)

Lemma transfer_aad_shape (toAddresses fromAddresses changeAddresses : list Buffer)
    (assetID : Buffer) (amount : Z) (fee : option Z) (feeAssetID : Buffer) :
  let aad := transfer_aad toAddresses fromAddresses changeAddresses assetID amount fee
               feeAssetID in
  aad_senders aad = fromAddresses /\ aad_destinations aad = toAddresses /\
  aad_changeAddresses aad = changeAddresses /\
  aad_inputs aad = [] /\ aad_outputs aad = [] /\ aad_change aad = [] /\
  exists b rest,
    map targets (aad_amounts aad) = (assetID, amount, b) :: rest /\
    Forall (fun t => t.1.1 = feeAssetID /\ t.1.2 = 0) rest.
Proof.
  unfold transfer_aad. cbv zeta.
  destruct (String.eqb (toString_hex assetID) (toString_hex feeAssetID)).
  - repeat split. exists (default 0 fee), []. split; [reflexivity | constructor].
  - destruct (_feeCheck fee (Some feeAssetID)).
    + repeat split. exists 0, [(feeAssetID, 0, default 0 fee)].
      split; [reflexivity | repeat constructor].
    + repeat split. exists 0, []. split; [reflexivity | constructor].
Qed.

Lemma filter_amount_nil (l : list AssetAmount) :
  Forall (fun am => aa_amount am = 0) l -> filter (fun am => 0 < aa_amount am) l = [].
Proof.
  induction 1 as [|am l Ham _ IH]; [reflexivity|].
  rewrite filter_cons. destruct (decide (0 < aa_amount am)); [lia | exact IH].
Qed.

Section BuilderResults.
Context {ext : Externals}.

Lemma transfer_selection (set : UTXOSet)
    (toAddresses fromAddresses changeAddresses : list Buffer)
    (assetID : Buffer) (amount : Z) (fee : option Z) (feeAssetID : Buffer)
    (asOf lock thr : Z) (aad' : AssetAmountDestination) :
  getMinimumSpendable set
    (transfer_aad toAddresses fromAddresses changeAddresses assetID amount fee feeAssetID)
    asOf lock thr = Ok (aad', None) ->
  payment assetID amount toAddresses lock thr (getOutputs aad') /\
  change_outputs assetID feeAssetID changeAddresses (getChangeOutputs aad') /\
  inputs_from set fromAddresses asOf assetID feeAssetID (getInputs aad').
Proof.
  intros H.
  pose proof (transfer_aad_shape toAddresses fromAddresses changeAddresses assetID amount
                fee feeAssetID) as Hshape. cbv zeta in Hshape.
  set (aad0 := transfer_aad toAddresses fromAddresses changeAddresses assetID amount fee
                 feeAssetID) in *.
  destruct Hshape as (Hs0 & Hd0 & Hc0 & Hi0 & Ho0 & Hch0 & b & rest & Ht0 & Hrest).
  clearbody aad0.
  assert (Hassets : forall am, am ∈ aad_amounts aad0 ->
                      aa_assetID am = assetID \/ aa_assetID am = feeAssetID).
  { intros am Hin.
    assert (Hin' : targets am ∈ map targets (aad_amounts aad0))
      by (apply list_elem_of_fmap; eauto).
    rewrite Ht0 in Hin'. apply elem_of_cons in Hin' as [Heq|Hin'].
    - left. unfold targets in Heq. congruence.
    - right. rewrite Forall_forall in Hrest. apply Hrest in Hin' as [Hfee _]. exact Hfee. }
  unfold getMinimumSpendable in H. cbv zeta in H.
  destruct (spend_walk (getAllUTXOs set) asOf (aad0, ∅)) as [[aad1 outids]|] eqn:E;
    [|discriminate].
  cbn [bind] in H.
  apply spend_walk_inputs in E
    as ((Hs1 & Hd1 & Hc1 & Ht1) & Ho1 & Hch1 & us & new & Hsub & Hins & Hall & Hsel).
  destruct (negb (canComplete aad1)); [discriminate|].
  apply bind_Ok_inv in H as (aad2 & Hemit & H). injection H as <-.
  apply emit_outputs_spec in Hemit
    as (Hs2 & Hd2 & Hc2 & Ha2 & Hi2 & outs & chg & Ho2 & Hch2 & Hpay & Hchg).
  unfold getOutputs, getChangeOutputs, getInputs, getAmounts in *.
  rewrite Ho2, Ho1, Ho0. rewrite Hch2, Hch1, Hch0. rewrite Hi2, Hins, Hi0.
  cbn [app]. rewrite Hd1, Hd0 in Hpay. rewrite Hc1, Hc0 in Hchg. rewrite Hs0 in Hall.
  pose proof Ht1 as Hmap. rewrite Ht0 in Ht1.
  destruct (aad_amounts aad1) as [|am1 rest1] eqn:Ham1; [discriminate|].
  cbn [map] in Ht1. injection Ht1 as Hid Hamt Hburn Hrest1.
  assert (Hzero : Forall (fun am => aa_amount am = 0) rest1).
  { apply Forall_forall. intros am Hin.
    assert (Hin' : targets am ∈ map targets rest1) by (apply list_elem_of_fmap; eauto).
    rewrite Hrest1 in Hin'. rewrite Forall_forall in Hrest.
    apply Hrest in Hin' as [_ Hz]. exact Hz. }
  split; [|split].
  - unfold payment. rewrite filter_cons, (filter_amount_nil _ Hzero) in Hpay.
    destruct (Z.gtb_spec amount 0) as [Hpos|Hnpos].
    + destruct (decide (0 < aa_amount am1)); [|lia].
      apply Forall2_cons_inv_l in Hpay as (x & outs' & Hx & Hnil & ->).
      apply Forall2_nil_inv_l in Hnil as ->.
      exists x. split; [reflexivity|]. rewrite Hid, Hamt in Hx. exact Hx.
    + destruct (decide (0 < aa_amount am1)); [lia|].
      apply Forall2_nil_inv_l in Hpay as ->. reflexivity.
  - unfold change_outputs. eapply Forall2_Forall_r; [exact Hchg|].
    apply Forall_forall. intros am Hin x (Hasset & oid & Hsel').
    apply list_elem_of_filter in Hin as [Hpos Hin].
    assert (Hin0 : exists am0, am0 ∈ aad_amounts aad0 /\ aa_assetID am0 = aa_assetID am).
    { assert (Hin' : targets am ∈ map targets (am1 :: rest1))
        by (apply list_elem_of_fmap; eauto).
      rewrite Hmap in Hin'.
      apply list_elem_of_fmap in Hin' as (am0 & Heq & Hin0).
      exists am0. split; [exact Hin0|]. unfold targets in Heq. congruence. }
    destruct Hin0 as (am0 & Hin0 & Heq0).
    split; [rewrite Hasset, <- Heq0; apply Hassets, Hin0|].
    exists (aa_change am). split; [exact Hpos|]. split; [reflexivity|].
    exists oid. exact Hsel'.
  - exists us. split; [apply sublist_submseteq, Hsub|]. split; [exact Hall|].
    apply Forall_forall. intros u Hu. rewrite Forall_forall in Hsel.
    specialize (Hsel u Hu). split.
    + destruct Hsel as (uout & _ & (am & Hin & <-) & _). apply Hassets, Hin.
    + intros uout Hout. rewrite <- Hs0. apply (selectable_unlocked _ _ _ Hsel uout Hout).
Qed.
End BuilderResults.

(** The statements about the outputs and inputs of a built transaction do
    not depend on their order: they hold as well of the transaction whose
    constructor has sorted them. *)
Lemma Forall2_Permutation_r {A B : Type} (R : A -> B -> Prop) (l : list A)
    (k k' : list B) :
  Forall2 R l k -> k ≡ₚ k' -> exists l', l ≡ₚ l' /\ Forall2 R l' k'.
Proof.
  intros HF HP. revert l HF.
  induction HP as [|x k k' _ IH|x y k|k k' k'' _ IH1 _ IH2]; intros l HF.
  - exists l. split; [reflexivity | exact HF].
  - apply Forall2_cons_inv_r in HF as (a & l0 & Ha & HF & ->).
    destruct (IH l0 HF) as (l' & Hl & HF').
    exists (a :: l'). split; [constructor; exact Hl | constructor; assumption].
  - apply Forall2_cons_inv_r in HF as (a & l0 & Ha & HF & ->).
    apply Forall2_cons_inv_r in HF as (b & l1 & Hb & HF & ->).
    exists (b :: a :: l1). split; [apply perm_swap|].
    constructor; [exact Hb|]. constructor; assumption.
  - destruct (IH1 l HF) as (l' & Hl & HF').
    destruct (IH2 l' HF') as (l'' & Hl' & HF'').
    exists l''. split; [etransitivity; eassumption | exact HF''].
Qed.

Lemma inputs_from_Permutation (set : UTXOSet) (senders : list Buffer) (asOf : Z)
    (assetID feeAssetID : Buffer) (ins ins' : list TransferableInput) :
  ins ≡ₚ ins' ->
  inputs_from set senders asOf assetID feeAssetID ins ->
  inputs_from set senders asOf assetID feeAssetID ins'.
Proof.
  intros HP (us & Hsub & HF & Hall).
  destruct (Forall2_Permutation_r _ _ _ _ HF HP) as (us' & Hus & HF').
  exists us'. split; [rewrite <- Hus; exact Hsub|]. split; [exact HF'|].
  rewrite <- Hus. exact Hall.
Qed.

Lemma change_outputs_Permutation `{Externals} (assetID feeAssetID : Buffer)
    (addrs : list Buffer) (chg chg' : list TransferableOutput) :
  chg ≡ₚ chg' ->
  change_outputs assetID feeAssetID addrs chg ->
  change_outputs assetID feeAssetID addrs chg'.
Proof. unfold change_outputs. intros HP HF. rewrite <- HP. exact HF. Qed.

Section BuilderTheorems.
Context {ext : Externals}.

Lemma buildExportTx_inv (set : UTXOSet) (networkid : Z) (blockchainid : Buffer)
    (amount : Z) (avaxAssetID : Buffer) (toAddresses fromAddresses : list Buffer)
    (changeAddresses : option (list Buffer)) (destinationChain : option Buffer)
    (fee : option Z) (feeAssetID memo : option Buffer) (asOf lock thr : Z)
    (utx : UnsignedTx) :
  buildExportTx set networkid blockchainid amount avaxAssetID toAddresses fromAddresses
    changeAddresses destinationChain fee feeAssetID memo asOf lock thr = Ok (Some utx) ->
  amount <> 0 /\
  exists d outs ins exportOuts,
    utx = MkUnsignedTx (Tx_ExportTx (ExportTx_new networkid blockchainid (Some d) outs ins
                                       memo (Some exportOuts))) /\
    match destinationChain with Some c => Ok c | None => cb58Decode PlatformChainID end = Ok d /\
    payment avaxAssetID amount toAddresses lock thr exportOuts /\
    change_outputs avaxAssetID avaxAssetID (default toAddresses changeAddresses) outs /\
    inputs_from set fromAddresses asOf avaxAssetID avaxAssetID ins.
Proof.
  unfold buildExportTx. cbv zeta. intros H.
  destruct (Z.eqb_spec amount 0) as [|Hne]; [discriminate|]. split; [exact Hne|].
  apply bind_Ok_inv in H as (f & Hf & H).
  assert (Hfa : f = avaxAssetID).
  { destruct feeAssetID as [f'|]; [|congruence].
    destruct (String.eqb (toString_hex f') (toString_hex avaxAssetID)) eqn:E;
      [|discriminate].
    apply hex_eqb_true in E. simpl in Hf. congruence. }
  subst f.
  apply bind_Ok_inv in H as (d & Hd & H).
  apply bind_Ok_inv in H as ([aad' success] & Hsel & H).
  destruct success as [e|]; [discriminate|]. injection H as <-.
  apply transfer_selection in Hsel as (Hpay & Hchg & Hins).
  exists d, (getChangeOutputs aad'), (getInputs aad'), (getOutputs aad'). auto.
Qed.

(** X12. What [buildExportTx] returns when it returns a transaction: the
    amount is not zero; the transaction is an [ExportTx] for the network,
    blockchain, memo and destination chain given (the platform chain when
    none is); its export outputs are one output of the whole amount of the
    AVAX asset to the destination addresses with the locktime and threshold
    given (none for a negative amount); each of its other outputs is change
    of the AVAX asset to the change addresses (the destination addresses when
    none are given); its inputs, in whatever order the transaction keeps
    them, are made one each of as many UTXOs of the set, of the AVAX asset,
    that the senders can spend, none taken twice; and [toBuffer] on it does
    not fail for want of a destination chain. Nothing is said of the order of
    the outputs and inputs. *)
Theorem buildExportTx_result (set : UTXOSet) (networkid : Z) (blockchainid : Buffer)
    (amount : Z) (avaxAssetID : Buffer) (toAddresses fromAddresses : list Buffer)
    (changeAddresses : option (list Buffer)) (destinationChain : option Buffer)
    (fee : option Z) (feeAssetID memo : option Buffer) (asOf lock thr : Z)
    (utx : UnsignedTx) :
  buildExportTx set networkid blockchainid amount avaxAssetID toAddresses fromAddresses
    changeAddresses destinationChain fee feeAssetID memo asOf lock thr = Ok (Some utx) ->
  amount <> 0 /\
  exists d outs ins exportOuts,
    utx = MkUnsignedTx (Tx_ExportTx (ExportTx_new networkid blockchainid (Some d) outs ins
                                       memo (Some exportOuts))) /\
    match destinationChain with Some c => Ok c | None => cb58Decode PlatformChainID end = Ok d /\
    payment avaxAssetID amount toAddresses lock thr exportOuts /\
    change_outputs avaxAssetID avaxAssetID (default toAddresses changeAddresses) outs /\
    inputs_from set fromAddresses asOf avaxAssetID avaxAssetID ins /\
    forall super_toBuffer : BaseTx -> Buffer,
    exists t' bytes,
      ExportTx_toBuffer super_toBuffer
        (ExportTx_new networkid blockchainid (Some d) outs ins memo (Some exportOuts))
      = Ok (t', bytes).
Proof.
  intros H.
  destruct (buildExportTx_inv set networkid blockchainid amount avaxAssetID toAddresses
              fromAddresses changeAddresses destinationChain fee feeAssetID memo asOf lock
              thr utx H) as (Hne & d & outs & ins & exportOuts & Hutx & Hd & Hpay & Hchg & Hins).
  split; [exact Hne|]. exists d, outs, ins, exportOuts.
  repeat (split; [assumption|]).
  intros super_toBuffer. unfold ExportTx_toBuffer, ExportTx_new.
  cbn [etx_destinationChain]. eexists _, _. reflexivity.
Qed.

(** X13. What [buildBaseTx] returns when it returns a transaction: the
    threshold does not exceed the number of destination addresses and the
    amount is not zero; the transaction is a [BaseTx] for the network,
    blockchain and memo given; its outputs are, up to their order, one
    output of the whole amount of the asset to the destination addresses,
    with the locktime and threshold given (none for a negative amount),
    together with change of the asset or of the fee asset to the change
    addresses; its inputs, in whatever order the transaction keeps them, are
    made one each of as many UTXOs of the set, of these assets, that the
    senders can spend, none taken twice. *)
Theorem buildBaseTx_result (set : UTXOSet) (networkid : Z) (blockchainid : Buffer)
    (amount : Z) (assetID : Buffer) (toAddresses fromAddresses : list Buffer)
    (changeAddresses : option (list Buffer)) (fee : option Z)
    (feeAssetID memo : option Buffer) (asOf lock thr : Z) (utx : UnsignedTx) :
  buildBaseTx set networkid blockchainid amount assetID toAddresses fromAddresses
    changeAddresses fee feeAssetID memo asOf lock thr = Ok (Some utx) ->
  thr <= Z.of_nat (length toAddresses) /\ amount <> 0 /\
  exists outs ins pay chg,
    utx = MkUnsignedTx (Tx_BaseTx (MkBaseTx networkid blockchainid outs ins memo)) /\
    outs ≡ₚ pay ++ chg /\
    payment assetID amount toAddresses lock thr pay /\
    change_outputs assetID (default assetID feeAssetID)
      (default toAddresses changeAddresses) chg /\
    inputs_from set fromAddresses asOf assetID (default assetID feeAssetID) ins.
Proof.
  unfold buildBaseTx. cbv zeta. intros H.
  destruct (Z.gtb_spec thr (Z.of_nat (length toAddresses))) as [|Hthr]; [discriminate|].
  split; [exact Hthr|].
  destruct (Z.eqb_spec amount 0) as [|Hne]; [discriminate|]. split; [exact Hne|].
  apply bind_Ok_inv in H as ([aad' success] & Hsel & H).
  destruct success as [e|]; [discriminate|]. injection H as <-.
  apply transfer_selection in Hsel as (Hpay & Hchg & Hins).
  exists (getAllOutputs aad'), (getInputs aad'), (getOutputs aad'), (getChangeOutputs aad').
  split; [reflexivity|]. split; [reflexivity|]. auto.
Qed.

Lemma stake_selection_result (set : UTXOSet) (avaxAssetID : Buffer)
    (fromAddresses changeAddresses : list Buffer) (stakeAmount : Z)
    (fee : option Z) (feeAssetID : option Buffer) (asOf : Z)
    (ins : list TransferableInput) (outs stakeOuts : list TransferableOutput) :
  stake_selection set avaxAssetID fromAddresses changeAddresses stakeAmount fee feeAssetID
    asOf = Ok (ins, outs, stakeOuts) ->
  exists f,
    feeAssetID = Some f /\
    payment avaxAssetID stakeAmount fromAddresses 0 1 stakeOuts /\
    change_outputs avaxAssetID f changeAddresses outs /\
    inputs_from set fromAddresses asOf avaxAssetID f ins.
Proof.
  unfold stake_selection. intros H.
  destruct feeAssetID as [f|]; [|discriminate]. exists f. split; [reflexivity|].
  apply bind_Ok_inv in H as ([aad' success] & Hsel & H).
  destruct success as [e|]; [discriminate|]. injection H as <- <- <-.
  apply transfer_selection in Hsel as (Hpay & Hchg & Hins). auto.
Qed.

(** X14. What the two staking builders guarantee about a transaction they
    return. Both: the staking period starts no earlier than the current time
    and ends after it starts; the fee asset is given; the stake outputs are
    one output of the whole stake of the AVAX asset back to the senders, with
    locktime 0 and threshold 1, when the stake is positive, and none when it
    is not (which [buildAddDelegatorTx] lets pass); each other output is
    change to the change addresses; the inputs, in whatever order the
    transaction keeps them, are made one each of as many UTXOs of the set
    that the senders can spend, none taken twice; node, period, stake and
    reward address are those given. [buildAddValidatorTx] moreover: the stake
    is at least [MINSTAKE], and the delegation fee is a number between 0 and
    100 or is [NaN], which its range check lets pass; it is no infinity. *)
Theorem staking_builders_result (set : UTXOSet) (now networkid : Z)
    (blockchainid avaxAssetID : Buffer) (fromAddresses changeAddresses : list Buffer)
    (nodeID : Buffer) (startTime endTime stakeAmount : Z) (rewardAddress : Buffer)
    (delegationFee : JSNumber) (fee : option Z) (feeAssetID memo : option Buffer)
    (asOf : Z) :
  (forall utx,
     buildAddValidatorTx set now networkid blockchainid avaxAssetID fromAddresses
       changeAddresses nodeID startTime endTime stakeAmount rewardAddress delegationFee
       fee feeAssetID memo asOf = Ok utx ->
     now <= startTime < endTime /\ MINSTAKE <= stakeAmount /\
     match delegationFee with
     | JS_finite q => (0 <= q <= 100)%Q
     | JS_NaN => True
     | JS_Infinity | JS_NegInfinity => False
     end /\
     exists f outs ins stakeOuts,
       feeAssetID = Some f /\
       utx = Some (MkUnsignedTx
                     (Tx_AddValidatorTx (MkBaseTx networkid blockchainid outs ins memo)
                        nodeID startTime endTime stakeAmount stakeOuts rewardAddress
                        delegationFee)) /\
       payment avaxAssetID stakeAmount fromAddresses 0 1 stakeOuts /\
       (0 < stakeAmount -> exists x, stakeOuts = [x]) /\
       (stakeAmount <= 0 -> stakeOuts = []) /\
       change_outputs avaxAssetID f changeAddresses outs /\
       inputs_from set fromAddresses asOf avaxAssetID f ins) /\
  (forall utx,
     buildAddDelegatorTx set now networkid blockchainid avaxAssetID fromAddresses
       changeAddresses nodeID startTime endTime stakeAmount rewardAddress
       fee feeAssetID memo asOf = Ok utx ->
     now <= startTime < endTime /\
     exists f outs ins stakeOuts,
       feeAssetID = Some f /\
       utx = Some (MkUnsignedTx
                     (Tx_AddDelegatorTx (MkBaseTx networkid blockchainid outs ins memo)
                        nodeID startTime endTime stakeAmount stakeOuts rewardAddress)) /\
       payment avaxAssetID stakeAmount fromAddresses 0 1 stakeOuts /\
       (0 < stakeAmount -> exists x, stakeOuts = [x]) /\
       (stakeAmount <= 0 -> stakeOuts = []) /\
       change_outputs avaxAssetID f changeAddresses outs /\
       inputs_from set fromAddresses asOf avaxAssetID f ins).
Proof.
  assert (Hcount : forall stakeOuts,
            payment avaxAssetID stakeAmount fromAddresses 0 1 stakeOuts ->
            (0 < stakeAmount -> exists x, stakeOuts = [x]) /\
            (stakeAmount <= 0 -> stakeOuts = [])).
  { intros stakeOuts Hpay. unfold payment in Hpay.
    destruct (Z.gtb_spec stakeAmount 0) as [Hpos|Hnpos].
    - destruct Hpay as (x & -> & _). split; [eauto | lia].
    - subst stakeOuts. split; [lia | reflexivity]. }
  split; intros utx H.
  - unfold buildAddValidatorTx in H.
    destruct (bad_stake_window now startTime endTime) eqn:Hw; [discriminate|].
    assert (Hwin : now <= startTime < endTime).
    { unfold bad_stake_window in Hw. apply orb_false_iff in Hw as [H1 H2].
      apply Z.ltb_ge in H1. apply Z.leb_gt in H2. lia. }
    destruct (Z.ltb_spec stakeAmount MINSTAKE) as [|Hmin]; [discriminate|].
    destruct (JS_gt delegationFee 100) eqn:Hhi; [discriminate|].
    destruct (JS_lt delegationFee 0) eqn:Hlo; [discriminate|].
    cbn [orb] in H.
    split; [exact Hwin|]. split; [exact Hmin|]. split.
    { destruct delegationFee as [q| | |]; cbn in Hhi, Hlo; try discriminate; [|exact I].
      apply negb_false_iff in Hhi, Hlo. apply Qle_bool_iff in Hhi, Hlo.
      split; assumption. }
    apply bind_Ok_inv in H as ([[ins outs] stakeOuts] & Hsel & H). injection H as <-.
    apply stake_selection_result in Hsel as (f & Hf & Hpay & Hchg & Hins).
    destruct (Hcount stakeOuts Hpay) as [Hone Hnone].
    exists f, outs, ins, stakeOuts. auto 10.
  - unfold buildAddDelegatorTx in H.
    destruct (bad_stake_window now startTime endTime) eqn:Hw; [discriminate|].
    assert (Hwin : now <= startTime < endTime).
    { unfold bad_stake_window in Hw. apply orb_false_iff in Hw as [H1 H2].
      apply Z.ltb_ge in H1. apply Z.leb_gt in H2. lia. }
    split; [exact Hwin|].
    apply bind_Ok_inv in H as ([[ins outs] stakeOuts] & Hsel & H). injection H as <-.
    apply stake_selection_result in Hsel as (f & Hf & Hpay & Hchg & Hins).
    destruct (Hcount stakeOuts Hpay) as [Hone Hnone].
    exists f, outs, ins, stakeOuts. auto 10.
Qed.

(** X15. [buildImportTx] pays the fee out of the set and never out of the
    inputs to import: the transaction it returns is an [ImportTx] that carries
    the import inputs given, unchanged; when no positive fee with its asset
    is given, it takes nothing from the set and has no output; otherwise its
    inputs, in whatever order the transaction keeps them, are made one each
    of as many UTXOs of the set, of the fee asset, that the senders can
    spend, none taken twice, and each of its outputs is change of the fee
    asset back to the senders. *)
Theorem buildImportTx_result (set : UTXOSet) (networkid : Z) (blockchainid : Buffer)
    (fromAddresses : list Buffer) (importIns : list TransferableInput)
    (destinationChain : option Buffer) (fee : option Z) (feeAssetID memo : option Buffer)
    (asOf : Z) (r : option UnsignedTx) :
  buildImportTx set networkid blockchainid fromAddresses importIns destinationChain
    fee feeAssetID memo asOf = Ok r ->
  exists d outs ins,
    r = Some (MkUnsignedTx (Tx_ImportTx (MkBaseTx networkid blockchainid outs ins memo)
                              d importIns)) /\
    match destinationChain with Some c => Ok c | None => cb58Decode PlatformChainID end = Ok d /\
    (_feeCheck fee feeAssetID = false -> outs = [] /\ ins = []) /\
    (forall f, feeAssetID = Some f ->
       change_outputs f f fromAddresses outs /\ inputs_from set fromAddresses asOf f f ins).
Proof.
  unfold buildImportTx. intros H.
  apply bind_Ok_inv in H as ([ins outs] & Hsel & H).
  apply bind_Ok_inv in H as (d & Hd & H). injection H as <-.
  exists d, outs, ins. split; [reflexivity|]. split; [exact Hd|].
  unfold fee_only_selection in Hsel.
  assert (Hnone : outs = [] -> ins = [] ->
            forall f, change_outputs f f fromAddresses outs /\
                      inputs_from set fromAddresses asOf f f ins).
  { intros -> -> f. split; [constructor|]. exists []. repeat split; try constructor.
    apply submseteq_nil_l. }
  destruct fee as [fee'|]; [|injection Hsel as <- <-; split; auto].
  destruct feeAssetID as [f|]; [|injection Hsel as <- <-; split; [auto | discriminate]].
  destruct (_feeCheck (Some fee') (Some f)) eqn:Hfc;
    [|injection Hsel as <- <-; split; auto].
  split; [discriminate|]. intros f' Hf'. injection Hf' as <-.
  apply bind_Ok_inv in Hsel as ([aad' success] & Hsel & H).
  destruct success as [e|]; [discriminate|]. injection H as <- <-.
  assert (Haad : addAssetAmount
                   (AssetAmountDestination_new fromAddresses fromAddresses fromAddresses)
                   f 0 fee'
                 = transfer_aad fromAddresses fromAddresses fromAddresses f 0 (Some fee') f).
  { unfold transfer_aad. rewrite String.eqb_refl. reflexivity. }
  rewrite Haad in Hsel.
  apply transfer_selection in Hsel as (Hpay & Hchg & Hins).
  unfold payment in Hpay. cbn in Hpay. unfold getAllOutputs.
  unfold getOutputs in Hpay. rewrite Hpay. cbn [app]. auto.
Qed.
End BuilderTheorems.

Lemma buildExportTx_result_witness :
  4 <> 0 /\
  exists d outs ins exportOuts,
    ex_built_export
    = MkUnsignedTx (Tx_ExportTx (ExportTx_new 12345 (replicate 32 x00) (Some d) outs ins
                                   None (Some exportOuts))) /\
    Ok (replicate 32 x00) = Ok d /\
    @payment ex_externals ex_asset_1 4 [ex_Y] 0 1 exportOuts /\
    @change_outputs ex_externals ex_asset_1 ex_asset_1 (default [ex_Y] (Some [ex_X])) outs /\
    inputs_from ex_set_locked [ex_X] 1 ex_asset_1 ex_asset_1 ins /\
    forall super_toBuffer : BaseTx -> Buffer,
    exists t' bytes,
      ExportTx_toBuffer super_toBuffer
        (ExportTx_new 12345 (replicate 32 x00) (Some d) outs ins None (Some exportOuts))
      = Ok (t', bytes).
Proof.
  apply (@buildExportTx_result ex_externals ex_set_locked 12345 (replicate 32 x00) 4
           ex_asset_1 [ex_Y] [ex_X] (Some [ex_X]) (Some (replicate 32 x00)) (Some 1) None
           None 1 0 1 ex_built_export).
  vm_compute. reflexivity.
Defined.

Lemma buildBaseTx_result_witness :
  1 <= Z.of_nat (length [ex_Y]) /\ 3 <> 0 /\
  exists outs ins pay chg,
    ex_built_base
    = MkUnsignedTx (Tx_BaseTx (MkBaseTx 12345 (replicate 32 x00) outs ins None)) /\
    outs ≡ₚ pay ++ chg /\
    @payment ex_externals ex_asset_1 3 [ex_Y] 0 1 pay /\
    @change_outputs ex_externals ex_asset_1 (default ex_asset_1 None) (default [ex_Y] None) chg /\
    inputs_from ex_set_locked [ex_X] 1 ex_asset_1 (default ex_asset_1 None) ins.
Proof.
  apply (@buildBaseTx_result ex_externals ex_set_locked 12345 (replicate 32 x00) 3
           ex_asset_1 [ex_Y] [ex_X] None (Some 1) None None 1 0 1 ex_built_base).
  vm_compute. reflexivity.
Defined.

Lemma staking_builders_result_witness :
  (1000 <= 2000 < 3000 /\ @MINSTAKE ex_externals <= 2000 * 1000000000 /\
   (0 <= 2 <= 100)%Q /\
   exists f outs ins stakeOuts,
     Some ex_asset_1 = Some f /\
     ex_built_validator
     = Some (MkUnsignedTx
               (Tx_AddValidatorTx (MkBaseTx 12345 (replicate 32 x00) outs ins None)
                  (replicate 20 x00) 2000 3000 (2000 * 1000000000) stakeOuts ex_X
                  (JS_finite 2))) /\
     @payment ex_externals ex_asset_1 (2000 * 1000000000) [ex_X] 0 1 stakeOuts /\
     (0 < 2000 * 1000000000 -> exists x, stakeOuts = [x]) /\
     (2000 * 1000000000 <= 0 -> stakeOuts = []) /\
     @change_outputs ex_externals ex_asset_1 f [ex_X] outs /\
     inputs_from [ex_utxo_stake] [ex_X] 1000 ex_asset_1 f ins) /\
  (1000 <= 2000 < 3000 /\
   exists f outs ins stakeOuts,
     Some ex_asset_1 = Some f /\
     ex_built_delegator
     = Some (MkUnsignedTx
               (Tx_AddDelegatorTx (MkBaseTx 12345 (replicate 32 x00) outs ins None)
                  (replicate 20 x00) 2000 3000 (2000 * 1000000000) stakeOuts ex_X)) /\
     @payment ex_externals ex_asset_1 (2000 * 1000000000) [ex_X] 0 1 stakeOuts /\
     (0 < 2000 * 1000000000 -> exists x, stakeOuts = [x]) /\
     (2000 * 1000000000 <= 0 -> stakeOuts = []) /\
     @change_outputs ex_externals ex_asset_1 f [ex_X] outs /\
     inputs_from [ex_utxo_stake] [ex_X] 1000 ex_asset_1 f ins) /\
  (exists outs ins stakeOuts,
     ex_built_validator_NaN
     = Some (MkUnsignedTx
               (Tx_AddValidatorTx (MkBaseTx 12345 (replicate 32 x00) outs ins None)
                  (replicate 20 x00) 2000 3000 (2000 * 1000000000) stakeOuts ex_X
                  JS_NaN))) /\
  (exists outs ins,
     ex_built_delegator_0
     = Some (MkUnsignedTx
               (Tx_AddDelegatorTx (MkBaseTx 12345 (replicate 32 x00) outs ins None)
                  (replicate 20 x00) 2000 3000 0 [] ex_X))).
Proof.
  destruct (@staking_builders_result ex_externals [ex_utxo_stake] 1000 12345
              (replicate 32 x00) ex_asset_1 [ex_X] [ex_X] (replicate 20 x00) 2000 3000
              (2000 * 1000000000) ex_X (JS_finite 2) (Some 1) (Some ex_asset_1) None 1000)
    as [Hval Hdel].
  destruct (@staking_builders_result ex_externals [ex_utxo_stake] 1000 12345
              (replicate 32 x00) ex_asset_1 [ex_X] [ex_X] (replicate 20 x00) 2000 3000
              (2000 * 1000000000) ex_X JS_NaN (Some 1) (Some ex_asset_1) None 1000)
    as [Hnan _].
  destruct (@staking_builders_result ex_externals [ex_utxo_stake] 1000 12345
              (replicate 32 x00) ex_asset_1 [ex_X] [ex_X] (replicate 20 x00) 2000 3000
              0 ex_X JS_NaN (Some 1) (Some ex_asset_1) None 1000)
    as [_ Hzero].
  split; [|split; [|split]].
  - apply (Hval ex_built_validator). vm_compute. reflexivity.
  - apply (Hdel ex_built_delegator). vm_compute. reflexivity.
  - destruct (Hnan ex_built_validator_NaN) as (_ & _ & _ & f & outs & ins & stakeOuts & Hf & Hutx & _).
    { vm_compute. reflexivity. }
    exists outs, ins, stakeOuts. exact Hutx.
  - destruct (Hzero ex_built_delegator_0)
      as (_ & f & outs & ins & stakeOuts & _ & Hutx & _ & _ & Hnone & _).
    { vm_compute. reflexivity. }
    exists outs, ins. rewrite Hutx, Hnone by lia. reflexivity.
Defined.

Lemma buildImportTx_result_witness :
  exists d outs ins,
    ex_built_import
    = Some (MkUnsignedTx (Tx_ImportTx (MkBaseTx 12345 (replicate 32 x00) outs ins None)
                            d [])) /\
    Ok (replicate 32 x00) = Ok d /\
    (_feeCheck (Some 1) (Some ex_asset_1) = false -> outs = [] /\ ins = []) /\
    (forall f, Some ex_asset_1 = Some f ->
       @change_outputs ex_externals f f [ex_X] outs /\
       inputs_from ex_set_locked [ex_X] 1 f f ins).
Proof.
  apply (@buildImportTx_result ex_externals ex_set_locked 12345 (replicate 32 x00) [ex_X] []
           (Some (replicate 32 x00)) (Some 1) (Some ex_asset_1) None 1 ex_built_import).
  vm_compute. reflexivity.
Defined.

(** ** [ExportTx.toBuffer] and the order of the export outputs *)

Lemma TransferableOutput_comparator_total (a b : TransferableOutput) :
  TransferableOutput_comparator a b <= 0 \/ TransferableOutput_comparator b a <= 0.
Proof. apply Buffer_compare_total. Qed.

Lemma TransferableOutput_comparator_trans (a b c : TransferableOutput) :
  TransferableOutput_comparator a b <= 0 -> TransferableOutput_comparator b c <= 0 ->
  TransferableOutput_comparator a c <= 0.
Proof. apply Buffer_compare_trans. Qed.

Lemma TransferableOutput_normalize_idem (x : TransferableOutput) :
  TransferableOutput_normalize (TransferableOutput_normalize x)
  = TransferableOutput_normalize x.
Proof.
  destruct x as [asset [a|id bytes]]; [|reflexivity].
  unfold TransferableOutput_normalize. simpl.
  rewrite OutputOwners_normalize_idem. reflexivity.
Qed.

Lemma sorted_bytes (l : list TransferableOutput) :
  StronglySorted (fun a b => Buffer_compare a b <= 0)
    (map TransferableOutput_toBuffer (Array_sort TransferableOutput_comparator l)).
Proof.
  apply (StronglySorted_fmap TransferableOutput_toBuffer
           (fun a b => TransferableOutput_comparator a b <= 0)).
  - intros x y H. exact H.
  - apply Array_sort_sorted;
      [apply TransferableOutput_comparator_total | apply TransferableOutput_comparator_trans].
Qed.

Lemma sort_Permutation_bytes (l1 l2 : list TransferableOutput) :
  l1 ≡ₚ l2 ->
  map TransferableOutput_toBuffer (Array_sort TransferableOutput_comparator l1)
  = map TransferableOutput_toBuffer (Array_sort TransferableOutput_comparator l2).
Proof.
  intros Hp.
  assert (Hanti : AntiSymm eq (fun a b : Buffer => Buffer_compare a b <= 0)).
  { intros a b. apply Buffer_compare_le_antisym. }
  apply (StronglySorted_unique (fun a b : Buffer => Buffer_compare a b <= 0)).
  - apply sorted_bytes.
  - apply sorted_bytes.
  - apply Permutation_map.
    rewrite !(Array_sort_Permutation TransferableOutput_comparator). exact Hp.
Qed.

(** X16. The bytes of an [ExportTx] do not depend on the order in which its
    export outputs were given: two transactions with the same base part and
    destination chain whose export outputs are a rearrangement of one
    another serialise to the same bytes (or both throw, for want of a
    destination chain). *)
Theorem ExportTx_toBuffer_order_independent (super_toBuffer : BaseTx -> Buffer)
    (t1 t2 : ExportTx) :
  etx_base t1 = etx_base t2 -> etx_destinationChain t1 = etx_destinationChain t2 ->
  etx_exportOuts t1 ≡ₚ etx_exportOuts t2 ->
  match ExportTx_toBuffer super_toBuffer t1, ExportTx_toBuffer super_toBuffer t2 with
  | Ok (_, bytes1), Ok (_, bytes2) => bytes1 = bytes2
  | Throw e1, Throw e2 => e1 = e2
  | _, _ => False
  end.
Proof.
  intros Hb Hd Hp. unfold ExportTx_toBuffer. rewrite Hb, Hd.
  destruct (etx_destinationChain t2) as [d|]; [|reflexivity].
  cbv zeta. rewrite (Permutation_length Hp), (sort_Permutation_bytes _ _ Hp). reflexivity.
Qed.

Lemma ExportTx_toBuffer_order_independent_witness :
  match ExportTx_toBuffer (fun _ => []) ex_export_tx,
        ExportTx_toBuffer (fun _ => [])
          (ExportTx_new 1 (replicate 32 x00) (Some (replicate 32 x00)) [] [] None
             (Some [ex_out_a; ex_out_b])) with
  | Ok (_, bytes1), Ok (_, bytes2) => bytes1 = bytes2
  | Throw e1, Throw e2 => e1 = e2
  | _, _ => False
  end.
Proof.
  apply (ExportTx_toBuffer_order_independent (fun _ => []) ex_export_tx
           (ExportTx_new 1 (replicate 32 x00) (Some (replicate 32 x00)) [] [] None
              (Some [ex_out_a; ex_out_b]))).
  - reflexivity.
  - reflexivity.
  - apply Permutation_swap.
Defined.

(** X17. [ExportTx.toBuffer] is idempotent: on the transaction as a first
    [toBuffer] left it (export outputs sorted, count written), a second
    [toBuffer] gives the same bytes and leaves the transaction as it is; the
    first one keeps the number of export outputs and writes it as the
    count. *)
Theorem ExportTx_toBuffer_twice (super_toBuffer : BaseTx -> Buffer)
    (t t' : ExportTx) (bytes : Buffer) :
  ExportTx_toBuffer super_toBuffer t = Ok (t', bytes) ->
  ExportTx_toBuffer super_toBuffer t' = Ok (t', bytes) /\
  length (etx_exportOuts t') = length (etx_exportOuts t) /\
  readUInt32BE (etx_numOuts t') = Z.of_nat (length (etx_exportOuts t)) mod 2 ^ 32.
Proof.
  unfold ExportTx_toBuffer. intros H.
  destruct (etx_destinationChain t) as [d|]; [|discriminate].
  cbv zeta in H. injection H as <- <-.
  cbn [etx_destinationChain etx_exportOuts etx_base etx_numOuts].
  set (S := Array_sort TransferableOutput_comparator (etx_exportOuts t)).
  assert (Hlen : length S = length (etx_exportOuts t)).
  { apply Permutation_length, Array_sort_Permutation. }
  assert (Hsorted : Array_sort TransferableOutput_comparator
                      (map TransferableOutput_normalize S)
                    = map TransferableOutput_normalize S).
  { apply Array_sort_of_sorted;
      try exact TransferableOutput_comparator_total;
      try exact TransferableOutput_comparator_trans.
    apply (StronglySorted_fmap TransferableOutput_normalize
             (fun a b => TransferableOutput_comparator a b <= 0)).
    - intros x y Hxy. unfold TransferableOutput_comparator in *.
      rewrite !TransferableOutput_toBuffer_normalize. exact Hxy.
    - apply Array_sort_sorted;
        [apply TransferableOutput_comparator_total
        | apply TransferableOutput_comparator_trans]. }
  split; [|split].
  - cbv zeta. rewrite Hsorted, !length_map, Hlen.
    rewrite !map_map.
    rewrite (map_ext _ _ TransferableOutput_normalize_idem).
    rewrite (map_ext (fun x => TransferableOutput_toBuffer (TransferableOutput_normalize x))
               _ TransferableOutput_toBuffer_normalize).
    reflexivity.
  - rewrite length_map. exact Hlen.
  - unfold readUInt32BE, writeUInt32BE.
    rewrite take_ge by (rewrite length_be_bytes; lia).
    rewrite fromBufferToBN_be_bytes. reflexivity.
Qed.

Lemma ExportTx_toBuffer_twice_witness :
  ExportTx_toBuffer (fun _ => []) (fst ex_export_result)
  = Ok (fst ex_export_result, snd ex_export_result) /\
  length (etx_exportOuts (fst ex_export_result)) = length (etx_exportOuts ex_export_tx) /\
  readUInt32BE (etx_numOuts (fst ex_export_result))
  = Z.of_nat (length (etx_exportOuts ex_export_tx)) mod 2 ^ 32.
Proof.
  apply (ExportTx_toBuffer_twice (fun _ => []) ex_export_tx).
  vm_compute. reflexivity.
Defined.

(** ** The state of a facade across the build helpers *)

Lemma api_le_refl (api : API) : api_le api api.
Proof. repeat split; auto. Qed.

Lemma api_le_trans (a b c : API) : api_le a b -> api_le b c -> api_le a c.
Proof.
  intros (H1 & H2 & H3 & H4 & H5) (H1' & H2' & H3' & H4' & H5').
  repeat split; try congruence; auto.
Qed.

Section FacadeState.
Context {ext : Externals} {avm : AVMExternals}.

Lemma getAVAXAssetID_state (node : Node) (vm : VM) (api api' : API) (a : Buffer) :
  getAVAXAssetID node vm api = Ok (api', a) ->
  api_le api api' /\ api_AVAXAssetID api' = Some a /\ api_fee api' = api_fee api.
Proof.
  unfold getAVAXAssetID. destruct (api_AVAXAssetID api) as [a0|] eqn:Ha; intros H.
  - injection H as <- <-. split; [apply api_le_refl | auto].
  - apply bind_Ok_inv in H as (s & _ & H). apply bind_Ok_inv in H as (b & _ & H).
    injection H as <- <-. repeat split; cbn; auto. congruence.
Qed.

Lemma getFee_state (api api' : API) (f : Z) :
  getFee api = Ok (api', f) ->
  api_le api api' /\ api_fee api' = Some f /\ api_AVAXAssetID api' = api_AVAXAssetID api.
Proof.
  unfold getFee. destruct (api_fee api) as [f0|] eqn:Hf; intros H.
  - injection H as <- <-. split; [apply api_le_refl | auto].
  - apply bind_Ok_inv in H as (fee & _ & H).
    injection H as <- <-. repeat split; cbn; auto. congruence.
Qed.

Lemma PlatformVM_gate_state (node : Node) (api api' : API) (built r : option UnsignedTx) :
  PlatformVM_goose_egg_gate node api built = Ok (api', r) ->
  api_le api api' /\ is_Some (api_AVAXAssetID api') /\ api_fee api' = api_fee api /\
  r = built /\ is_Some r.
Proof.
  intros H. apply PlatformVM_goose_egg_gate_Ok in H as (-> & [utx ->] & H).
  unfold PlatformVM_checkGooseEgg in H.
  apply bind_Ok_inv in H as ([api1 a] & Ha & H).
  apply getAVAXAssetID_state in Ha as (Hle & Hasset & Hfee).
  destruct (_ || _); injection H as <-; (split; [exact Hle | repeat split; eauto]).
Qed.

Lemma AVM_gate_state (node : Node) (api api' : API) (built r : option AVM_UnsignedTx) :
  AVM_goose_egg_gate node api built = Ok (api', r) ->
  api_le api api' /\ is_Some (api_AVAXAssetID api') /\ api_fee api' = api_fee api /\
  r = built /\ is_Some r.
Proof.
  intros H. apply AVM_goose_egg_gate_Ok in H as (-> & [utx ->] & H).
  unfold AVM_checkGooseEgg in H.
  apply bind_Ok_inv in H as ([api1 a] & Ha & H).
  apply getAVAXAssetID_state in Ha as (Hle & Hasset & Hfee).
  destruct (_ || _); injection H as <-; (split; [exact Hle | repeat split; eauto]).
Qed.
End FacadeState.

Section FacadeStateTheorem.
Context {ext : Externals} {avm : AVMExternals}.

(** X18. What a build helper of either facade leaves behind when it
    returns. The network, the prefix and the blockchain id of the facade are
    untouched; an AVAX asset id or a fee that was cached before is still
    cached, with the same value; afterwards both are cached, so that
    [getAVAXAssetID] no longer asks the node and [getFee] no longer reads the
    defaults; and the helper has returned a transaction, never
    [undefined]. *)
Theorem build_helpers_state (node : Node) (now now' : Z) (api api' : API) :
  (forall (call : PlatformVM_call) (r : option UnsignedTx),
     PlatformVM_build node now now' api call = Ok (api', r) ->
     api_le api api' /\ is_Some r /\
     exists a f,
       (forall node' vm, getAVAXAssetID node' vm api' = Ok (api', a)) /\
       getFee api' = Ok (api', f)) /\
  (forall (call : AVM_call) (r : option AVM_UnsignedTx),
     AVM_build node api call = Ok (api', r) ->
     api_le api api' /\ is_Some r /\
     exists a f,
       (forall node' vm, getAVAXAssetID node' vm api' = Ok (api', a)) /\
       getFee api' = Ok (api', f)).
Proof.
  assert (Hfin : is_Some (api_fee api') -> is_Some (api_AVAXAssetID api') ->
            exists a f,
              (forall node' vm, getAVAXAssetID node' vm api' = Ok (api', a)) /\
              getFee api' = Ok (api', f)).
  { intros [f Hf] [a Ha]. exists a, f. split.
    - intros node' vm. unfold getAVAXAssetID. rewrite Ha. reflexivity.
    - unfold getFee. rewrite Hf. reflexivity. }
  split; intros call r H.
  - destruct call; cbn [PlatformVM_build] in H;
      [ unfold PlatformVM_buildImportTx in H
      | unfold PlatformVM_buildExportTx in H
      | unfold PlatformVM_buildAddSubnetValidatorTx in H
      | unfold PlatformVM_buildAddDelegatorTx in H
      | unfold PlatformVM_buildAddValidatorTx in H ];
      run_inv H;
      (repeat match goal with
              | E : getAVAXAssetID _ _ _ = Ok (_, _) |- _ =>
                  apply getAVAXAssetID_state in E; destruct E as (? & ? & ?)
              | E : getFee _ = Ok (_, _) |- _ =>
                  apply getFee_state in E; destruct E as (? & ? & ?)
              | E : PlatformVM_goose_egg_gate _ _ _ = Ok (_, _) |- _ =>
                  apply PlatformVM_gate_state in E; destruct E as (? & ? & ? & ? & ?)
              | E : AVM_goose_egg_gate _ _ _ = Ok (_, _) |- _ =>
                  apply AVM_gate_state in E; destruct E as (? & ? & ? & ? & ?)
              end);
      subst;
      (split; [eauto 6 using api_le_trans, api_le_refl | split; [assumption|]]);
      (apply Hfin; [|assumption]);
      repeat match goal with Hx : api_fee _ = _ |- _ => rewrite Hx end;
      eexists; reflexivity.
  - destruct call; cbn [AVM_build] in H;
      [ unfold AVM_buildBaseTx in H
      | unfold AVM_buildNFTTransferTx in H
      | unfold AVM_buildImportTx in H
      | unfold AVM_buildExportTx in H
      | unfold AVM_buildCreateAssetTx in H
      | unfold AVM_buildCreateNFTAssetTx in H
      | unfold AVM_buildCreateNFTMintTx in H ];
      run_inv H;
      (repeat match goal with
              | E : getAVAXAssetID _ _ _ = Ok (_, _) |- _ =>
                  apply getAVAXAssetID_state in E; destruct E as (? & ? & ?)
              | E : getFee _ = Ok (_, _) |- _ =>
                  apply getFee_state in E; destruct E as (? & ? & ?)
              | E : PlatformVM_goose_egg_gate _ _ _ = Ok (_, _) |- _ =>
                  apply PlatformVM_gate_state in E; destruct E as (? & ? & ? & ? & ?)
              | E : AVM_goose_egg_gate _ _ _ = Ok (_, _) |- _ =>
                  apply AVM_gate_state in E; destruct E as (? & ? & ? & ? & ?)
              end);
      subst;
      (split; [eauto 6 using api_le_trans, api_le_refl | split; [assumption|]]);
      (apply Hfin; [|assumption]);
      repeat match goal with Hx : api_fee _ = _ |- _ => rewrite Hx end;
      eexists; reflexivity.
Qed.
End FacadeStateTheorem.

Lemma build_helpers_state_witness :
  (api_le ex_api_free (fst ex_P_import_result) /\ is_Some (snd ex_P_import_result) /\
   exists a f,
     (forall node' vm,
        @getAVAXAssetID ex_externals node' vm (fst ex_P_import_result)
        = Ok (fst ex_P_import_result, a)) /\
     @getFee ex_externals (fst ex_P_import_result) = Ok (fst ex_P_import_result, f)) /\
  (api_le ex_api (fst ex_X_base_result) /\ is_Some (snd ex_X_base_result) /\
   exists a f,
     (forall node' vm,
        @getAVAXAssetID ex_externals node' vm (fst ex_X_base_result)
        = Ok (fst ex_X_base_result, a)) /\
     @getFee ex_externals (fst ex_X_base_result) = Ok (fst ex_X_base_result, f)).
Proof.
  split.
  - apply (proj1 (@build_helpers_state ex_externals ex_avm_externals ex_node 1000 1000
                    ex_api_free (fst ex_P_import_result))
             ex_P_import_call (snd ex_P_import_result)).
    vm_compute. reflexivity.
  - apply (proj2 (@build_helpers_state ex_externals ex_avm_externals ex_node 1000 1000
                    ex_api (fst ex_X_base_result))
             ex_X_base_call (snd ex_X_base_result)).
    vm_compute. reflexivity.
Defined.

(** ** Cleaning address arrays *)

Section CleanAddresses.
Context {ext : Externals}.

Lemma clean_addresses_spec (vm : VM) (api : API) (caller chainid : string)
    (l : list (string + Buffer)) (addrs : list string) :
  clean_addresses vm api caller chainid l = Ok addrs ->
  Forall2 (fun a s =>
             match a with
             | inl str => s = str /\ exists b, parseAddress api str = Ok (Some b)
             | inr bytes => s = bintools_addressToString (api_hrp api) chainid bytes
             end) l addrs.
Proof.
  revert addrs. induction l as [|[str|bytes] l IH]; intros addrs H.
  - injection H as <-. constructor.
  - cbn [clean_addresses] in H.
    apply bind_Ok_inv in H as ([b|] & Hp & H); [|discriminate].
    apply bind_Ok_inv in H as (rest & Hrest & H). injection H as <-.
    constructor; [eauto | apply IH, Hrest].
  - cbn [clean_addresses] in H.
    apply bind_Ok_inv in H as (rest & Hrest & H). injection H as <-.
    constructor; [reflexivity | apply IH, Hrest].
Qed.

Lemma clean_addresses_invalid (vm : VM) (api : API) (caller chainid : string)
    (pre : list (string + Buffer)) (pre' : list string) (addr : string)
    (rest : list (string + Buffer)) :
  clean_addresses vm api caller chainid pre = Ok pre' ->
  parseAddress api addr = Ok None ->
  clean_addresses vm api caller chainid (pre ++ inl addr :: rest)
  = Throw (MkError (String.append "Error - "
             (String.append (VM_name vm)
                (String.append "."
                   (String.append caller
                      (String.append ": Invalid address format " addr)))))).
Proof.
  intros Hpre Hbad. revert pre' Hpre.
  induction pre as [|[str|bytes] pre IH]; intros pre' Hpre.
  - cbn [app clean_addresses]. rewrite Hbad. reflexivity.
  - cbn [app clean_addresses] in *.
    apply bind_Ok_inv in Hpre as ([b|] & Hp & H); [|discriminate].
    apply bind_Ok_inv in H as (r & Hr & _).
    rewrite Hp. cbn [bind]. rewrite (IH r Hr). reflexivity.
  - cbn [app clean_addresses] in *.
    apply bind_Ok_inv in Hpre as (r & Hr & _).
    rewrite (IH r Hr). reflexivity.
Qed.

(** X19. [_cleanAddressArray]: a missing array gives the empty array. When
    it returns for an array, the result has one string per entry, in order: a
    string is passed on as it is, and [parseAddress] accepted it; a buffer is
    rendered by [addressToString] with the prefix of the facade and the alias
    of its chain (the blockchain id when there is no alias). The first
    string that [parseAddress] answers [undefined] for, after entries that
    are fine, makes it throw "Invalid address format", naming the facade, the
    caller and the string. *)
Theorem _cleanAddressArray_spec (vm : VM) (api : API) (caller : string) :
  _cleanAddressArray vm api None caller = Ok [] /\
  (forall l addrs,
     _cleanAddressArray vm api (Some l) caller = Ok addrs ->
     Forall2 (fun a s =>
                match a with
                | inl str => s = str /\ exists b, parseAddress api str = Ok (Some b)
                | inr bytes =>
                    s = bintools_addressToString (api_hrp api)
                          (match getBlockchainAlias api with
                           | Some alias => if String.eqb alias "" then getBlockchainID api
                                           else alias
                           | None => getBlockchainID api
                           end) bytes
                end) l addrs) /\
  (forall pre pre' addr rest,
     _cleanAddressArray vm api (Some pre) caller = Ok pre' ->
     parseAddress api addr = Ok None ->
     _cleanAddressArray vm api (Some (pre ++ inl addr :: rest)) caller
     = Throw (MkError (String.append "Error - "
                (String.append (VM_name vm)
                   (String.append "."
                      (String.append caller
                         (String.append ": Invalid address format " addr))))))).
Proof.
  split; [reflexivity|]. split.
  - intros l addrs H. apply (clean_addresses_spec vm api caller _ l addrs H).
  - intros pre pre' addr rest Hpre Hbad.
    apply (clean_addresses_invalid vm api caller _ pre pre' addr rest Hpre Hbad).
Qed.
End CleanAddresses.

Lemma _cleanAddressArray_spec_witness :
  Forall2 (fun a s =>
             match a with
             | inl str => s = str /\ exists b, @parseAddress ex_externals_strict ex_api str
                                               = Ok (Some b)
             | inr bytes =>
                 s = @bintools_addressToString ex_externals_strict (api_hrp ex_api)
                       (match @getBlockchainAlias ex_externals_strict ex_api with
                        | Some alias => if String.eqb alias "" then getBlockchainID ex_api
                                        else alias
                        | None => getBlockchainID ex_api
                        end) bytes
             end)
          [inl "P-local1qyqszqgpqyqszqgpqyqszqgpqyqszqgp"; inr ex_X]
          ["P-local1qyqszqgpqyqszqgpqyqszqgpqyqszqgp";
           "P-local1qyqszqgpqyqszqgpqyqszqgpqyqszqgp"] /\
  @_cleanAddressArray ex_externals_strict PlatformVMAPI ex_api
    (Some ([inr ex_X] ++ inl "X-fuji1qyqszqgp" :: [inr ex_Y])) "buildImportTx"
  = Throw (MkError (String.append "Error - "
             (String.append (VM_name PlatformVMAPI)
                (String.append "."
                   (String.append "buildImportTx"
                      (String.append ": Invalid address format " "X-fuji1qyqszqgp")))))).
Proof.
  destruct (@_cleanAddressArray_spec ex_externals_strict PlatformVMAPI ex_api "buildImportTx")
    as (_ & Hok & Hbad).
  split.
  - apply Hok. vm_compute. reflexivity.
  - apply (Hbad [inr ex_X] ["P-local1qyqszqgpqyqszqgpqyqszqgpqyqszqgp"]).
    + vm_compute. reflexivity.
    + vm_compute. reflexivity.
Defined.

(** ** The inputs of an import *)

Lemma add_spenders_own (output : StandardAmountOutput) (asOf amt : Z) :
  exists input,
    add_spenders output
      (getSpenders (ao_owners output) (getAddresses (ao_owners output)) asOf)
      (MkSecpInput amt []) = Ok input /\
    in_amount input = amt /\
    map snd (in_sigIdxs input)
    = getSpenders (ao_owners output) (getAddresses (ao_owners output)) asOf /\
    Forall (fun p => 0 <= fst p /\
                     addresses (ao_owners output) !! Z.to_nat (fst p) = Some (snd p) /\
                     snd p ∈ getAddresses (ao_owners output))
           (in_sigIdxs input).
Proof.
  destruct (add_spenders_run output (getAddresses (ao_owners output)) asOf amt)
    as (input & H1 & H2 & H3 & H4).
  exists input. auto.
Qed.

(** X20. The loop of the [buildImportTx] helpers over the atomic UTXOs. When
    every atomic UTXO of the AVAX asset is an amount output, the loop
    returns one input per UTXO of the AVAX asset, in order, and ignores the
    others; each input has the transaction id, output index, asset and
    amount of its UTXO and signs for the spenders that the owners of the
    output themselves make; a UTXO that is still locked is imported all the
    same, with no signature index at all. An atomic UTXO of the AVAX asset
    that is not an amount output makes the loop fail on [getAmount]. *)
Theorem import_inputs_spec (atomics : list UTXO) (avaxAssetID : Buffer) (asOf : Z) :
  (Forall (fun u => u_assetid u = avaxAssetID -> exists a, u_output u = AmountOut a)
          atomics ->
   exists ins,
     import_inputs atomics (toString_hex avaxAssetID) asOf = Ok ins /\
     Forall2 (fun u i =>
                exists a, u_output u = AmountOut a /\
                  input_of (getAddresses (ao_owners a)) asOf u i /\
                  (asOf <= getLocktime (ao_owners a) -> in_sigIdxs (ti_input i) = []))
             (filter (fun u => u_assetid u = avaxAssetID) atomics) ins) /\
  (Exists (fun u => u_assetid u = avaxAssetID /\
                    exists id bytes, u_output u = OtherOut id bytes) atomics ->
   import_inputs atomics (toString_hex avaxAssetID) asOf
   = Throw (MkError "TypeError: output.getAmount is not a function")).
Proof.
  split.
  - induction 1 as [|u atomics Hu _ IH].
    + exists []. split; [reflexivity | constructor].
    + destruct IH as (ins & Hins & Hall).
      cbn [import_inputs]. cbv zeta. rewrite filter_cons.
      destruct (decide (u_assetid u = avaxAssetID)) as [Heq|Hne].
      * rewrite Heq, String.eqb_refl. destruct (Hu Heq) as [a Ha]. rewrite Ha.
        destruct (add_spenders_own a asOf (ao_amountValue a))
          as (input & Hadd & Hamt & Hsnd & Hidx).
        rewrite Hadd, Hins. cbn [bind]. eexists. split; [reflexivity|].
        constructor; [|exact Hall].
        exists a. split; [exact Ha|]. split.
        -- exists a. cbn [ti_txid ti_outputidx ti_assetID ti_input].
           repeat split; auto.
        -- intros Hlock. cbn [ti_input].
           rewrite getSpenders_locked in Hsnd by exact Hlock.
           destruct (in_sigIdxs input); [reflexivity | discriminate].
      * destruct (String.eqb (toString_hex (u_assetid u)) (toString_hex avaxAssetID))
          eqn:E; [apply hex_eqb_true in E; contradiction|].
        exists ins. auto.
  - induction atomics as [|u atomics IH]; intros Hex; [inversion Hex|].
    cbn [import_inputs]. cbv zeta.
    destruct (String.eqb (toString_hex (u_assetid u)) (toString_hex avaxAssetID)) eqn:E.
    + destruct (u_output u) as [a|id bytes] eqn:Hout; [|reflexivity].
      destruct (add_spenders_own a asOf (ao_amountValue a)) as (input & Hadd & _).
      rewrite Hadd. rewrite IH; [reflexivity|].
      apply Exists_cons in Hex as [(_ & id & bytes & Hbad)|Hex]; [congruence | exact Hex].
    + apply IH. apply Exists_cons in Hex as [(Heq & _)|Hex]; [|exact Hex].
      rewrite Heq, String.eqb_refl in E. discriminate.
Qed.

Lemma import_inputs_spec_witness :
  (exists ins,
     import_inputs ex_atomics (toString_hex ex_asset_1) 1 = Ok ins /\
     Forall2 (fun u i =>
                exists a, u_output u = AmountOut a /\
                  input_of (getAddresses (ao_owners a)) 1 u i /\
                  (1 <= getLocktime (ao_owners a) -> in_sigIdxs (ti_input i) = []))
             (filter (fun u => u_assetid u = ex_asset_1) ex_atomics) ins) /\
  import_inputs ex_atomics (toString_hex ex_asset_2) 1
  = Throw (MkError "TypeError: output.getAmount is not a function").
Proof.
  split.
  - apply (import_inputs_spec ex_atomics ex_asset_1 1).
    repeat constructor; intros H; try discriminate H; eexists; reflexivity.
  - apply (import_inputs_spec ex_atomics ex_asset_2 1).
    apply Exists_cons_tl, Exists_cons_hd. split; [reflexivity|].
    eexists _, _. reflexivity.
Defined.

(** ** Change through the facade *)

Section FacadeChange.
Context {ext : Externals}.

Lemma address_buffers_None (vm : VM) (api : API) (caller : string) :
  address_buffers vm api None caller = Ok [].
Proof. reflexivity. Qed.

(** X21. [PlatformVMAPI.buildExportTx] with no change addresses. The
    builder would send the change to the destination addresses, but the
    helper hands it the empty array it made of the missing argument: in the
    transaction returned, the export outputs pay the amount to the
    destination addresses, and every change output is made for an empty list
    of addresses. *)
Theorem PlatformVM_buildExportTx_no_change_addresses (node : Node) (api api' : API)
    (utxoset : UTXOSet) (amount : Z) (toAddresses fromAddresses : list string)
    (destinationChain : ChainArg) (memo : option Memo) (asOf lock thr : Z)
    (r : option UnsignedTx) :
  PlatformVM_buildExportTx node api utxoset amount toAddresses fromAddresses None
    destinationChain memo asOf lock thr = Ok (api', r) ->
  exists to avaxAssetID blockchainid d outs ins exportOuts,
    address_buffers PlatformVMAPI api (Some (map inl toAddresses)) "buildBaseTx" = Ok to /\
    api_AVAXAssetID api' = Some avaxAssetID /\
    r = Some (MkUnsignedTx
                (Tx_ExportTx (ExportTx_new (api_networkID api) blockchainid (Some d) outs ins
                                (memo_bytes memo) (Some exportOuts)))) /\
    payment avaxAssetID amount to lock thr exportOuts /\
    change_outputs avaxAssetID avaxAssetID [] outs.
Proof.
  unfold PlatformVM_buildExportTx. intros H.
  apply bind_Ok_inv in H as (to & Hto & H).
  apply bind_Ok_inv in H as (from & Hfrom & H).
  cbn [fmap option_fmap option_map] in H. rewrite address_buffers_None in H.
  cbn [bind] in H. cbv zeta in H.
  apply bind_Ok_inv in H as ([api1 avax] & Havax & H).
  apply bind_Ok_inv in H as (d & Hd & H).
  apply bind_Ok_inv in H as (bcid & Hbc & H).
  apply bind_Ok_inv in H as ([api2 fee] & Hfee & H).
  apply bind_Ok_inv in H as (built & Hbuilt & H).
  apply PlatformVM_gate_state in H as (Hle3 & _ & _ & -> & [utx ->]).
  apply getAVAXAssetID_state in Havax as (Hle1 & Hasset1 & _).
  apply getFee_state in Hfee as (Hle2 & _ & Hasset2).
  apply buildExportTx_inv in Hbuilt
    as (_ & d' & outs & ins & exportOuts & -> & _ & Hpay & Hchg & _).
  exists to, avax, bcid, d', outs, ins, exportOuts.
  split; [exact Hto|]. split.
  { destruct Hle3 as (_ & _ & _ & Ha & _). apply Ha. congruence. }
  split.
  { destruct Hle1 as (Hn1 & _). destruct Hle2 as (Hn2 & _).
    rewrite Hn2, Hn1. reflexivity. }
  split; [exact Hpay | exact Hchg].
Qed.
End FacadeChange.

Lemma PlatformVM_buildExportTx_no_change_addresses_witness :
  exists to avaxAssetID blockchainid d outs ins exportOuts,
    @address_buffers ex_externals PlatformVMAPI ex_api_asset_1
      (Some (map inl ["P-local1qyqszqgpqyqszqgpqyqszqgpqyqszqgp"])) "buildBaseTx" = Ok to /\
    api_AVAXAssetID (fst ex_P_export_result) = Some avaxAssetID /\
    snd ex_P_export_result
    = Some (MkUnsignedTx
              (Tx_ExportTx (ExportTx_new (api_networkID ex_api_asset_1) blockchainid (Some d)
                              outs ins (memo_bytes None) (Some exportOuts)))) /\
    @payment ex_externals avaxAssetID 4 to 0 1 exportOuts /\
    @change_outputs ex_externals avaxAssetID avaxAssetID [] outs.
Proof.
  apply (@PlatformVM_buildExportTx_no_change_addresses ex_externals ex_node ex_api_asset_1
           (fst ex_P_export_result) ex_set_locked 4
           ["P-local1qyqszqgpqyqszqgpqyqszqgpqyqszqgp"]
           ["P-local1qyqszqgpqyqszqgpqyqszqgpqyqszqgp"]
           (Chain_Buffer (replicate 32 x00)) None 1 0 1 (snd ex_P_export_result)).
  vm_compute. reflexivity.
Defined.

(** ** The comparators *)

Lemma Buffer_compare_eq_iff (a b : Buffer) : Buffer_compare a b = 0 <-> a = b.
Proof. split; [apply Buffer_compare_eq | intros ->; apply Buffer_compare_refl]. Qed.

Lemma Buffer_compare_range (a b : Buffer) :
  Buffer_compare a b = -1 \/ Buffer_compare a b = 0 \/ Buffer_compare a b = 1.
Proof.
  revert b. induction a as [|x a IH]; intros [|y b]; simpl; auto.
  destruct (byte_val x <? byte_val y); [auto|].
  destruct (byte_val y <? byte_val x); auto.
Qed.

(** X22. The three comparators order their arguments consistently, as a
    sort needs it. Each returns -1, 0 or 1; swapping the arguments negates
    the result; the order is transitive; and two arguments compare equal
    exactly when their keys are the same bytes: the address itself for
    [Address.comparator], the output type id and the output bytes for
    [OutputOwners.comparator], the bytes of the transferable output for
    [StandardTransferableOutput.comparator]. *)
Theorem comparators_consistent :
  (forall a b : Address,
     (Address_comparator a b = -1 \/ Address_comparator a b = 0 \/
      Address_comparator a b = 1) /\
     Address_comparator b a = - Address_comparator a b /\
     (Address_comparator a b = 0 <-> a = b)) /\
  (forall a b c : Address,
     Address_comparator a b <= 0 -> Address_comparator b c <= 0 ->
     Address_comparator a c <= 0) /\
  (forall a b : Output,
     (Output_comparator a b = -1 \/ Output_comparator a b = 0 \/ Output_comparator a b = 1) /\
     Output_comparator b a = - Output_comparator a b /\
     (Output_comparator a b = 0 <->
      writeUInt32BE (Output_getOutputID a) = writeUInt32BE (Output_getOutputID b) /\
      Output_toBuffer a = Output_toBuffer b)) /\
  (forall a b c : Output,
     Output_comparator a b <= 0 -> Output_comparator b c <= 0 ->
     Output_comparator a c <= 0) /\
  (forall a b : TransferableOutput,
     (TransferableOutput_comparator a b = -1 \/ TransferableOutput_comparator a b = 0 \/
      TransferableOutput_comparator a b = 1) /\
     TransferableOutput_comparator b a = - TransferableOutput_comparator a b /\
     (TransferableOutput_comparator a b = 0 <->
      TransferableOutput_toBuffer a = TransferableOutput_toBuffer b)) /\
  (forall a b c : TransferableOutput,
     TransferableOutput_comparator a b <= 0 -> TransferableOutput_comparator b c <= 0 ->
     TransferableOutput_comparator a c <= 0).
Proof.
  split; [|split; [|split; [|split; [|split]]]].
  - intros a b. unfold Address_comparator. split; [apply Buffer_compare_range|].
    split; [apply Buffer_compare_antisym | apply Buffer_compare_eq_iff].
  - intros a b c. apply Buffer_compare_trans.
  - intros a b. unfold Output_comparator. cbv zeta. split; [apply Buffer_compare_range|].
    split; [apply Buffer_compare_antisym|].
    rewrite Buffer_compare_eq_iff. unfold Buffer_concat. cbn [concat].
    rewrite !app_nil_r. split.
    + intros H. apply app_inj_1 in H; [exact H|].
      unfold writeUInt32BE. rewrite !length_be_bytes. reflexivity.
    + intros [-> ->]. reflexivity.
  - intros a b c. unfold Output_comparator. apply Buffer_compare_trans.
  - intros a b. unfold TransferableOutput_comparator. cbv zeta.
    split; [apply Buffer_compare_range|].
    split; [apply Buffer_compare_antisym | apply Buffer_compare_eq_iff].
  - intros a b c. apply Buffer_compare_trans.
Qed.

(** ** The guards of the asset creation helpers *)

Section CreateAssetGuards.
Context {ext : Externals} {avm : AVMExternals}.

(** X23. The length checks of [AVMAPI.buildCreateAssetTx] and
    [AVMAPI.buildCreateNFTAssetTx]. Neither returns unless the symbol has at
    most [SYMBOLMAXLEN] characters and the name at most [ASSETNAMELEN]. With
    addresses that are fine, the first helper reports a symbol that is too
    long whatever the name is, and the second a name that is too long
    whatever the symbol is, each in a message that ends with the decimal
    digits of the limit; both do so before anything is asked of the node. *)
Theorem create_asset_guards (node : Node) (api : API) (utxoset : AVM_UTXOSet)
    (fromAddresses : list (string + Buffer)) (name symbol : string)
    (memo : option Memo) (asOf : Z) :
  (forall initialStates denomination r,
     AVM_buildCreateAssetTx node api utxoset fromAddresses initialStates name symbol
       denomination memo asOf = Ok r ->
     (String.length symbol <= SYMBOLMAXLEN)%nat /\ (String.length name <= ASSETNAMELEN)%nat) /\
  (forall minterSets lock r,
     AVM_buildCreateNFTAssetTx node api utxoset fromAddresses minterSets name symbol
       memo asOf lock = Ok r ->
     (String.length symbol <= SYMBOLMAXLEN)%nat /\ (String.length name <= ASSETNAMELEN)%nat) /\
  (forall initialStates denomination from,
     address_buffers AVMAPI api (Some fromAddresses) "buildCreateAssetTx" = Ok from ->
     (SYMBOLMAXLEN < String.length symbol)%nat ->
     AVM_buildCreateAssetTx node api utxoset fromAddresses initialStates name symbol
       denomination memo asOf
     = Throw (MkError (String.append
                         "Error - AVMAPI.buildCreateAssetTx: Symbols may not exceed length of "
                         (Number_toString SYMBOLMAXLEN)))) /\
  (forall minterSets lock from,
     address_buffers AVMAPI api (Some fromAddresses) "buildCreateNFTAssetTx" = Ok from ->
     (ASSETNAMELEN < String.length name)%nat ->
     AVM_buildCreateNFTAssetTx node api utxoset fromAddresses minterSets name symbol
       memo asOf lock
     = Throw (MkError (String.append
                         "Error - AVMAPI.buildCreateNFTAssetTx: Names may not exceed length of "
                         (Number_toString ASSETNAMELEN)))).
Proof.
  split; [|split; [|split]].
  - intros initialStates denomination r H. unfold AVM_buildCreateAssetTx in H.
    apply bind_Ok_inv in H as (from & _ & H). cbv zeta in H.
    destruct (Nat.ltb_spec SYMBOLMAXLEN (String.length symbol)); [discriminate|].
    destruct (Nat.ltb_spec ASSETNAMELEN (String.length name)); [discriminate|].
    lia.
  - intros minterSets lock r H. unfold AVM_buildCreateNFTAssetTx in H.
    apply bind_Ok_inv in H as (from & _ & H). cbv zeta in H.
    destruct (Nat.ltb_spec ASSETNAMELEN (String.length name)); [discriminate|].
    destruct (Nat.ltb_spec SYMBOLMAXLEN (String.length symbol)); [discriminate|].
    lia.
  - intros initialStates denomination from Hfrom Hlen. unfold AVM_buildCreateAssetTx.
    rewrite Hfrom. cbn [bind]. cbv zeta.
    destruct (Nat.ltb_spec SYMBOLMAXLEN (String.length symbol)); [reflexivity | lia].
  - intros minterSets lock from Hfrom Hlen. unfold AVM_buildCreateNFTAssetTx.
    rewrite Hfrom. cbn [bind]. cbv zeta.
    destruct (Nat.ltb_spec ASSETNAMELEN (String.length name)); [reflexivity | lia].
Qed.
End CreateAssetGuards.

Lemma create_asset_guards_witness :
  @AVM_buildCreateAssetTx ex_externals ex_avm_externals ex_node ex_api tt [inr ex_X] tt
    "A name" "SYMBOL" 9 None 1
  = Throw (MkError "Error - AVMAPI.buildCreateAssetTx: Symbols may not exceed length of 4") /\
  @AVM_buildCreateNFTAssetTx ex_externals ex_avm_externals ex_node ex_api tt [inr ex_X] []
    (String.concat EmptyString (replicate 129 "n")) "SYM" None 1 0
  = Throw (MkError "Error - AVMAPI.buildCreateNFTAssetTx: Names may not exceed length of 128") /\
  ((String.length "SYM" <= @SYMBOLMAXLEN ex_externals)%nat /\
   (String.length "A name" <= @ASSETNAMELEN ex_externals)%nat).
Proof.
  split; [|split].
  - destruct (@create_asset_guards ex_externals ex_avm_externals ex_node ex_api tt
                [inr ex_X] "A name" "SYMBOL" None 1) as (_ & _ & Hsym & _).
    apply (Hsym tt 9 [ex_X]).
    + vm_compute. reflexivity.
    + vm_compute. lia.
  - destruct (@create_asset_guards ex_externals ex_avm_externals ex_node ex_api tt
                [inr ex_X] (String.concat EmptyString (replicate 129 "n")) "SYM" None 1)
      as (_ & _ & _ & Hname).
    apply (Hname [] 0 [ex_X]).
    + vm_compute. reflexivity.
    + vm_compute. lia.
  - destruct (@create_asset_guards ex_externals ex_avm_externals ex_node ex_api tt
                [inr ex_X] "A name" "SYM" None 1) as (Hok & _).
    apply (Hok tt 9 (setFee (set_AVAXAssetID ex_api (replicate 32 x00)) 1000000,
                     Some (MkExAVMTx None 1000000 0))).
    vm_compute. reflexivity.
Defined.
